(** * mkpdf: the document tree compiler

    A shallow embedding of [walker.py] (path selection and entry
    description) and [merger.py] (pagination and outline assembly), and
    the properties of the specification established on it.

    Conventions of the embedding.
    - A path is the list of its components below the filesystem anchor;
      [pathlib]'s [name], [parent], [stem] and [suffix] are written out.
    - Names are byte strings; [str.lower], [str.strip], [str.splitlines]
      and [str.capitalize] are the ASCII fragments of the Python
      functions: on strings of ASCII characters they are those functions,
      and a byte outside ASCII is neither white space nor a letter.
    - The directory snapshot is a finite tree ([node]); the entries of a
      directory are kept in the order [iterdir] yields them.
    - Python dictionaries are [gmap]s.
    - What the program obtains from its collaborators (the regular
      expression engine, the per-process string hash, the PDF reader, the
      image converter, the outline writer) is a parameter of the section
      that uses it.
    - A function that can raise returns an [option]; [None] is the
      exception. *)

From stdpp Require Import gmap strings list fin_maps sorting.
From Stdlib Require Import ZArith Lia Ascii String OrdersEx.

Open Scope string_scope.
Open Scope list_scope.

(** ** Strings *)

Module Str.

Definition lower_ascii (c : ascii) : ascii :=
  let n := nat_of_ascii c in
  if (65 <=? n)%nat && (n <=? 90)%nat then ascii_of_nat (n + 32) else c.

(** [str.lower] *)
Fixpoint lower (s : string) : string :=
  match s with
  | EmptyString => EmptyString
  | String c s' => String (lower_ascii c) (lower s')
  end.

(** [str.isspace] on one character *)
Definition is_space (c : ascii) : bool :=
  let n := nat_of_ascii c in
  (n =? 32)%nat || ((9 <=? n)%nat && (n <=? 13)%nat)
  || ((28 <=? n)%nat && (n <=? 31)%nat).

Fixpoint lstrip (s : string) : string :=
  match s with
  | EmptyString => EmptyString
  | String c s' => if is_space c then lstrip s' else s
  end.

(** [str.strip] *)
Definition strip (s : string) : string :=
  String.rev (lstrip (String.rev (lstrip s))).

(** the characters at which [str.splitlines] breaks a line, the
    carriage return apart *)
Definition is_linebreak (c : ascii) : bool :=
  let n := nat_of_ascii c in
  (n =? 10)%nat || (n =? 11)%nat || (n =? 12)%nat
  || ((28 <=? n)%nat && (n <=? 30)%nat).

Definition is_cr (c : ascii) : bool := (nat_of_ascii c =? 13)%nat.
Definition is_lf (c : ascii) : bool := (nat_of_ascii c =? 10)%nat.

(** [acc] holds the current line, reversed; [started] tells whether the
    current line exists (a text ending in a line break has no empty last
    line). *)
Fixpoint splitlines_from (acc : string) (started : bool) (s : string)
  : list string :=
  match s with
  | EmptyString => if started then [String.rev acc] else []
  | String c s' =>
      if is_cr c then
        match s' with
        | String c' s'' =>
            if is_lf c' then String.rev acc :: splitlines_from EmptyString false s''
            else String.rev acc :: splitlines_from EmptyString false s'
        | EmptyString => [String.rev acc]
        end
      else if is_linebreak c then
        String.rev acc :: splitlines_from EmptyString false s'
      else splitlines_from (String c acc) true s'
  end.

(** [str.splitlines] *)
Definition splitlines (s : string) : list string :=
  splitlines_from EmptyString false s.

(** [str.startswith(".")] *)
Definition starts_with_dot (s : string) : bool :=
  match s with
  | String c _ => (nat_of_ascii c =? 46)%nat
  | EmptyString => false
  end.

(** [str.rfind(".")]: the index of the last dot *)
Fixpoint rfind_dot_from (i : nat) (s : string) : option nat :=
  match s with
  | EmptyString => None
  | String c s' =>
      match rfind_dot_from (S i) s' with
      | Some j => Some j
      | None => if (nat_of_ascii c =? 46)%nat then Some i else None
      end
  end.

Definition rfind_dot (s : string) : option nat := rfind_dot_from 0 s.

(** [str.replace("_", " ")] *)
Fixpoint replace_underscores (s : string) : string :=
  match s with
  | EmptyString => EmptyString
  | String c s' =>
      String (if (nat_of_ascii c =? 95)%nat then " "%char else c)
             (replace_underscores s')
  end.

Definition upper_ascii (c : ascii) : ascii :=
  let n := nat_of_ascii c in
  if (97 <=? n)%nat && (n <=? 122)%nat then ascii_of_nat (n - 32) else c.

(** [str.capitalize] on ASCII strings: first character upper case, the
    rest lower case; a byte outside ASCII is left as it is *)
Definition capitalize (s : string) : string :=
  match s with
  | EmptyString => EmptyString
  | String c s' => String (upper_ascii c) (lower s')
  end.

(** a string of ASCII characters, the strings on which [lower],
    [capitalize] and [strip] are what Python computes *)
Definition is_ascii (s : string) : Prop :=
  Forall (fun c => nat_of_ascii c < 128) (list_ascii_of_string s).

End Str.

(** ** Paths *)

Abbreviation Path := (list string).

Module PurePath.

(** [Path.name] *)
Definition name (p : Path) : string := List.last p "".

(** [Path.parent]; the anchor is its own parent *)
Definition parent (p : Path) : Path := List.removelast p.

(** [path / child] *)
Definition child (p : Path) (n : string) : Path := p ++ [n].

(** [str(path)] of a relative path: the components joined by a slash,
    and a single dot for the empty path *)
Definition str (p : Path) : string :=
  match p with
  | [] => "."
  | _ => String.concat "/" p
  end.

(** [Path.suffix] *)
Definition suffix (p : Path) : string :=
  let n := name p in
  match Str.rfind_dot n with
  | Some i =>
      if (0 <? i)%nat && (i <? String.length n - 1)%nat
      then String.substring i (String.length n - i) n
      else ""
  | None => ""
  end.

(** [Path.stem] *)
Definition stem (p : Path) : string :=
  let n := name p in
  match Str.rfind_dot n with
  | Some i =>
      if (0 <? i)%nat && (i <? String.length n - 1)%nat
      then String.substring 0 i n
      else n
  | None => n
  end.

End PurePath.

(** ** The directory snapshot *)

(** A file carries the text [read_text] returns, or [None] when reading
    it raises; a directory carries its entries in [iterdir] order. *)
#[local] Set Warnings "-register-all".

Inductive node : Type :=
| File (text : option string)
| Dir (entries : list (string * node)).

Module FS.

Definition is_dir (n : node) : bool :=
  match n with Dir _ => true | File _ => false end.

Definition is_file (n : node) : bool := negb (is_dir n).

(** the entry of a directory listing with the given name *)
Fixpoint entry (nm : string) (es : list (string * node)) : option node :=
  match es with
  | [] => None
  | (n, x) :: es' => if String.eqb n nm then Some x else entry nm es'
  end.

(** [(dir / nm).exists()] *)
Definition has_entry (nm : string) (es : list (string * node)) : bool :=
  match entry nm es with Some _ => true | None => false end.

(** the node a path denotes, from the anchor *)
Fixpoint lookup (fs : node) (p : Path) : option node :=
  match p with
  | [] => Some fs
  | n :: p' =>
      match fs with
      | Dir es =>
          match entry n es with
          | Some x => lookup x p'
          | None => None
          end
      | File _ => None
      end
  end.

(** [path.read_text()]: the text, or [None] when the call raises (no
    such file, a directory, an unreadable or undecodable file) *)
Definition read_text (n : option node) : option string :=
  match n with
  | Some (File t) => t
  | _ => None
  end.

Fixpoint height (n : node) : nat :=
  match n with
  | File _ => 0
  | Dir es => S (foldr (fun e acc => Nat.max (height (snd e)) acc) 0 es)
  end.

(** no two entries of a directory share a name, at any depth *)
Fixpoint wf (n : node) : Prop :=
  match n with
  | File _ => True
  | Dir es =>
      NoDup (map fst es)
      /\ foldr (fun e acc => wf (snd e) /\ acc) True es
  end.

End FS.

(** ** Stable sorting by a key *)

Section Sorting.

Context {A K : Type}.
Variable key : A -> K.
Variable ltb : K -> K -> bool.

(** [x] goes before the first element whose key is not below its own *)
Fixpoint insert_by (x : A) (l : list A) : list A :=
  match l with
  | [] => [x]
  | y :: l' =>
      if ltb (key y) (key x) then y :: insert_by x l' else x :: y :: l'
  end.

(** [sorted(l, key=key)]: Python's sort is stable, and so is this one *)
Definition sort_by (l : list A) : list A := foldr insert_by [] l.

(** [x] may stay in front of [y]: the key of [y] is not below its own *)
Definition keeps (x y : A) : Prop := ltb (key y) (key x) = false.

End Sorting.

(** ** walker.py *)

(** [_load_dotfile_lines]: the stripped non-empty lines of a marker file;
    the empty list when reading it raises *)
Definition _load_dotfile_lines (f : option node) : list string :=
  match FS.read_text f with
  | Some t =>
      List.filter (fun l => negb (String.eqb l ""))
                  (map Str.strip (Str.splitlines t))
  | None => []
  end.

(** [_is_img] *)
Definition _is_img (p : Path) : bool :=
  bool_decide (Str.lower (PurePath.suffix p)
               ∈ [".jpg"; ".jpeg"; ".png"; ".bmp"; ".tiff"; ".gif"]).

(** [_is_pdf] *)
Definition _is_pdf (p : Path) : bool :=
  String.eqb (Str.lower (PurePath.suffix p)) ".pdf".

(** [_is_valid] *)
Definition _is_valid (p : Path) (n : node) : bool :=
  FS.is_dir n || _is_pdf p || _is_img p.

(** [_should_ignore]; [es] is the listing of [p], empty when [p] is not a
    directory *)
Definition _should_ignore (p : Path) (es : list (string * node)) : bool :=
  FS.has_entry ".ignore" es || String.eqb (PurePath.name p) ".ignore".

(** [{name: i for i, name in enumerate(preferred)}] *)
Definition preferred_map_of (preferred : list string) : gmap string nat :=
  foldl (fun m e => <[snd e := fst e]> m) ∅ (imap pair preferred).

Section Walker.

Context {Pattern : Type}.
(** [re.search(pattern, s)] as a truth value *)
Variable re_search : Pattern -> string -> bool.
(** the builtin [hash] on strings, fixed for one process *)
Variable hash : string -> Z.

(** [_match_filters]; an absent pattern list is the empty one *)
Definition _match_filters (p : Path) (includes excludes : list Pattern)
  : bool :=
  let as_str := PurePath.str p in
  if negb (bool_decide (includes = []))
     && negb (existsb (fun pat => re_search pat as_str) includes)
  then false
  else if negb (bool_decide (excludes = []))
          && existsb (fun pat => re_search pat as_str) excludes
  then false
  else true.

(** the key of the second sort, line 34 *)
Definition order_key (preferred_map : gmap string nat) (nm : string) : Z :=
  default (Z.of_nat (size preferred_map) + hash (Str.lower nm))%Z
          (Z.of_nat <$> preferred_map !! nm).

(** the children of a directory in the order the loop visits them,
    lines 28 to 34 *)
Definition ordered_children (es : list (string * node))
  : list (string * node) :=
  let children := sort_by (fun e => Str.lower (fst e)) String.ltb es in
  match FS.entry ".order" es with
  | Some order_file =>
      let preferred := _load_dotfile_lines (Some order_file) in
      let preferred_map := preferred_map_of preferred in
      sort_by (fun e => order_key preferred_map (fst e)) Z.ltb children
  | None => children
  end.

Variables includes excludes : list Pattern.

(** whether the loop goes past its two [continue] tests for a child,
    lines 39 to 43 *)
Definition visited (current_path : Path) (e : string * node) : bool :=
  _is_valid (PurePath.child current_path (fst e)) (snd e)
  && negb (Str.starts_with_dot (fst e)
           || bool_decide (fst e ∈ [".order"; ".label"; ".title"; ".dpi"])).

(** one turn of the loop, lines 38 to 48: what it appends to
    [selection]; [walk'] is the recursive call *)
Definition visit (walk' : Path -> Path -> list (string * node) -> list Path)
           (current_path rel_parts : Path) (e : string * node) : list Path :=
  let child := PurePath.child current_path (fst e) in
  if negb (visited current_path e) then []
  else
    match snd e with
    | Dir es' => walk' child (rel_parts ++ [fst e]) es'
    | File _ =>
        if _match_filters (PurePath.child rel_parts (fst e)) includes excludes
        then [child] else []
    end.

(** the inner function [walk]; what it appends to [selection] is what
    it returns here. The recursion descends one directory level per
    call, which [fuel] counts. *)
Fixpoint walk (fuel : nat) (current_path rel_parts : Path)
         (es : list (string * node)) : list Path :=
  match fuel with
  | O => []
  | S fuel' =>
      if _should_ignore current_path es then []
      else if negb (_match_filters rel_parts includes excludes) then []
      else
        current_path ::
        flat_map (visit (walk fuel') current_path rel_parts)
                 (ordered_children es)
  end.

(** [select_paths]. [root] is the resolved root, [fs] the snapshot it
    is looked up in. [None] stands for the exception [iterdir] raises
    when the root is not a directory; below the root [walk] only enters
    directories. *)
Definition select_paths (fs : node) (root : Path) : option (list Path) :=
  match FS.lookup fs root with
  | Some (Dir es) => Some (walk (FS.height (Dir es)) root [] es)
  | _ =>
      if _should_ignore root []
         || negb (_match_filters [] includes excludes)
      then Some [] else None
  end.

End Walker.

(** ** Entries *)

Inductive kind : Type := folder | pdf | img.

#[global] Instance kind_eq_dec : EqDecision kind.
Proof. solve_decision. Defined.

(** The dictionaries [build_tree_description] produces and [merge]
    updates. A key a dictionary may lack is an [option] ([label], [pages],
    [page]; [title] for files); [only_images] is only ever stored as
    [True], so [false] is the absent key; [labels] is read from folder
    entries only and is empty on files. *)
Record Item : Type := mkItem {
  type : kind;
  path : Path;
  title : option string;
  labels : gmap string string;
  label : option string;
  only_images : bool;
  pages : option nat;
  page : option nat
}.

Definition set_pages (n : nat) (x : Item) : Item :=
  mkItem (type x) (path x) (title x) (labels x) (label x) (only_images x)
         (Some n) (page x).

Definition set_page (n : nat) (x : Item) : Item :=
  mkItem (type x) (path x) (title x) (labels x) (label x) (only_images x)
         (pages x) (Some n).

(** [item.get("pages", 0)] *)
Definition get_pages (x : Item) : nat := default 0 (pages x).

(** [line.split("=", 1)] when the line holds an equals sign *)
Fixpoint split_eq (s : string) : option (string * string) :=
  match s with
  | EmptyString => None
  | String c s' =>
      if (nat_of_ascii c =? 61)%nat then Some (EmptyString, s')
      else match split_eq s' with
           | Some (k, v) => Some (String c k, v)
           | None => None
           end
  end.

(** [_resolve_title]; [es] is the listing of the folder [p] *)
Definition _resolve_title (p : Path) (es : list (string * node)) : string :=
  match FS.entry ".title" es with
  | Some dot_title =>
      match FS.read_text (Some dot_title) with
      | Some t => Str.strip t
      | None => PurePath.name p
      end
  | None => PurePath.name p
  end.

(** [_resolve_labels] *)
Definition _resolve_labels (es : list (string * node)) : gmap string string :=
  match FS.entry ".label" es with
  | Some dot_label =>
      match FS.read_text (Some dot_label) with
      | Some t =>
          foldl (fun m line =>
                   match split_eq line with
                   | Some (k, v) => <[Str.strip k := Str.strip v]> m
                   | None => m
                   end)
                ∅ (Str.splitlines t)
      | None => ∅
      end
  | None => ∅
  end.

(** [_describe_folder] *)
Definition _describe_folder (p : Path) (es : list (string * node)) : Item :=
  let has_pdf :=
    existsb (fun e => _is_pdf (PurePath.child p (fst e)))
            (List.filter (fun e => FS.is_file (snd e)) es) in
  let has_img :=
    existsb (fun e => _is_img (PurePath.child p (fst e)))
            (List.filter (fun e => FS.is_file (snd e)) es) in
  mkItem folder p (Some (_resolve_title p es)) (_resolve_labels es) None
         (has_img && negb has_pdf) None None.

(** [_describe_file]; a label is attached when the folder's map holds a
    non-empty one for the file's name *)
Definition _describe_file (p : Path) (fld : Item) : option Item :=
  let lbl :=
    match labels fld !! PurePath.name p with
    | Some l => if String.eqb l "" then None else Some l
    | None => None
    end in
  if _is_pdf p then Some (mkItem pdf p None ∅ lbl false None None)
  else if _is_img p then Some (mkItem img p None ∅ lbl false None None)
  else None.

(** the first loop of [build_tree_description] *)
Definition describe_folders (fs : node) (files : list Path) : gmap Path Item :=
  foldl (fun m p =>
           match FS.lookup fs p with
           | Some (Dir es) => <[p := _describe_folder p es]> m
           | _ => m
           end)
        ∅ files.

(** the second loop; [None] is the [KeyError] of [folders[path.parent]] *)
Fixpoint describe_entries (fs : node) (folders : gmap Path Item)
         (files : list Path) : option (list Item) :=
  match files with
  | [] => Some []
  | p :: files' =>
      match FS.lookup fs p with
      | Some (Dir _) =>
          d ← folders !! p;
          rest ← describe_entries fs folders files';
          Some (d :: rest)
      | _ =>
          fld ← folders !! PurePath.parent p;
          rest ← describe_entries fs folders files';
          Some (match _describe_file p fld with
                | Some d => d :: rest
                | None => rest
                end)
      end
  end.

(** [build_tree_description] *)
Definition build_tree_description (fs : node) (files : list Path)
  : option (list Item) :=
  describe_entries fs (describe_folders fs files) files.

(** ** merger.py *)

(** An outline item as the writer keeps it; [o_parent] is the position of
    the parent item in the writer's outline, [None] at top level. *)
Record OutlineItem : Type := mkOutline {
  o_title : string;
  o_page_number : nat;
  o_parent : option nat
}.

(** The state of a [PdfWriter] the program can observe: the pages added
    so far, each named by the content unit it came from and its position
    there, and the outline items in creation order. *)
Record PdfWriter : Type := mkWriter {
  w_pages : list (Path * nat);
  w_outline : list OutlineItem
}.

(** The lines on the console. Every call of [console.print] in
    [merger.py] (lines 88, 108, 118 and 138, each in an exception handler)
    passes [file=sys.stderr], a keyword [Console.print] does not take: the
    call raises [TypeError] before a line is printed, and nothing catches
    it. So a failure of the reader, of the converter or of the outline
    writer ends [merge] with that exception, and the console stays as
    [merge] received it. *)
Abbreviation Console := (list string).

(** [_prettify_label] *)
Definition _prettify_label (l : string) : string :=
  Str.capitalize (Str.strip (Str.replace_underscores l)).

(** [_assign_folder_page_indices]: the entries are visited last to
    first; the result is the value of [last_valid_page] after the visit
    and the entries as updated. *)
Fixpoint assign_from_end (tree : list Item) : nat * list Item :=
  match tree with
  | [] => (0, [])
  | item :: rest =>
      let '(last_valid_page, rest') := assign_from_end rest in
      match page item with
      | Some p =>
          if (0 <? get_pages item)%nat then (p, item :: rest')
          else if bool_decide (type item = folder)
               then (last_valid_page, set_page last_valid_page item :: rest')
               else (last_valid_page, item :: rest')
      | None =>
          if bool_decide (type item = folder)
          then (last_valid_page, set_page last_valid_page item :: rest')
          else (last_valid_page, item :: rest')
      end
  end.

Definition _assign_folder_page_indices (tree : list Item) : list Item :=
  snd (assign_from_end tree).

(** [{x["path"]: x for x in tree if x["type"] == "folder"}] *)
Definition folders_of (tree : list Item) : gmap Path Item :=
  foldl (fun m x => if bool_decide (type x = folder) then <[path x := x]> m
                    else m)
        ∅ tree.

(** the local state of [merge], and the console it was given *)
Record MergeState : Type := mkState {
  writer : PdfWriter;
  tempfiles : list Path;
  parents : gmap Path (option nat);
  page_index : nat;
  console : Console
}.

Section Merger.

(** [len(PdfReader(p).pages)], or [None] when the reader raises. The
    snapshot does not change during a run, so the reader answers alike in
    [_update_files_page_count] and in [_insert_into_pdf]; a reader that
    opens a file hands over all its pages. *)
Variable read_pdf : Path -> option nat.
(** [_convert_img_to_pdf] followed by reading the temporary file: its
    path and page count, or [None] when either raises *)
Variable convert_img : Path -> option string -> nat -> option (Path * nat).
(** whether [writer.add_outline_item] raises on this request *)
Variable outline_raises : PdfWriter -> string -> nat -> option nat -> bool.

(** [_update_files_page_count]. [None] is the [TypeError] of line 88:
    when the reader raises on a PDF, the handler calls [console.print]
    with [file=sys.stderr] and never reaches [item["pages"] = 0]. An
    image gets one page without being opened. *)
Fixpoint _update_files_page_count (tree : list Item) : option (list Item) :=
  match tree with
  | [] => Some []
  | item :: rest =>
      match type item with
      | folder =>
          rest' ← _update_files_page_count rest;
          Some (item :: rest')
      | pdf =>
          n ← read_pdf (path item);
          rest' ← _update_files_page_count rest;
          Some (set_pages n item :: rest')
      | img =>
          rest' ← _update_files_page_count rest;
          Some (set_pages 1 item :: rest')
      end
  end.

(** the pages a content unit of [n] pages contributes *)
Definition pages_of (p : Path) (n : nat) : list (Path * nat) :=
  map (fun k => (p, k)) (seq 0 n).

(** [_insert_into_pdf]: the writer, and the temporary file if one is
    returned. [None] is the [TypeError] of line 108 or 118: when the
    reader or the converter raises, the handler calls [console.print]
    with [file=sys.stderr]. *)
Definition _insert_into_pdf (w : PdfWriter) (item : Item)
           (page_size : option string) (dpi : nat)
  : option (PdfWriter * option Path) :=
  match type item with
  | pdf =>
      n ← read_pdf (path item);
      Some (mkWriter (w_pages w ++ pages_of (path item) n) (w_outline w),
            None)
  | img =>
      r ← convert_img (path item) page_size dpi;
      Some (mkWriter (w_pages w ++ pages_of (path item) (snd r))
                     (w_outline w),
            Some (fst r))
  | folder => Some (w, None)
  end.

(** [_add_outline]: the writer, and the reference to the new outline
    item if one was made. [None] is the [TypeError] of line 138: when
    [writer.add_outline_item] raises, the handler calls [console.print]
    with [file=sys.stderr]. *)
Definition _add_outline (w : PdfWriter) (item : Item) (parent : option nat)
           (pretty_labels : bool)
  : option (PdfWriter * option nat) :=
  match page item with
  | None => Some (w, None)
  | Some pg =>
      if negb (bool_decide (type item = folder))
         && (get_pages item =? 0)%nat
      then Some (w, None)
      else
        let lbl := default (PurePath.stem (path item)) (label item) in
        let lbl := if pretty_labels && negb (bool_decide (is_Some (label item)))
                   then _prettify_label lbl else lbl in
        if outline_raises w lbl pg parent
        then None
        else Some (mkWriter (w_pages w)
                            (w_outline w ++ [mkOutline lbl pg parent]),
                   Some (List.length (w_outline w)))
  end.

Variable folders : gmap Path Item.
Variable pretty_labels : bool.
Variable page_size : option string.
Variable dpi : nat.

(** one turn of the loop of [merge], lines 38 to 55: the state after
    it and the entry as updated. [None] is an exception: the [TypeError]
    of a helper, or the [KeyError] of [folders[item["path"].parent]]. *)
Definition merge_item (st : MergeState) (item : Item)
  : option (MergeState * Item) :=
  r ← _insert_into_pdf (writer st) item page_size dpi;
  let w := fst r in
  let tfs := match snd r with
             | Some t => tempfiles st ++ [t]
             | None => tempfiles st
             end in
  let num_pages := get_pages item in
  let item' := set_page (page_index st) item in
  let page_index' := page_index st + num_pages in
  match type item with
  | img =>
      fld ← folders !! PurePath.parent (path item);
      if only_images fld
      then Some (mkState w tfs (parents st) page_index' (console st), item')
      else
        a ← _add_outline w item'
                         (default None (parents st !! PurePath.parent (path item)))
                         pretty_labels;
        Some (mkState (fst a) tfs (parents st) page_index' (console st), item')
  | _ =>
      a ← _add_outline w item'
                       (default None (parents st !! PurePath.parent (path item)))
                       pretty_labels;
      let ps := if bool_decide (type item = folder)
                then <[path item := snd a]> (parents st)
                else parents st in
      Some (mkState (fst a) tfs ps page_index' (console st), item')
  end.

(** the loop of [merge] *)
Fixpoint merge_loop (st : MergeState) (tree : list Item)
  : option (MergeState * list Item) :=
  match tree with
  | [] => Some (st, [])
  | item :: rest =>
      r ← merge_item st item;
      r' ← merge_loop (fst r) rest;
      Some (fst r', snd r :: snd r')
  end.

End Merger.

Section Merge.

Variable read_pdf : Path -> option nat.
Variable convert_img : Path -> option string -> nat -> option (Path * nat).
Variable outline_raises : PdfWriter -> string -> nat -> option nat -> bool.

(** [merge]: the final state of the call (its writer and temporary
    files are what the function returns) and the entries as the call
    leaves them; [None] when the call raises *)
Definition merge (tree : list Item) (out : Console)
           (pretty_labels : bool) (page_size : option string) (dpi : nat)
  : option (MergeState * list Item) :=
  tree1 ← _update_files_page_count read_pdf tree;
  let tree2 := _assign_folder_page_indices tree1 in
  merge_loop read_pdf convert_img outline_raises
             (folders_of tree2) pretty_labels page_size dpi
             (mkState (mkWriter [] []) [] ∅ 0 out) tree2.

End Merge.

(** * Specification-side definitions *)

(** the value of the page cursor in front of each entry, for the page
    counts of the entries in emission order *)
Fixpoint cursor_before (cursor : nat) (counts : list nat) : list nat :=
  match counts with
  | [] => []
  | n :: counts' => cursor :: cursor_before (cursor + n) counts'
  end.

(** what an entry adds to the cursor according to the specification: its
    page count for a content unit, nothing for a folder *)
Definition advance (x : Item) : nat :=
  match type x with
  | folder => 0
  | _ => get_pages x
  end.

(** the start page of the nearest entry of [rest] with a positive page
    count, and [final] when there is none *)
Fixpoint next_content_page (rest : list Item) (final : nat) : nat :=
  match rest with
  | [] => final
  | y :: rest' =>
      if (0 <? get_pages y)%nat then default 0 (page y)
      else next_content_page rest' final
  end.

(** every image entry has a folder entry for its parent directory *)
Definition parents_present (tree : list Item) : Prop :=
  Forall (fun x => type x = img ->
                   Exists (fun f => type f = folder
                                    /\ path f = PurePath.parent (path x)) tree)
         tree.

(** the entries as the describer makes them: no page count and no start
    page yet *)
Definition fresh (tree : list Item) : Prop :=
  Forall (fun x => pages x = None /\ page x = None) tree.

(** the entries with the start pages the loop of [merge] gives them *)
Fixpoint number_from (cursor : nat) (tree : list Item) : list Item :=
  match tree with
  | [] => []
  | x :: rest => set_page cursor x :: number_from (cursor + get_pages x) rest
  end.

(** the entry as [_update_files_page_count] leaves it when it returns;
    for a PDF the reader cannot open, where the function raises, 0 stands
    in for the page count *)
Definition count_pages (read_pdf : Path -> option nat) (x : Item) : Item :=
  match type x with
  | folder => x
  | pdf => set_pages (default 0 (read_pdf (path x))) x
  | img => set_pages 1 x
  end.

(** the pages [_insert_into_pdf] adds to the writer for an entry when it
    returns; none stand in where it raises *)
Definition inserted (read_pdf : Path -> option nat)
           (convert_img : Path -> option string -> nat -> option (Path * nat))
           (page_size : option string) (dpi : nat) (x : Item)
  : list (Path * nat) :=
  match type x with
  | pdf => pages_of (path x) (default 0 (read_pdf (path x)))
  | img => pages_of (path x)
                    (default 0 (snd <$> convert_img (path x) page_size dpi))
  | folder => []
  end.

(** the reader opens every PDF entry and the converter converts every
    image entry *)
Definition content_readable (read_pdf : Path -> option nat)
           (convert_img : Path -> option string -> nat -> option (Path * nat))
           (page_size : option string) (dpi : nat) (tree : list Item) : Prop :=
  Forall (fun x => (type x = pdf -> is_Some (read_pdf (path x)))
                   /\ (type x = img ->
                       is_Some (convert_img (path x) page_size dpi)))
         tree.

(** the title of the outline item of an entry: its label, and without
    one the stem of its path, prettified on request *)
Definition outline_label (pretty_labels : bool) (x : Item) : string :=
  match label x with
  | Some l => l
  | None => if pretty_labels then _prettify_label (PurePath.stem (path x))
            else PurePath.stem (path x)
  end.

(** whether an entry gets an outline item: not a content unit without
    pages, and not an image in a folder marked [only_images] *)
Definition bookmarked (folders : gmap Path Item) (x : Item) : bool :=
  match type x with
  | folder => true
  | pdf => negb (get_pages x =? 0)%nat
  | img =>
      negb (get_pages x =? 0)%nat
      && negb (default false
                 (only_images <$> folders !! PurePath.parent (path x)))
  end.

(** the title and the target page of an outline item *)
Definition title_page (o : OutlineItem) : string * nat :=
  (o_title o, o_page_number o).

(** the calls of [main], lines 77 to 80: selection, description and
    assembly; [None] when one of them raises *)
Definition compile {Pattern : Type}
           (re_search : Pattern -> string -> bool) (hash : string -> Z)
           (read_pdf : Path -> option nat)
           (convert_img : Path -> option string -> nat -> option (Path * nat))
           (outline_raises : PdfWriter -> string -> nat -> option nat -> bool)
           (fs : node) (root : Path) (includes excludes : list Pattern)
           (pretty_labels : bool) (page_size : option string) (dpi : nat)
  : option (MergeState * list Item) :=
  files ← select_paths re_search hash includes excludes fs root;
  tree ← build_tree_description fs files;
  merge read_pdf convert_img outline_raises tree [] pretty_labels page_size dpi.

(** an entry with its [title] removed *)
Definition untitled (x : Item) : Item :=
  mkItem (type x) (path x) None (labels x) (label x) (only_images x)
         (pages x) (page x).

(** the names of the children of a folder in the default order, the
    one of line 29: all of them, and those the loop visits *)
Definition default_order (es : list (string * node)) : list string :=
  map fst (sort_by (fun e => Str.lower (fst e)) String.ltb es).

Definition default_visited (current_path : Path) (es : list (string * node))
  : list string :=
  map fst (List.filter (visited current_path)
                       (sort_by (fun e => Str.lower (fst e)) String.ltb es)).

(** no folder of the tree holds an order file *)
Fixpoint no_order_file (n : node) : Prop :=
  match n with
  | File _ => True
  | Dir es =>
      FS.entry ".order" es = None
      /\ foldr (fun e acc => no_order_file (snd e) /\ acc) True es
  end.

(** what the describer needs of a selected path: it is a directory, or
    it is a PDF or an image file whose folder is selected too *)
Definition describable (fs : node) (sel : list Path) (q : Path) : Prop :=
  (exists es, FS.lookup fs q = Some (Dir es))
  \/ ((exists t, FS.lookup fs q = Some (File t))
      /\ (_is_pdf q || _is_img q = true)
      /\ PurePath.parent q ∈ sel
      /\ exists es, FS.lookup fs (PurePath.parent q) = Some (Dir es)).

(** the snapshot in which every title file holds the text that [t] gives
    for its folder; [p] is the path of [n] *)
Fixpoint retitle (t : Path -> option string) (p : Path) (n : node) : node :=
  match n with
  | File _ => n
  | Dir es =>
      Dir (map (fun e =>
                  (fst e,
                   match snd e with
                   | File _ =>
                       if String.eqb (fst e) ".title" then File (t p)
                       else snd e
                   | Dir _ => retitle t (p ++ [fst e]) (snd e)
                   end))
               es)
  end.

(** the entries of a directory *)
Definition entries_of (n : node) : list (string * node) :=
  match n with
  | Dir es => es
  | File _ => []
  end.

(** [with_order_file n n']: the tree [n'] is the tree [n] with an order
    file added to one of its folders, the root or a folder below it. The
    lines of the text [t] of that file are the names of the children of
    the folder in the default order, either of all children or of those
    the loop visits; none of these lines is empty or has white space at an
    end, so that the file is read as it is written. Names are not repeated
    within a folder. *)
Inductive with_order_file : node -> node -> Prop :=
| order_file_here es1 es2 t :
    NoDup (map fst (es1 ++ es2)) ->
    FS.entry ".order" (es1 ++ es2) = None ->
    Str.splitlines t = default_order (es1 ++ es2)
    \/ Str.splitlines t = default_visited [] (es1 ++ es2) ->
    Forall (fun l => l <> "" /\ Str.strip l = l) (Str.splitlines t) ->
    with_order_file (Dir (es1 ++ es2))
                    (Dir (es1 ++ (".order", File (Some t)) :: es2))
| order_file_below es1 nm n n' es2 :
    NoDup (map fst (es1 ++ (nm, n) :: es2)) ->
    with_order_file n n' ->
    with_order_file (Dir (es1 ++ (nm, n) :: es2))
                    (Dir (es1 ++ (nm, n') :: es2)).

(** [d] and the selected paths below it form one block of [sel], with [d]
    in front *)
Definition block (d : Path) (sel : list Path) : Prop :=
  exists pre sub post,
    sel = pre ++ d :: sub ++ post
    /\ Forall (fun q => d `prefix_of` q /\ q <> d) sub
    /\ Forall (fun q => ~ d `prefix_of` q) (pre ++ post).

(** a pre-order sequence: every path is followed at once by all the
    paths below it, and by them only *)
Definition preorder (sel : list Path) : Prop :=
  forall d, d ∈ sel -> block d sel.

(** the type and the path of an entry *)
Definition key_of (x : Item) : kind * Path := (type x, path x).

(** ** Concrete collaborators, snapshots and entry sequences *)

Module Sample.

(** [re.search] for patterns without metacharacters: a substring test *)
Definition re_search (pat s : string) : bool :=
  match String.index 0 pat s with Some _ => true | None => false end.

(** a hash that sends every string to one value *)
Definition hash_const (v : Z) (s : string) : Z := v.

(** a hash given by a table, 0 off the table *)
Fixpoint hash_of (table : list (string * Z)) (s : string) : Z :=
  match table with
  | [] => 0%Z
  | (k, v) :: table' => if String.eqb k s then v else hash_of table' s
  end.

(** a reader that finds three pages in every PDF, a converter that makes
    one page of every image, a writer that accepts every outline item *)
Definition read_pdf (p : Path) : option nat := Some 3.
Definition convert_img (p : Path) (page_size : option string) (dpi : nat)
  : option (Path * nat) := Some (["tmp"; PurePath.name p], 1).
Definition outline_raises (w : PdfWriter) (t : string) (pg : nat)
           (parent : option nat) : bool := false.

(** a reader that finds two pages in every PDF, a converter that fails
    on every image *)
Definition read_pdf2 (p : Path) : option nat := Some 2.
Definition convert_fails (p : Path) (page_size : option string) (dpi : nat)
  : option (Path * nat) := None.

(** a text file with the given lines *)
Definition text (lines : list string) : node :=
  File (Some (String.concat (String (ascii_of_nat 10) EmptyString) lines)).

(** a folder with the children [a], [b], [c], [d] and an order file
    that lists [b], then [a] *)
Definition hinted : node :=
  Dir [ ("a", Dir []); ("b", Dir []); ("c", Dir []); ("d", Dir []);
        (".order", text ["b"; "a"]) ].

(** the same with the children [a], [b], [c] only *)
Definition hinted3 : node :=
  Dir [ ("a", Dir []); ("b", Dir []); ("c", Dir []);
        (".order", text ["b"; "a"]) ].

(** a tree with two folders, files in both, and a file beside them *)
Definition library : node :=
  Dir [ ("b", Dir [("n.pdf", File None); ("m.png", File None)]);
        ("a", Dir [("k.pdf", File None); ("sub", Dir [("j.pdf", File None)])]);
        ("z.pdf", File None) ].

(** the children of a folder, and an order file that lists the visited
    ones in the default order *)
Definition shelf : list (string * node) :=
  [ ("Zeta.pdf", File None); ("alpha", Dir [("p.png", File None)]);
    ("notes.txt", File None); ("Beta.PNG", File None) ].
Definition shelf_order : node := text ["alpha"; "Beta.PNG"; "Zeta.pdf"].

(** a tree with that folder under the name [docs], without and with
    the order file *)
Definition shelved : node :=
  Dir [("docs", Dir shelf); ("a.pdf", File None)].
Definition shelved_ordered : node :=
  Dir [ ("docs", Dir (shelf ++ [(".order", shelf_order)]));
        ("a.pdf", File None) ].

(** a tree with title files in two folders *)
Definition titled_tree : node :=
  Dir [ ("docs",
         Dir [ (".title", File (Some "Documents")); ("a.pdf", File None);
               ("sub_dir",
                Dir [ (".title", File (Some "Part two"));
                      ("b.pdf", File None) ]) ]) ].

(** a folder [album] that holds two images and no PDF *)
Definition photos : node :=
  Dir [("album", Dir [("x.jpg", File None); ("y.png", File None)])].

(** a folder [r] that holds a PDF and an image *)
Definition mixed : node :=
  Dir [("r", Dir [("a.pdf", File None); ("b.png", File None)])].

(** an entry as the describer makes it for a file *)
Definition entry (k : kind) (p : Path) : Item :=
  mkItem k p None ∅ None false None None.

(** a folder, a PDF of three pages, a folder, an image *)
Definition tree : list Item :=
  [ entry folder ["r"]; entry pdf ["r"; "a.pdf"];
    entry folder ["r"; "s"]; entry img ["r"; "s"; "i.png"] ].

(** a folder, a PDF, a folder that holds nothing, a folder with a PDF,
    and a last folder that holds nothing *)
Definition shelves : list Item :=
  [ entry folder ["r"]; entry pdf ["r"; "a.pdf"];
    entry folder ["r"; "e"];
    entry folder ["r"; "g"]; entry pdf ["r"; "g"; "f.pdf"];
    entry folder ["r"; "z"] ].

(** a folder one of whose children has a name that starts with a space,
    and an order file that lists the children in the default order *)
Definition spaced : list (string * node) :=
  [ (" x.pdf", File None); ("a.pdf", File None) ].
Definition spaced_order : node := text [" x.pdf"; "a.pdf"].

(** a folder whose name has a dot *)
Definition dotted : node :=
  Dir [("v1.2_notes", Dir [("a.pdf", File None)])].

(** the entry of the folder [album], the entry of its first image, and
    the state of the loop of [merge] after the turn on the folder *)
Definition album : Item :=
  mkItem folder ["album"] (Some "album") ∅ None true None (Some 0).
Definition album_x : Item := entry img ["album"; "x.jpg"].
Definition after_album : MergeState :=
  mkState (mkWriter [] [mkOutline "album" 0 None]) []
          {[ ["album"] := Some 0 ]} 0 [].

(** two folders with a PDF each, titled one way and another *)
Definition titled (t1 t2 : string) : list Item :=
  [ mkItem folder ["r"] (Some t1) ∅ None false None None;
    entry pdf ["r"; "a.pdf"];
    mkItem folder ["r"; "s_t"] (Some t2) ∅ None false None None;
    entry pdf ["r"; "s_t"; "b.pdf"] ].

End Sample.


(** ** Further specification-side definitions *)

(** [path.is_dir()] in the snapshot *)
Definition is_dir_at (fs : node) (p : Path) : bool :=
  match FS.lookup fs p with
  | Some (Dir _) => true
  | _ => false
  end.

(** the entry of one path made from the snapshot alone: the description
    of a folder, and for a file what the description of its folder makes
    of it *)
Definition describe_path (fs : node) (p : Path) : option Item :=
  match FS.lookup fs p with
  | Some (Dir es) => Some (_describe_folder p es)
  | _ =>
      match FS.lookup fs (PurePath.parent p) with
      | Some (Dir es) =>
          _describe_file p (_describe_folder (PurePath.parent p) es)
      | _ => None
      end
  end.

(** the type of the entry of a selected path *)
Definition kind_at (fs : node) (p : Path) : kind :=
  if is_dir_at fs p then folder else if _is_pdf p then pdf else img.

(** the temporary file [_insert_into_pdf] returns for an entry *)
Definition temp_of
           (convert_img : Path -> option string -> nat -> option (Path * nat))
           (page_size : option string) (dpi : nat) (x : Item) : option Path :=
  match type x with
  | img => fst <$> convert_img (path x) page_size dpi
  | _ => None
  end.

(** the position of the last folder entry of [earlier] with the path
    [p]; positions are counted from [i] *)
Fixpoint last_folder (i : nat) (p : Path) (earlier : list Item)
  : option nat :=
  match earlier with
  | [] => None
  | x :: rest =>
      match last_folder (S i) p rest with
      | Some n => Some n
      | None =>
          if bool_decide (type x = folder /\ path x = p) then Some i
          else None
      end
  end.

(** the outline of the bookmarked entries [bs] that come after the
    bookmarked entries [earlier]: an item per entry, titled by its label,
    at its start page, under the item of the last folder entry before it
    whose path is the parent of its own *)
Fixpoint outline_from (pretty_labels : bool) (earlier bs : list Item)
  : list OutlineItem :=
  match bs with
  | [] => []
  | x :: bs' =>
      mkOutline (outline_label pretty_labels x) (default 0 (page x))
                (last_folder 0 (PurePath.parent (path x)) earlier)
      :: outline_from pretty_labels (earlier ++ [x]) bs'
  end.

(** the start page of the first entry of [rest] that has a start page
    and a positive page count; 0 when there is none *)
Fixpoint next_valid_page (rest : list Item) : nat :=
  match rest with
  | [] => 0
  | y :: rest' =>
      match page y with
      | Some p => if (0 <? get_pages y)%nat then p else next_valid_page rest'
      | None => next_valid_page rest'
      end
  end.

(** the outline and the parent map of a state are in order: a recorded
    parent is an item of the outline, the parent of an item stands before
    it, no item points beyond the cursor, and the targets do not
    decrease along the outline *)
Definition outline_ok (st : MergeState) : Prop :=
  (forall p n, parents st !! p = Some (Some n) ->
               n < List.length (w_outline (writer st)))
  /\ (forall i o n, w_outline (writer st) !! i = Some o ->
                    o_parent o = Some n -> n < i)
  /\ (forall i o, w_outline (writer st) !! i = Some o ->
                  o_page_number o <= page_index st)
  /\ (forall i j o o', i <= j ->
                       w_outline (writer st) !! i = Some o ->
                       w_outline (writer st) !! j = Some o' ->
                       o_page_number o <= o_page_number o').

(** ** Further concrete snapshots *)

Module Sample2.

(** a tree with a folder that is kept and a folder marked as ignored,
    which has a folder of its own *)
Definition with_ignored : node :=
  Dir [ ("keep", Dir [("a.pdf", File None)]);
        ("skip", Dir [ (".ignore", File None); ("b.pdf", File None);
                       ("deep", Dir [("c.pdf", File None)]) ]) ].

(** the lines of a label file: the key [a.pdf] twice, a value with an
    equals sign of its own, a line without one *)
Definition label_lines : list string :=
  ["a.pdf = First"; "b.pdf=x=y"; "no label here"; " a.pdf=Second "].

(** a folder with that label file *)
Definition labelled : list (string * node) :=
  [ (".label", Sample.text label_lines); ("a.pdf", File None);
    ("b.pdf", File None) ].

(** the outcome of [merge] on [Sample.tree] with the collaborators of
    [Sample]: its final state and the entries it leaves *)
Definition merged : option (MergeState * list Item) :=
  merge Sample.read_pdf Sample.convert_img Sample.outline_raises
        Sample.tree [] false None 150.
Definition merged_state : MergeState :=
  default (mkState (mkWriter [] []) [] ∅ 0 []) (fst <$> merged).
Definition merged_tree : list Item := default [] (snd <$> merged).

(** a reader that fails on every PDF *)
Definition read_fails (p : Path) : option nat := None.

(** entries with start pages and page counts, as a second run of the
    pass over the folders would find them *)
Definition numbered : list Item :=
  [ mkItem folder ["r"] None ∅ None false None None;
    mkItem folder ["r"; "s"] None ∅ None false None (Some 9);
    mkItem pdf ["r"; "s"; "e.pdf"] None ∅ None false (Some 0) (Some 4);
    mkItem pdf ["r"; "s"; "f.pdf"] None ∅ None false (Some 2) (Some 5) ].

(** the outcome of a whole run on [Sample.library] *)
Definition run : option (MergeState * list Item) :=
  compile Sample.re_search (Sample.hash_const 0) Sample.read_pdf
          Sample.convert_img Sample.outline_raises
          Sample.library [] [] [] false None 150.
Definition run_state : MergeState :=
  default (mkState (mkWriter [] []) [] ∅ 0 []) (fst <$> run).
Definition run_tree : list Item := default [] (snd <$> run).

End Sample2.

(** * Facts about the stable sort *)

Lemma Forall_filter_bool {A} (Q : A -> Prop) (P : A -> bool) l :
  Forall Q l -> Forall Q (List.filter P l).
Proof.
  induction 1 as [|z l Hz _ IH]; cbn; [constructor|].
  destruct (P z); [by constructor|done].
Qed.

Section SortFacts.

Context {A K : Type}.
Variable key : A -> K.
Variable ltb : K -> K -> bool.

Abbreviation ins := (insert_by key ltb).
Abbreviation srt := (sort_by key ltb).
Abbreviation kp := (keeps key ltb).

Lemma insert_by_perm x l : ins x l ≡ₚ x :: l.
Proof.
  induction l as [|y l IH]; cbn; [done|].
  destruct (ltb (key y) (key x)); [|done].
  rewrite IH. apply Permutation_swap.
Qed.

Lemma sort_by_perm l : srt l ≡ₚ l.
Proof.
  induction l as [|x l IH]; cbn; [done|].
  fold (srt l). by rewrite insert_by_perm, IH.
Qed.

Lemma sort_by_elem_of x l : x ∈ srt l <-> x ∈ l.
Proof. by rewrite sort_by_perm. Qed.

(** A function that keeps the keys commutes with sorting. *)
Lemma sort_by_map (h : A -> A) l :
  (forall x, key (h x) = key x) -> srt (map h l) = map h (srt l).
Proof.
  intros Hh. induction l as [|x l IH]; cbn; [done|].
  fold (srt l) (srt (map h l)). rewrite IH. clear IH.
  induction (srt l) as [|y l' IH]; cbn; [done|].
  rewrite !Hh. destruct (ltb (key y) (key x)); cbn; by rewrite ?IH.
Qed.

Lemma insert_by_front x l : Forall (kp x) l -> ins x l = x :: l.
Proof.
  destruct 1 as [|y l Hy _]; cbn; [done|].
  unfold keeps in Hy. by rewrite Hy.
Qed.

Lemma sort_by_sorted_id l : StronglySorted kp l -> srt l = l.
Proof.
  induction 1 as [|x l _ IH Hx]; cbn; [done|].
  fold (srt l). rewrite IH. by apply insert_by_front.
Qed.

Hypothesis ltb_asym : forall a b, ltb a b = true -> ltb b a = false.
Hypothesis ltb_negtrans :
    forall a b c, ltb a c = true -> ltb a b = true \/ ltb b c = true.

Lemma keeps_trans x y z : kp x y -> kp y z -> kp x z.
Proof.
  unfold keeps. intros Hxy Hyz.
  destruct (ltb (key z) (key x)) eqn:E; [|done].
  destruct (ltb_negtrans _ (key y) _ E); congruence.
Qed.

Lemma insert_by_sorted x l :
  StronglySorted kp l -> StronglySorted kp (ins x l).
Proof.
  induction 1 as [|y l Hl IH Hy]; cbn.
  - repeat constructor.
  - destruct (ltb (key y) (key x)) eqn:E.
    + constructor; [done|].
      rewrite insert_by_perm. constructor; [|done].
      by apply ltb_asym.
    + constructor; [by constructor|].
      constructor; [done|].
      eapply Forall_impl; [exact Hy|]. intros z Hz.
      by apply keeps_trans with y.
Qed.

Lemma sort_by_sorted l : StronglySorted kp (srt l).
Proof.
  induction l as [|x l IH]; cbn; [constructor|].
  by apply insert_by_sorted.
Qed.

(** Filtering commutes with inserting into a sorted list, *)
Lemma filter_insert_by (P : A -> bool) x l :
  StronglySorted kp l ->
  List.filter P (ins x l)
  = if P x then ins x (List.filter P l) else List.filter P l.
Proof.
  induction 1 as [|y l Hl IH Hy]; cbn.
  - by destruct (P x).
  - destruct (ltb (key y) (key x)) eqn:E; cbn.
    + rewrite IH. destruct (P y), (P x); cbn; by rewrite ?E.
    + destruct (P x); [|done].
      symmetry. apply insert_by_front.
      assert (Hall : Forall (kp x) (y :: l)).
      { constructor; [done|].
        eapply Forall_impl; [exact Hy|]. intros z Hz.
        by apply keeps_trans with y. }
      exact (Forall_filter_bool _ P (y :: l) Hall).
Qed.

(** and so with sorting: the sort is stable. *)
Lemma filter_sort_by (P : A -> bool) l :
  List.filter P (srt l) = srt (List.filter P l).
Proof.
  induction l as [|x l IH]; cbn; [done|].
  fold (srt l). rewrite filter_insert_by by apply sort_by_sorted.
  rewrite IH. by destruct (P x).
Qed.

End SortFacts.

Lemma Z_ltb_asym a b : Z.ltb a b = true -> Z.ltb b a = false.
Proof. lia. Qed.

Lemma Z_ltb_negtrans a b c :
  Z.ltb a c = true -> Z.ltb a b = true \/ Z.ltb b c = true.
Proof. destruct (Z.ltb a b) eqn:E; [by left|right]; lia. Qed.

Lemma string_ltb_lt a b : String.ltb a b = true <-> String_as_OT.lt a b.
Proof.
  unfold String.ltb, String_as_OT.lt.
  replace (String_as_OT.compare a b) with (String.compare a b).
  - destruct (String.compare a b); split; congruence.
  - revert b. induction a as [|c a IH]; intros [|c' b]; cbn; rewrite ?IH; done.
Qed.

Lemma string_ltb_asym a b : String.ltb a b = true -> String.ltb b a = false.
Proof.
  intros H. destruct (String.ltb b a) eqn:E; [|done].
  apply string_ltb_lt in H, E.
  destruct (StrictOrder_Irreflexive (R := String_as_OT.lt) a).
  by transitivity b.
Qed.

Lemma string_ltb_negtrans a b c :
  String.ltb a c = true -> String.ltb a b = true \/ String.ltb b c = true.
Proof.
  intros H. apply string_ltb_lt in H.
  destruct (String_as_OT.compare_spec a b) as [E|E|E].
  - right. apply string_ltb_lt. unfold String_as_OT.eq in E. by subst.
  - left. by apply string_ltb_lt.
  - right. apply string_ltb_lt. by transitivity a.
Qed.

(** * Facts about the merger *)

Section MergerFacts.

Variable read_pdf : Path -> option nat.
Variable convert_img : Path -> option string -> nat -> option (Path * nat).
Variable outline_raises : PdfWriter -> string -> nat -> option nat -> bool.

(** When [_update_files_page_count] returns, every entry has been
    counted. *)
Lemma update_files_page_count_map tree : forall tree1,
  _update_files_page_count read_pdf tree = Some tree1 ->
  tree1 = map (count_pages read_pdf) tree.
Proof.
  induction tree as [|x tree IH]; intros tree1;
    cbn [_update_files_page_count map].
  { by intros [= <-]. }
  unfold count_pages at 1. destruct (type x).
  - destruct (_update_files_page_count read_pdf tree) as [rest|]; cbn;
      [|done].
    intros [= <-]. by rewrite (IH rest eq_refl).
  - destruct (read_pdf (path x)) as [n|]; cbn; [|done].
    destruct (_update_files_page_count read_pdf tree) as [rest|]; cbn;
      [|done].
    intros [= <-]. by rewrite (IH rest eq_refl).
  - destruct (_update_files_page_count read_pdf tree) as [rest|]; cbn;
      [|done].
    intros [= <-]. by rewrite (IH rest eq_refl).
Qed.

(** It returns exactly when the reader opens every PDF entry. *)
Lemma update_files_page_count_Some tree :
  is_Some (_update_files_page_count read_pdf tree)
  <-> Forall (fun x => type x = pdf -> is_Some (read_pdf (path x))) tree.
Proof.
  induction tree as [|x tree IH]; cbn [_update_files_page_count].
  { split; [constructor|eauto]. }
  rewrite Forall_cons, <- IH. clear IH.
  destruct (type x) eqn:Hty.
  - destruct (_update_files_page_count read_pdf tree) as [rest|]; cbn.
    + split; [|eauto]. intros _. split; [done|eauto].
    + split; [by intros [? ?]|]. by intros [_ [? ?]].
  - destruct (read_pdf (path x)) as [n|]; cbn.
    + destruct (_update_files_page_count read_pdf tree) as [rest|]; cbn.
      * split; [|eauto]. intros _. split; eauto.
      * split; [by intros [? ?]|]. by intros [_ [? ?]].
    + split; [by intros [? ?]|]. intros [H _].
      destruct (H eq_refl) as [? ?]. done.
  - destruct (_update_files_page_count read_pdf tree) as [rest|]; cbn.
    + split; [|eauto]. intros _. split; [done|eauto].
    + split; [by intros [? ?]|]. by intros [_ [? ?]].
Qed.

Lemma set_page_set_page n m x : set_page n (set_page m x) = set_page n x.
Proof. done. Qed.

Lemma get_pages_set_page n x : get_pages (set_page n x) = get_pages x.
Proof. done. Qed.

(** The pass over the folders changes nothing but [page]. *)
Lemma assign_from_end_shape tree :
    Forall2 (fun x y => y = x \/ exists n, y = set_page n x)
            tree (snd (assign_from_end tree)).
Proof.
    induction tree as [|x tree IH]; cbn [assign_from_end]; [constructor|].
    destruct (assign_from_end tree) as [lvp rest'] eqn:E. cbn [snd] in IH.
    destruct (page x); repeat case_match; cbn [snd];
      constructor; eauto.
Qed.

(** The numbering of the loop overwrites what that pass wrote. *)
Lemma number_from_assign cursor tree :
    number_from cursor (_assign_folder_page_indices tree)
    = number_from cursor tree.
Proof.
    unfold _assign_folder_page_indices.
    pose proof (assign_from_end_shape tree) as H.
    revert cursor. induction H as [|x y l l' Hxy _ IH]; intros cursor; [done|].
    cbn [number_from]. rewrite IH.
    destruct Hxy as [->|[n ->]]; done.
Qed.

Lemma folders_of_lookup_Some tree p f :
    In f tree -> type f = folder -> path f = p ->
    is_Some (folders_of tree !! p).
Proof.
    unfold folders_of. intros Hin Hty Hp.
    assert (G : forall (m : gmap Path Item),
               (In f tree \/ is_Some (m !! p)) ->
               is_Some (foldl (fun m x => if bool_decide (type x = folder)
                                          then <[path x := x]> m else m)
                              m tree !! p)).
    { clear Hin. induction tree as [|x tree IH]; intros m [Hin|Hm]; cbn [foldl].
      - destruct Hin.
      - done.
      - apply IH. destruct Hin as [->|Hin]; [right|by left].
        rewrite bool_decide_eq_true_2 by done. rewrite Hp.
        rewrite lookup_insert_eq. eauto.
      - apply IH. right. case_bool_decide; [|done].
        destruct (decide (path x = p)) as [->|Hne].
        + rewrite lookup_insert_eq. eauto.
        + by rewrite lookup_insert_ne. }
    apply G. by left.
Qed.

Section Loop.

Variable folders : gmap Path Item.
Variable pretty_labels : bool.
Variable page_size : option string.
Variable dpi : nat.

Abbreviation step :=
    (merge_item read_pdf convert_img outline_raises
                folders pretty_labels page_size dpi).
Abbreviation loop :=
    (merge_loop read_pdf convert_img outline_raises
                folders pretty_labels page_size dpi).

(** One turn records the cursor in the entry and advances it. *)
Lemma merge_item_page st item st' item' :
  step st item = Some (st', item') ->
  item' = set_page (page_index st) item
  /\ page_index st' = page_index st + get_pages item
  /\ console st' = console st.
Proof.
  unfold merge_item.
  destruct (_insert_into_pdf _ _ _ _ _ _) as [[w tmp]|]; cbn -[_add_outline];
    [|done].
  destruct (type item); cbn -[_add_outline].
  - destruct (_add_outline _ _ _ _ _) as [[w' o]|]; cbn; [|done].
    by intros [= <- <-].
  - destruct (_add_outline _ _ _ _ _) as [[w' o]|]; cbn; [|done].
    by intros [= <- <-].
  - destruct (folders !! _) as [fld|]; cbn -[_add_outline]; [|done].
    destruct (only_images fld); [by intros [= <- <-]|].
    destruct (_add_outline _ _ _ _ _) as [[w' o]|]; cbn; [|done].
    by intros [= <- <-].
Qed.

(** [_insert_into_pdf] returns when the reader or the converter does. *)
Lemma insert_into_pdf_total w item :
  (type item = pdf -> is_Some (read_pdf (path item))) ->
  (type item = img -> is_Some (convert_img (path item) page_size dpi)) ->
  is_Some (_insert_into_pdf read_pdf convert_img w item page_size dpi).
Proof.
  intros Hp Hi. unfold _insert_into_pdf. destruct (type item).
  - eauto.
  - destruct (Hp eq_refl) as [n ->]. cbn. eauto.
  - destruct (Hi eq_refl) as [r ->]. cbn. eauto.
Qed.

(** [_add_outline] returns when the writer accepts the request. *)
Lemma add_outline_total w item parent :
  (forall w t pg parent, outline_raises w t pg parent = false) ->
  is_Some (_add_outline outline_raises w item parent pretty_labels).
Proof.
  intros Hok. unfold _add_outline. destruct (page item); [|eauto].
  destruct (negb _ && _); [eauto|]. rewrite Hok. eauto.
Qed.

(** With content that can be read and a writer that accepts every
    request, one turn fails only on an image whose parent has no
    entry. *)
Lemma merge_item_total st item :
  (forall w t pg parent, outline_raises w t pg parent = false) ->
  (type item = pdf -> is_Some (read_pdf (path item))) ->
  (type item = img -> is_Some (convert_img (path item) page_size dpi)) ->
  (type item = img -> is_Some (folders !! PurePath.parent (path item))) ->
  is_Some (step st item).
Proof.
  intros Hok Hp Hi H. unfold merge_item.
  destruct (insert_into_pdf_total (writer st) item Hp Hi) as [[w tmp] ->].
  cbn -[_add_outline].
  assert (Hadd : forall w0 it parent,
            is_Some (_add_outline outline_raises w0 it parent pretty_labels))
    by (intros; by apply add_outline_total).
  destruct (type item); cbn -[_add_outline].
  - destruct (Hadd w (set_page (page_index st) item)
                (default None (parents st !! PurePath.parent (path item))))
      as [[w' o] ->]. cbn. eauto.
  - destruct (Hadd w (set_page (page_index st) item)
                (default None (parents st !! PurePath.parent (path item))))
      as [[w' o] ->]. cbn. eauto.
  - destruct H as [fld ->]; [done|]. cbn -[_add_outline].
    destruct (only_images fld); [eauto|].
    destruct (Hadd w (set_page (page_index st) item)
                (default None (parents st !! PurePath.parent (path item))))
      as [[w' o] ->]. cbn. eauto.
Qed.

(** What a turn that returns tells of its entry. *)
Lemma merge_item_Some_readable st item r :
  step st item = Some r ->
  (type item = pdf -> is_Some (read_pdf (path item)))
  /\ (type item = img -> is_Some (convert_img (path item) page_size dpi))
  /\ (type item = img -> is_Some (folders !! PurePath.parent (path item))).
Proof.
  unfold merge_item, _insert_into_pdf.
  destruct (type item) eqn:Hty; cbn -[_add_outline].
  - intros _. split; [done|]. split; done.
  - destruct (read_pdf (path item)); cbn -[_add_outline]; [|done].
    intros _. split; [eauto|]. split; done.
  - destruct (convert_img _ _ _); cbn -[_add_outline]; [|done].
    destruct (folders !! _); cbn -[_add_outline]; [|done].
    intros _. split; [done|]. split; eauto.
Qed.

Lemma merge_loop_pages tree : forall st st' tree',
  loop st tree = Some (st', tree') ->
  tree' = number_from (page_index st) tree
  /\ page_index st' = page_index st + sum_list (map get_pages tree)
  /\ console st' = console st.
Proof.
  induction tree as [|x tree IH]; intros st st' tree'; cbn [merge_loop].
  - intros [= <- <-]. cbn. split; [done|]. split; [lia|done].
  - destruct (step st x) as [[st1 x']|] eqn:E1; cbn; [|done].
    destruct (loop st1 tree) as [[st2 rest']|] eqn:E2; cbn; [|done].
    intros [= <- <-].
    apply merge_item_page in E1 as (-> & Hpi & Hc).
    apply IH in E2 as (-> & Hpi2 & Hc2). rewrite Hpi in *.
    split; [done|]. split; [cbn; lia|congruence].
Qed.

Lemma merge_loop_total tree : forall st,
  (forall w t pg parent, outline_raises w t pg parent = false) ->
  content_readable read_pdf convert_img page_size dpi tree ->
  Forall (fun x => type x = img ->
                   is_Some (folders !! PurePath.parent (path x))) tree ->
  is_Some (loop st tree).
Proof.
  induction tree as [|x tree IH]; intros st Hok Hr H; cbn [merge_loop];
    [eauto|].
  apply Forall_cons in Hr as [[Hp Hi] Hr]. apply Forall_cons in H as [Hx H].
  destruct (merge_item_total st x Hok Hp Hi Hx) as [[st1 x'] ->]. cbn.
  destruct (IH st1 Hok Hr H) as [[st2 rest'] ->]. cbn. eauto.
Qed.

Lemma merge_loop_Some_readable tree : forall st r,
  loop st tree = Some r ->
  Forall (fun x => type x = img ->
                   is_Some (convert_img (path x) page_size dpi)) tree
  /\ Forall (fun x => type x = img ->
                      is_Some (folders !! PurePath.parent (path x))) tree.
Proof.
  induction tree as [|x tree IH]; intros st r; cbn [merge_loop].
  { intros _. split; constructor. }
  destruct (step st x) as [[st1 x']|] eqn:E1; cbn; [|done].
  destruct (loop st1 tree) as [[st2 rest']|] eqn:E2; cbn; [|done].
  intros _. apply merge_item_Some_readable in E1 as (_ & Hi & Hf).
  destruct (IH _ _ E2) as [H1 H2]. split; by constructor.
Qed.

End Loop.

Lemma key_of_count_pages x : key_of (count_pages read_pdf x) = key_of x.
Proof. unfold count_pages. by destruct x as [[] ? ? ? ? ? ? ?]. Qed.

Lemma assign_keys tree :
    map key_of (_assign_folder_page_indices tree) = map key_of tree.
Proof.
    unfold _assign_folder_page_indices.
    induction (assign_from_end_shape tree) as [|x y l l' Hxy _ IH]; [done|].
    cbn [map]. rewrite IH. by destruct Hxy as [->|[n ->]].
Qed.

Lemma assign_get_pages tree :
    map get_pages (_assign_folder_page_indices tree) = map get_pages tree.
Proof.
    unfold _assign_folder_page_indices.
    induction (assign_from_end_shape tree) as [|x y l l' Hxy _ IH]; [done|].
    cbn [map]. rewrite IH. by destruct Hxy as [->|[n ->]].
Qed.

Lemma parents_present_keys tree :
    parents_present tree <->
    Forall (fun k => fst k = img ->
                     In (folder, PurePath.parent (snd k)) (map key_of tree))
           (map key_of tree).
Proof.
    unfold parents_present. rewrite Forall_map.
    apply Forall_iff. intros x. cbn.
    split; intros H Hx; specialize (H Hx).
    - apply Exists_exists in H as (f & Hf & Hty & Hp).
      apply in_map_iff. exists f. split; [|by apply list_elem_of_In].
      unfold key_of. by rewrite Hty, Hp.
    - apply in_map_iff in H as (f & Hk & Hf).
      apply Exists_exists. exists f. split; [by apply list_elem_of_In|].
      unfold key_of in Hk. by inversion Hk.
Qed.

Lemma parents_present_lookup tree :
    parents_present tree ->
    Forall (fun x => type x = img ->
                     is_Some (folders_of tree !! PurePath.parent (path x)))
           tree.
Proof.
    unfold parents_present. intros Hall.
    eapply Forall_impl; [exact Hall|]. intros x H Hx. cbn in H.
    destruct (proj1 (Exists_exists _ _) (H Hx)) as (f & Hf & Hty & Hp).
    eapply folders_of_lookup_Some; eauto. by apply list_elem_of_In.
Qed.

(** the entries [merge] hands to its loop *)
Lemma merge_prepared_keys tree :
    map key_of (_assign_folder_page_indices (map (count_pages read_pdf) tree))
    = map key_of tree.
Proof.
    rewrite assign_keys, map_map. apply map_ext, key_of_count_pages.
Qed.

(** Readability is a matter of the types and paths of the entries. *)
Lemma content_readable_keys page_size dpi (l l' : list Item) :
  map key_of l = map key_of l' ->
  content_readable read_pdf convert_img page_size dpi l ->
  content_readable read_pdf convert_img page_size dpi l'.
Proof.
  unfold content_readable. revert l'.
  induction l as [|x l IH]; intros [|y l'] H; try done.
  pose proof (f_equal head H) as Hk. pose proof (f_equal tail H) as Hl.
  cbn in Hk, Hl. apply (inj Some) in Hk.
  unfold key_of in Hk. injection Hk as Hty Hp.
  rewrite !Forall_cons. intros [Hx Hall]. split; [|by apply IH].
  by rewrite <- Hty, <- Hp.
Qed.

(** [merge] returns whenever every image has its folder, the content
    can be read and the writer accepts every request, *)
Lemma merge_total tree out pretty_labels page_size dpi :
  (forall w t pg parent, outline_raises w t pg parent = false) ->
  content_readable read_pdf convert_img page_size dpi tree ->
  parents_present tree ->
  is_Some (merge read_pdf convert_img outline_raises
                 tree out pretty_labels page_size dpi).
Proof.
  intros Hok Hr H. unfold merge.
  destruct (proj2 (update_files_page_count_Some tree)) as [tree1 E].
  { eapply Forall_impl; [exact Hr|]. by intros x [? _]. }
  rewrite E. cbn.
  apply update_files_page_count_map in E as ->.
  apply merge_loop_total; [done| |].
  - apply (content_readable_keys _ _ tree); [|done].
    symmetry. apply merge_prepared_keys.
  - apply parents_present_lookup.
    apply parents_present_keys. rewrite merge_prepared_keys.
    by apply parents_present_keys.
Qed.

(** and the entries it leaves are the counted entries, numbered. *)
Lemma merge_result tree out pretty_labels page_size dpi st tree' :
  merge read_pdf convert_img outline_raises
        tree out pretty_labels page_size dpi = Some (st, tree') ->
  tree' = number_from 0 (map (count_pages read_pdf) tree)
  /\ page_index st
     = sum_list (map get_pages (map (count_pages read_pdf) tree)).
Proof.
  unfold merge.
  destruct (_update_files_page_count read_pdf tree) as [tree1|] eqn:E; cbn;
    [|done].
  apply update_files_page_count_map in E as ->. intros H.
  apply merge_loop_pages in H as (-> & -> & _). cbn [page_index].
  by rewrite number_from_assign, assign_get_pages.
Qed.

Lemma number_from_get_pages cursor tree :
    map get_pages (number_from cursor tree) = map get_pages tree.
Proof.
    revert cursor. induction tree as [|x tree IH]; intros cursor; [done|].
    cbn. by rewrite IH.
Qed.

Lemma number_from_page cursor tree :
    map page (number_from cursor tree)
    = map Some (cursor_before cursor (map get_pages tree)).
Proof.
    revert cursor. induction tree as [|x tree IH]; intros cursor; [done|].
    cbn. by rewrite IH.
Qed.

Lemma number_from_keys cursor tree :
    map key_of (number_from cursor tree) = map key_of tree.
Proof.
    revert cursor. induction tree as [|x tree IH]; intros cursor; [done|].
    cbn. by rewrite IH.
Qed.

(** A folder without a page count still has none after [merge]. *)
Lemma merged_folders_uncounted tree cursor :
    Forall (fun x => type x = folder -> pages x = None) tree ->
    Forall (fun x => type x = folder -> pages x = None)
           (number_from cursor (map (count_pages read_pdf) tree)).
Proof.
    intros H. revert cursor.
    induction H as [|x tree Hx _ IH]; intros cursor; [constructor|].
    cbn. constructor; [|apply IH].
    unfold count_pages. destruct x as [[] ? ? ? ? ? ? ?]; cbn in *; done.
Qed.

Lemma advance_uncounted (l : list Item) :
    Forall (fun x => type x = folder -> pages x = None) l ->
    map advance l = map get_pages l.
Proof.
    induction 1 as [|x l Hx _ IH]; [done|]. cbn. rewrite IH. f_equal.
    unfold advance, get_pages. destruct (type x); [|done..].
    by rewrite Hx.
Qed.

End MergerFacts.

(** * Pagination *)

Section Pagination.

Variable read_pdf : Path -> option nat.
Variable convert_img : Path -> option string -> nat -> option (Path * nat).
Variable outline_raises : PdfWriter -> string -> nat -> option nat -> bool.

Lemma next_content_number_from tree : forall cursor,
    next_content_page (number_from cursor tree)
                      (cursor + sum_list (map get_pages tree)) = cursor.
Proof.
    induction tree as [|y tree IH]; intros cursor.
    - cbn. lia.
    - cbn [number_from next_content_page map]. rewrite get_pages_set_page.
      change (sum_list (get_pages y :: map get_pages tree))
        with (get_pages y + sum_list (map get_pages tree)).
      destruct (0 <? get_pages y)%nat eqn:E; [done|].
      apply Nat.ltb_ge in E.
      replace (cursor + (get_pages y + sum_list (map get_pages tree)))
        with ((cursor + get_pages y) + sum_list (map get_pages tree)) by lia.
      rewrite IH. lia.
Qed.

Lemma number_from_zero_page tree : forall cursor i x,
    number_from cursor tree !! i = Some x ->
    get_pages x = 0 ->
    page x = Some (next_content_page
                     (drop (S i) (number_from cursor tree))
                     (cursor + sum_list (map get_pages tree))).
Proof.
    induction tree as [|y tree IH]; intros cursor i x.
    { cbn. by rewrite lookup_nil. }
    destruct i as [|i]; cbn.
    - intros [= <-] Hz. rewrite get_pages_set_page in Hz.
      rewrite drop_0.
      replace (cursor + (get_pages y + sum_list (map get_pages tree)))
        with ((cursor + get_pages y) + sum_list (map get_pages tree)) by lia.
      rewrite next_content_number_from. cbn. f_equal. lia.
    - intros Hi Hz.
      replace (cursor + (get_pages y + sum_list (map get_pages tree)))
        with ((cursor + get_pages y) + sum_list (map get_pages tree)) by lia.
      by apply IH.
Qed.

Lemma next_content_none rest final :
    Forall (fun y => get_pages y = 0) rest ->
    next_content_page rest final = final.
Proof.
    induction 1 as [|y rest Hy _ IH]; [done|]. cbn. by rewrite Hy.
Qed.

(** C6. Pass 1 pagination. On every entry sequence in which no folder
    carries a page count (so on every sequence the describer makes), a
    [merge] that returns leaves in each entry, as [page], the value the
    cursor has in front of it: the cursor starts at 0 and advances by the
    page count of a content unit and by nothing for a folder; it ends at
    the total. [merge] does return when the reader opens every PDF, the
    converter converts every image, the writer accepts every outline
    item and each image has the entry of its folder. On a folder, a PDF
    of three pages, a folder and an image, the start pages are 0, 0, 3,
    3. *)
Theorem merge_pagination tree out pretty_labels page_size dpi :
    Forall (fun x => type x = folder -> pages x = None) tree ->
    (forall st tree',
        merge read_pdf convert_img outline_raises
              tree out pretty_labels page_size dpi = Some (st, tree') ->
        map page tree' = map Some (cursor_before 0 (map advance tree'))
        /\ page_index st = sum_list (map advance tree'))
    /\ ((forall w t pg parent, outline_raises w t pg parent = false) ->
        content_readable read_pdf convert_img page_size dpi tree ->
        parents_present tree ->
        is_Some (merge read_pdf convert_img outline_raises
                       tree out pretty_labels page_size dpi))
    /\ (snd <$> merge Sample.read_pdf Sample.convert_img Sample.outline_raises
                      Sample.tree [] false None 150)
       ≫= (fun t => Some (map advance t, map page t))
       = Some ([0; 3; 0; 1], [Some 0; Some 0; Some 3; Some 3]).
Proof.
    intros Hfold. split; [|split; [|by vm_compute]].
    - intros st tree' Hm.
      apply merge_result in Hm as [-> ->].
      pose proof (merged_folders_uncounted read_pdf tree 0 Hfold) as Hunc.
      rewrite (advance_uncounted _ Hunc), number_from_get_pages.
      split; [apply number_from_page|done].
    - intros Hok Hr Hpar. by apply merge_total.
Qed.

(** C3. After a [merge] that returns, on the same entry sequences, every
    folder entry carries as [page] the start page of the nearest later
    entry whose page count is positive, and the final value of the
    cursor, the total page count, when no later entry has pages. This
    holds for every folder, and so for those whose subtree contributes
    no page; a folder followed by no content has the total page count. *)
Theorem folder_start_page tree out pretty_labels page_size dpi st tree' :
    Forall (fun x => type x = folder -> pages x = None) tree ->
    merge read_pdf convert_img outline_raises
          tree out pretty_labels page_size dpi = Some (st, tree') ->
    forall i x,
      tree' !! i = Some x -> type x = folder ->
      page x = Some (next_content_page (drop (S i) tree') (page_index st))
      /\ (Forall (fun y => get_pages y = 0) (drop (S i) tree') ->
          page x = Some (page_index st)).
Proof.
    intros Hfold Hm.
    apply merge_result in Hm as [-> ->].
    intros i x Hi Hx.
    pose proof (merged_folders_uncounted read_pdf tree 0 Hfold) as Hunc.
    assert (Hz : get_pages x = 0).
    { rewrite Forall_lookup in Hunc. unfold get_pages.
      by rewrite (Hunc i x Hi Hx). }
    pose proof (number_from_zero_page _ 0 i x Hi Hz) as Hpg.
    cbn [Nat.add] in Hpg. split; [exact Hpg|].
    intros Hnone. rewrite Hpg. f_equal. by apply next_content_none.
Qed.

End Pagination.

Lemma merge_pagination_witness :
    Forall (fun x => type x = folder -> pages x = None) Sample.tree
    /\ exists st tree',
        merge Sample.read_pdf Sample.convert_img Sample.outline_raises
              Sample.tree [] false None 150 = Some (st, tree')
        /\ map page tree' = map Some (cursor_before 0 (map advance tree'))
        /\ page_index st = sum_list (map advance tree').
Proof.
    assert (Hf : Forall (fun x => type x = folder -> pages x = None)
                        Sample.tree) by compute_done.
    split; [exact Hf|].
    destruct (merge Sample.read_pdf Sample.convert_img Sample.outline_raises
                    Sample.tree [] false None 150) as [[st tree']|] eqn:E;
      [|by vm_compute in E].
    exists st, tree'. split; [done|].
    exact (proj1 (merge_pagination Sample.read_pdf Sample.convert_img
                    Sample.outline_raises Sample.tree [] false None 150 Hf)
                 st tree' E).
Defined.

(** On [Sample.shelves] the folder that holds nothing starts where the
    PDF after it starts, at page 3, and the last folder at the total, 6. *)
Lemma folder_start_page_witness :
    Forall (fun x => type x = folder -> pages x = None) Sample.shelves
    /\ exists st tree',
      merge Sample.read_pdf Sample.convert_img Sample.outline_raises
            Sample.shelves [] false None 150 = Some (st, tree')
      /\ map page tree'
         = [Some 0; Some 0; Some 3; Some 3; Some 3; Some 6]
      /\ map get_pages tree' = [0; 3; 0; 0; 3; 0]
      /\ page_index st = 6
      /\ forall i x,
          tree' !! i = Some x -> type x = folder ->
          page x = Some (next_content_page (drop (S i) tree') (page_index st))
          /\ (Forall (fun y => get_pages y = 0) (drop (S i) tree') ->
              page x = Some (page_index st)).
Proof.
    assert (Hf : Forall (fun x => type x = folder -> pages x = None)
                        Sample.shelves) by compute_done.
    split; [exact Hf|].
    destruct (merge Sample.read_pdf Sample.convert_img Sample.outline_raises
                    Sample.shelves [] false None 150) as [[st tree']|] eqn:E;
      [|by vm_compute in E].
    exists st, tree'. split; [done|].
    pose proof (folder_start_page Sample.read_pdf Sample.convert_img
             Sample.outline_raises Sample.shelves [] false None 150
             st tree' Hf E) as H.
    vm_compute in E. injection E as <- <-.
    split; [done|]. split; [done|]. split; [done|]. exact H.
Defined.


(** * Filters *)

Section Filters.

Context {Pattern : Type}.
Variable re_search : Pattern -> string -> bool.
Variable hash : string -> Z.

Lemma match_filters_no_include p includes excludes :
  includes <> [] ->
  (forall pat, In pat includes -> re_search pat (PurePath.str p) = false) ->
  _match_filters re_search p includes excludes = false.
Proof.
  intros Hne Hno. unfold _match_filters.
  rewrite bool_decide_eq_false_2 by done. cbn [negb andb].
  assert (E : existsb (fun pat => re_search pat (PurePath.str p)) includes
              = false).
  { clear Hne. induction includes as [|a l IH]; [done|]. cbn.
    rewrite Hno by (by left). cbn. apply IH. intros pat Hin.
    apply Hno. by right. }
  by rewrite E.
Qed.

Lemma walk_filtered_out fuel cur rel es includes excludes :
  _match_filters re_search rel includes excludes = false ->
  walk re_search hash includes excludes fuel cur rel es = [].
Proof.
  intros Hf. destruct fuel as [|fuel]; [done|]. cbn [walk].
  rewrite Hf. by destruct (_should_ignore cur es).
Qed.

(** C5. The filters are applied to the relative path of the root
    itself, the empty path, which [str] renders as a single dot. So with
    a non-empty include list none of whose patterns matches that string,
    [select_paths] returns the empty selection, whatever the tree holds. *)
Theorem include_prunes_root fs root includes excludes :
  includes <> [] ->
  (forall pat, In pat includes -> re_search pat "." = false) ->
  PurePath.str [] = "."
  /\ _match_filters re_search [] includes excludes = false
  /\ select_paths re_search hash includes excludes fs root = Some [].
Proof.
  intros Hne Hno.
  assert (Hf : _match_filters re_search [] includes excludes = false)
    by (by apply match_filters_no_include).
  split; [done|]. split; [done|].
  unfold select_paths. rewrite Hf.
  destruct (FS.lookup fs root) as [[t|es]|].
  - by rewrite orb_true_r.
  - by rewrite walk_filtered_out.
  - by rewrite orb_true_r.
Qed.

End Filters.

Lemma include_prunes_root_witness :
  ["cars"] <> []
  /\ (forall pat, In pat ["cars"] -> Sample.re_search pat "." = false)
  /\ select_paths Sample.re_search (Sample.hash_const 0) ["cars"] []
                  (Dir [("cars", Dir [("a.pdf", File None)])]) [] = Some [].
Proof.
  assert (H1 : ["cars"] <> []) by done.
  assert (H2 : forall pat, In pat ["cars"] -> Sample.re_search pat "." = false).
  { intros pat [<-|[]]. reflexivity. }
  split; [exact H1|]. split; [exact H2|].
  exact (proj2 (proj2 (include_prunes_root
                         Sample.re_search (Sample.hash_const 0)
                         (Dir [("cars", Dir [("a.pdf", File None)])]) []
                         ["cars"] [] H1 H2))).
Defined.

(** * The tie-break among unlisted children *)

Lemma no_order_entries es e :
  no_order_file (Dir es) -> e ∈ es -> no_order_file (snd e).
Proof.
  cbn. intros [_ H] Hin. induction es as [|e' es IH]; [by inversion Hin|].
  cbn in H. destruct H as [He' H].
  apply elem_of_cons in Hin as [->|Hin]; [done|by apply IH].
Qed.

(** Where no folder holds an order file the hash is never consulted:
    two processes select the same sequence. *)
Lemma walk_without_order_file {Pattern : Type}
        (re_search : Pattern -> string -> bool) (hash1 hash2 : string -> Z)
        (includes excludes : list Pattern) fuel :
  forall cur rel es,
  no_order_file (Dir es) ->
  walk re_search hash1 includes excludes fuel cur rel es
  = walk re_search hash2 includes excludes fuel cur rel es.
Proof.
  induction fuel as [|fuel IH]; intros cur rel es Hno; [done|].
  cbn [walk]. destruct (_should_ignore cur es); [done|].
  destruct (negb _); [done|]. f_equal.
  assert (E : ordered_children hash1 es = ordered_children hash2 es).
  { unfold ordered_children. destruct Hno as [-> _]. done. }
  rewrite E. clear E.
  assert (Hin : forall e, In e (ordered_children hash2 es) -> e ∈ es).
  { intros e He. apply list_elem_of_In in He.
    unfold ordered_children in He. destruct Hno as [Hno _].
    rewrite Hno in He. by apply sort_by_elem_of in He. }
  induction (ordered_children hash2 es) as [|e l IHl]; [done|].
  cbn [flat_map]. rewrite IHl by (intros e' He'; apply Hin; by right).
  f_equal. unfold visit. destruct (negb (visited cur e)); [done|].
  destruct (snd e) as [t|es'] eqn:Ee; [done|].
  apply IH. pose proof (no_order_entries es e Hno (Hin e (or_introl eq_refl))).
  by rewrite Ee in H.
Qed.

(** C1. [select_paths] is not a function of the directory contents and
    control files alone: the key of a child the order file does not list
    is built from [hash] of its name, which Python draws afresh for every
    process. On one snapshot, two processes whose hashes order the
    unlisted names [c] and [d] differently select in different orders. *)
Theorem select_paths_follows_hash :
  select_paths Sample.re_search (Sample.hash_of [("c", 1%Z); ("d", 2%Z)])
               [] [] Sample.hinted []
  = Some [[]; ["b"]; ["a"]; ["c"]; ["d"]]
  /\ select_paths Sample.re_search (Sample.hash_of [("c", 2%Z); ("d", 1%Z)])
                  [] [] Sample.hinted []
     = Some [[]; ["b"]; ["a"]; ["d"]; ["c"]].
Proof. split; by vm_compute. Qed.

(** C2. With the hints [b], [a] and the children [a], [b], [c], the
    unlisted child [c] is selected first as soon as its hash is below
    minus two: its key is the number of hints plus the hash, which is
    then below the key 0 of the first hint. With a hash of 0 the order is
    the one the specification gives. *)
Theorem unlisted_child_before_hinted :
  select_paths Sample.re_search (Sample.hash_of [("c", (-3)%Z)])
               [] [] Sample.hinted3 []
  = Some [[]; ["c"]; ["b"]; ["a"]]
  /\ select_paths Sample.re_search (Sample.hash_of [("c", (-2)%Z)])
                  [] [] Sample.hinted3 []
     = Some [[]; ["b"]; ["c"]; ["a"]]
  /\ select_paths Sample.re_search (Sample.hash_const 0)
                  [] [] Sample.hinted3 []
     = Some [[]; ["b"]; ["a"]; ["c"]].
Proof. repeat split; by vm_compute. Qed.

(** * Content that cannot be read *)

(** A PDF the reader cannot open ends [_update_files_page_count], and
    with it [merge], at the call of line 88. *)
Lemma unreadable_pdf_raises
        (read_pdf : Path -> option nat)
        (convert_img : Path -> option string -> nat -> option (Path * nat))
        (outline_raises : PdfWriter -> string -> nat -> option nat -> bool)
        tree out pretty_labels page_size dpi :
  Exists (fun x => type x = pdf /\ read_pdf (path x) = None) tree ->
  _update_files_page_count read_pdf tree = None
  /\ merge read_pdf convert_img outline_raises
           tree out pretty_labels page_size dpi = None.
Proof.
  intros Hex.
  assert (E : _update_files_page_count read_pdf tree = None).
  { destruct (_update_files_page_count read_pdf tree) as [t|] eqn:E; [|done].
    assert (Hs : is_Some (_update_files_page_count read_pdf tree)) by eauto.
    apply update_files_page_count_Some in Hs.
    apply Exists_exists in Hex as (x & Hx & Hty & Hrd).
    rewrite Forall_forall in Hs. destruct (Hs x Hx Hty) as [n Hn].
    congruence. }
  split; [done|]. unfold merge. by rewrite E.
Qed.

(** C4. Content that cannot be opened is not recorded with a page count
    of 0, and the run does not go on. In the run below, on a folder with
    a PDF of two pages and an image on which the converter fails,
    [_update_files_page_count] gives the image one page without opening
    it (lines 84 and 85); in the loop [_insert_into_pdf] then raises on
    the image, at the call of line 118, and so do [merge] and the run.
    With a reader that cannot open the PDF, [_update_files_page_count]
    itself raises, at the call of line 88, and records nothing. *)
Theorem unreadable_content_aborts_the_run :
  exists tree tree1 b,
    (select_paths Sample.re_search (Sample.hash_const 0) [] []
                  Sample.mixed ["r"]
       ≫= build_tree_description Sample.mixed) = Some tree
    /\ map key_of tree
       = [(folder, ["r"]); (pdf, ["r"; "a.pdf"]); (img, ["r"; "b.png"])]
    /\ _update_files_page_count Sample.read_pdf2 tree = Some tree1
    /\ map pages tree1 = [None; Some 2; Some 1]
    /\ tree1 !! 2 = Some b
    /\ (forall w, _insert_into_pdf Sample.read_pdf2 Sample.convert_fails
                                   w b (Some "letter") 150 = None)
    /\ merge Sample.read_pdf2 Sample.convert_fails Sample.outline_raises
             tree [] false (Some "letter") 150 = None
    /\ compile Sample.re_search (Sample.hash_const 0) Sample.read_pdf2
               Sample.convert_fails Sample.outline_raises
               Sample.mixed ["r"] [] [] false (Some "letter") 150 = None
    /\ _update_files_page_count Sample2.read_fails tree = None
    /\ compile Sample.re_search (Sample.hash_const 0) Sample2.read_fails
               Sample.convert_img Sample.outline_raises
               Sample.mixed ["r"] [] [] false (Some "letter") 150 = None.
Proof.
  eexists _, _, _. split; [by vm_compute|].
  split; [by vm_compute|]. split; [by vm_compute|].
  split; [by vm_compute|]. split; [by vm_compute|].
  split; [intros w; by vm_compute|].
  repeat split; by vm_compute.
Qed.

(** * Outline construction *)

Section Outline.

Variable read_pdf : Path -> option nat.
Variable convert_img : Path -> option string -> nat -> option (Path * nat).
Variable outline_raises : PdfWriter -> string -> nat -> option nat -> bool.
Variable folders : gmap Path Item.
Variable pretty_labels : bool.
Variable page_size : option string.
Variable dpi : nat.

Abbreviation step1 :=
    (merge_item read_pdf convert_img outline_raises
                folders pretty_labels page_size dpi).
Abbreviation loop1 :=
    (merge_loop read_pdf convert_img outline_raises
                folders pretty_labels page_size dpi).

(** When it returns, [_insert_into_pdf] has appended the pages of the
    entry and left the outline alone. *)
Lemma insert_into_pdf_writer w item r :
  _insert_into_pdf read_pdf convert_img w item page_size dpi = Some r ->
  w_pages (fst r)
  = w_pages w ++ inserted read_pdf convert_img page_size dpi item
  /\ w_outline (fst r) = w_outline w.
Proof.
  unfold _insert_into_pdf, inserted. destruct (type item); cbn.
  - intros [= <-]. cbn. by rewrite app_nil_r.
  - destruct (read_pdf (path item)); cbn; [|done]. by intros [= <-].
  - destruct (convert_img (path item) page_size dpi) as [[tmp n]|]; cbn;
      [|done]. by intros [= <-].
Qed.

(** [_add_outline] never touches the pages. *)
Lemma add_outline_pages w item parent r :
  _add_outline outline_raises w item parent pretty_labels = Some r ->
  w_pages (fst r) = w_pages w.
Proof.
  unfold _add_outline. destruct (page item); [|by intros [= <-]].
  repeat case_match; try done; by intros [= <-].
Qed.

Lemma add_outline_label item :
  (if pretty_labels && negb (bool_decide (is_Some (label item)))
   then _prettify_label (default (PurePath.stem (path item)) (label item))
   else default (PurePath.stem (path item)) (label item))
  = outline_label pretty_labels item.
Proof. unfold outline_label. by destruct (label item) as [l|], pretty_labels. Qed.

(** On a folder whose request the writer accepts, [_add_outline] makes
    one item, titled from the label or the stem, never from [title]. *)
Lemma add_outline_folder w item parent pg :
  type item = folder -> page item = Some pg ->
  outline_raises w (outline_label pretty_labels item) pg parent = false ->
  _add_outline outline_raises w item parent pretty_labels
  = Some (mkWriter (w_pages w)
                   (w_outline w
                    ++ [mkOutline (outline_label pretty_labels item) pg parent]),
          Some (List.length (w_outline w))).
Proof.
  intros Hty Hpg Hok. unfold _add_outline. rewrite Hpg, Hty.
  rewrite bool_decide_eq_true_2 by done. cbn [negb andb].
  rewrite add_outline_label, Hok. done.
Qed.

(** One turn of the loop on an image of an image-only folder that the
    converter converts: the pages go in, the outline and the parent map
    stay. *)
Lemma merge_item_suppressed st item fld :
  type item = img ->
  folders !! PurePath.parent (path item) = Some fld ->
  only_images fld = true ->
  is_Some (convert_img (path item) page_size dpi) ->
  exists st',
    step1 st item = Some (st', set_page (page_index st) item)
    /\ w_outline (writer st') = w_outline (writer st)
    /\ parents st' = parents st
    /\ w_pages (writer st')
       = w_pages (writer st)
         ++ inserted read_pdf convert_img page_size dpi item.
Proof.
  intros Hty Hfld Hoi [[tmp n] Hc]. unfold merge_item.
  destruct (_insert_into_pdf read_pdf convert_img (writer st) item
                             page_size dpi) as [r|] eqn:E.
  2:{ unfold _insert_into_pdf in E. by rewrite Hty, Hc in E. }
  destruct (insert_into_pdf_writer _ _ _ E) as [Hp Ho].
  cbn -[_add_outline]. rewrite Hty, Hfld. cbn -[_add_outline]. rewrite Hoi.
  eexists. split; [reflexivity|]. cbn. done.
Qed.

(** On an image the converter cannot convert the turn raises. *)
Lemma merge_item_unconverted st item :
  type item = img -> convert_img (path item) page_size dpi = None ->
  step1 st item = None.
Proof.
  intros Hty Hc. unfold merge_item, _insert_into_pdf. by rewrite Hty, Hc.
Qed.

(** One turn of the loop on a folder: one outline item, at the cursor,
    under the item recorded for the parent folder. *)
Lemma merge_item_folder st item :
  type item = folder ->
  let parent := default None (parents st !! PurePath.parent (path item)) in
  outline_raises (writer st) (outline_label pretty_labels item)
                 (page_index st) parent = false ->
  exists st',
    step1 st item = Some (st', set_page (page_index st) item)
    /\ w_outline (writer st')
       = w_outline (writer st)
         ++ [mkOutline (outline_label pretty_labels item) (page_index st) parent]
    /\ w_pages (writer st') = w_pages (writer st)
    /\ parents st'
       = <[path item := Some (List.length (w_outline (writer st)))]> (parents st).
Proof.
  intros Hty parent Hok. subst parent.
  unfold merge_item, _insert_into_pdf. rewrite Hty. cbn -[_add_outline].
  rewrite (add_outline_folder (writer st) (set_page (page_index st) item)
                              _ (page_index st)); [|done..].
  cbn. rewrite bool_decide_eq_true_2 by done.
  eexists. split; [reflexivity|]. done.
Qed.

(** What a turn of the loop does to the pages of the writer. *)
Lemma merge_item_inserted st item st' item' :
  step1 st item = Some (st', item') ->
  w_pages (writer st')
  = w_pages (writer st) ++ inserted read_pdf convert_img page_size dpi item.
Proof.
  unfold merge_item.
  destruct (_insert_into_pdf read_pdf convert_img (writer st) item
                             page_size dpi) as [[w tmp]|] eqn:E;
    cbn -[_add_outline]; [|done].
  destruct (insert_into_pdf_writer _ _ _ E) as [Hp Ho]. cbn [fst] in Hp.
  rewrite <- Hp.
  assert (Hadd : forall r,
            _add_outline outline_raises w (set_page (page_index st) item)
              (default None (parents st !! PurePath.parent (path item)))
              pretty_labels = Some r -> w_pages (fst r) = w_pages w)
    by (intros r; apply add_outline_pages).
  destruct (type item); cbn -[_add_outline].
  - destruct (_add_outline _ _ _ _ _) as [[w' o]|]; cbn; [|done].
    intros [= <- _]. exact (Hadd _ eq_refl).
  - destruct (_add_outline _ _ _ _ _) as [[w' o]|]; cbn; [|done].
    intros [= <- _]. exact (Hadd _ eq_refl).
  - destruct (folders !! _) as [fld|]; cbn -[_add_outline]; [|done].
    destruct (only_images fld).
    + by intros [= <- _].
    + destruct (_add_outline _ _ _ _ _) as [[w' o]|]; cbn; [|done].
      intros [= <- _]. exact (Hadd _ eq_refl).
Qed.

(** Over the whole loop the writer receives the pages of the entries in
    emission order. *)
Lemma merge_loop_inserted tree : forall st st' tree',
  loop1 st tree = Some (st', tree') ->
  w_pages (writer st')
  = w_pages (writer st)
    ++ flat_map (inserted read_pdf convert_img page_size dpi) tree.
Proof.
  induction tree as [|x tree IH]; intros st st' tree'; cbn [merge_loop].
  - intros [= <- <-]. cbn. by rewrite app_nil_r.
  - destruct (step1 st x) as [[st1 x']|] eqn:E1; cbn -[flat_map]; [|done].
    destruct (loop1 st1 tree) as [[st2 rest']|] eqn:E2; cbn -[flat_map];
      [|done].
    intros [= <- <-]. apply IH in E2. rewrite E2. cbn [flat_map].
    rewrite app_assoc. f_equal. by eapply merge_item_inserted.
Qed.

(** When the writer accepts the request, [_add_outline] makes an item
    for a folder and for a content unit with pages. *)
Lemma add_outline_accepted w item parent pg :
  page item = Some pg ->
  outline_raises w (outline_label pretty_labels item) pg parent = false ->
  _add_outline outline_raises w item parent pretty_labels
  = Some (if negb (bool_decide (type item = folder))
             && (get_pages item =? 0)%nat
          then (w, None)
          else (mkWriter (w_pages w)
                         (w_outline w
                          ++ [mkOutline (outline_label pretty_labels item)
                                        pg parent]),
                Some (List.length (w_outline w)))).
Proof.
  intros Hpg Hok. unfold _add_outline. rewrite Hpg.
  destruct (negb _ && _); [done|].
  rewrite add_outline_label, Hok. done.
Qed.

(** With a writer that accepts every request, a turn of the loop adds
    the outline item of the entry if it is bookmarked, and none if not. *)
Lemma merge_item_outline st item st' item' :
  (forall w t pg parent, outline_raises w t pg parent = false) ->
  step1 st item = Some (st', item') ->
  map title_page (w_outline (writer st'))
  = map title_page (w_outline (writer st))
    ++ map (fun x => (outline_label pretty_labels x, default 0 (page x)))
           (List.filter (bookmarked folders) [item']).
Proof.
  intros Hok. unfold merge_item.
  destruct (_insert_into_pdf read_pdf convert_img (writer st) item
                             page_size dpi) as [[w tmp]|] eqn:E;
    cbn -[_add_outline]; [|done].
  destruct (insert_into_pdf_writer _ _ _ E) as [_ Ho]. cbn [fst] in Ho.
  rewrite <- Ho.
  assert (Hadd : forall parent,
            _add_outline outline_raises w (set_page (page_index st) item)
                         parent pretty_labels
            = Some (if negb (bool_decide (type item = folder))
                       && (get_pages item =? 0)%nat
                    then (w, None)
                    else (mkWriter (w_pages w)
                                   (w_outline w
                                    ++ [mkOutline
                                          (outline_label pretty_labels item)
                                          (page_index st) parent]),
                          Some (List.length (w_outline w))))).
  { intros parent.
    by rewrite (add_outline_accepted w (set_page (page_index st) item)
                  parent (page_index st) eq_refl (Hok _ _ _ _)). }
  unfold bookmarked. cbn [List.filter]. unfold get_pages, PurePath.parent in *.
  destruct (type item) eqn:Hty; cbn -[_add_outline].
  - rewrite Hadd. cbn.
    intros [= <- <-]. cbn. rewrite ?Hty. cbn. by rewrite map_app.
  - rewrite Hadd. cbn.
    destruct (default 0 (pages item) =? 0)%nat eqn:Hz; cbn;
      intros [= <- <-]; cbn; rewrite ?Hty, ?Hz; cbn.
    + by rewrite app_nil_r.
    + by rewrite map_app.
  - destruct (folders !! _) as [fld|] eqn:Hfld; cbn -[_add_outline]; [|done].
    destruct (only_images fld) eqn:Hoi.
    + intros [= <- <-]. cbn. rewrite ?Hty, ?Hfld. cbn. rewrite ?Hoi.
      rewrite andb_false_r. cbn. by rewrite app_nil_r.
    + rewrite Hadd. cbn.
      destruct (default 0 (pages item) =? 0)%nat eqn:Hz; cbn;
        intros [= <- <-]; cbn; rewrite ?Hty, ?Hfld, ?Hz; cbn; rewrite ?Hoi; cbn.
      * by rewrite app_nil_r.
      * by rewrite map_app.
Qed.

(** Over the whole loop the outline holds the items of the bookmarked
    entries, in emission order, each at the start page of its entry. *)
Lemma merge_loop_outline tree : forall st st' tree',
  (forall w t pg parent, outline_raises w t pg parent = false) ->
  loop1 st tree = Some (st', tree') ->
  map title_page (w_outline (writer st'))
  = map title_page (w_outline (writer st))
    ++ map (fun x => (outline_label pretty_labels x, default 0 (page x)))
           (List.filter (bookmarked folders) tree').
Proof.
  induction tree as [|x tree IH]; intros st st' tree' Hok; cbn [merge_loop].
  - intros [= <- <-]. cbn. by rewrite app_nil_r.
  - destruct (step1 st x) as [[st1 x']|] eqn:E1; cbn -[List.filter]; [|done].
    destruct (loop1 st1 tree) as [[st2 rest']|] eqn:E2; cbn -[List.filter];
      [|done].
    intros [= <- <-].
    rewrite (IH _ _ _ Hok E2), (merge_item_outline _ _ _ _ Hok E1).
    rewrite <- app_assoc, <- map_app. f_equal. f_equal.
    cbn [List.filter]. by destruct (bookmarked folders x').
Qed.

(** C7. An image whose parent folder has [only_images] gets no outline
    item: when the converter converts it, the turn of the loop on it
    leaves the outline as it is and still hands the pages of the image to
    the writer; when the converter fails on it the turn raises. Over a
    whole run that returns the writer receives the pages of all entries
    in emission order, and, when it accepts every request, its outline
    holds one item for each bookmarked entry and no other; the image is
    not bookmarked, every folder is. A folder gets exactly one outline
    item in its turn when the writer accepts the request. For a folder
    [album] holding [x.jpg] and [y.png] the run makes the one outline
    item of the folder and inserts the page of [x.jpg], then the page of
    [y.png]. *)
Theorem only_images_suppression st item fld :
  type item = img ->
  folders !! PurePath.parent (path item) = Some fld ->
  only_images fld = true ->
  (is_Some (convert_img (path item) page_size dpi) ->
   exists st',
      step1 st item = Some (st', set_page (page_index st) item)
      /\ w_outline (writer st') = w_outline (writer st)
      /\ parents st' = parents st
      /\ w_pages (writer st')
         = w_pages (writer st)
           ++ inserted read_pdf convert_img page_size dpi item)
  /\ (convert_img (path item) page_size dpi = None -> step1 st item = None)
  /\ (forall st0 tree stN tree',
         loop1 st0 tree = Some (stN, tree') ->
         w_pages (writer stN)
         = w_pages (writer st0)
           ++ flat_map (inserted read_pdf convert_img page_size dpi) tree)
  /\ bookmarked folders (set_page (page_index st) item) = false
  /\ (forall f, type f = folder -> bookmarked folders f = true)
  /\ ((forall w t pg parent, outline_raises w t pg parent = false) ->
      forall st0 tree stN tree',
        loop1 st0 tree = Some (stN, tree') ->
        map title_page (w_outline (writer stN))
        = map title_page (w_outline (writer st0))
          ++ map (fun x => (outline_label pretty_labels x, default 0 (page x)))
                 (List.filter (bookmarked folders) tree'))
  /\ (forall st0 f,
         type f = folder ->
         outline_raises (writer st0) (outline_label pretty_labels f)
                        (page_index st0)
                        (default None (parents st0 !! PurePath.parent (path f)))
         = false ->
         exists st',
           step1 st0 f = Some (st', set_page (page_index st0) f)
           /\ w_outline (writer st')
              = w_outline (writer st0)
                ++ [mkOutline (outline_label pretty_labels f) (page_index st0)
                              (default None
                                 (parents st0 !! PurePath.parent (path f)))])
  /\ (fun r => (w_outline (writer (fst r)), w_pages (writer (fst r)),
                map (fun x => (type x, only_images x)) (snd r)))
     <$> compile Sample.re_search (Sample.hash_const 0) Sample.read_pdf
                 Sample.convert_img Sample.outline_raises
                 Sample.photos ["album"] [] [] false (Some "letter") 150
     = Some ([mkOutline "album" 0 None],
             [(["album"; "x.jpg"], 0); (["album"; "y.png"], 0)],
             [(folder, true); (img, false); (img, false)]).
Proof.
  intros Hty Hfld Hoi.
  split; [by eapply merge_item_suppressed|].
  split; [by apply merge_item_unconverted|].
  split; [intros st0 tree stN tree'; apply merge_loop_inserted|].
  split.
  { unfold bookmarked. cbn [type path set_page]. rewrite Hty, Hfld. cbn.
    rewrite Hoi. apply andb_false_r. }
  split; [intros f Hf; unfold bookmarked; by rewrite Hf|].
  split.
  { intros Hok st0 tree stN tree'. by apply merge_loop_outline. }
  split; [|by vm_compute].
  intros st0 f Hf Hok.
  destruct (merge_item_folder st0 f Hf Hok) as (st' & E & Ho & _).
  eauto.
Qed.

End Outline.

Lemma only_images_suppression_witness :
  type Sample.album_x = img
  /\ ({[ ["album"] := Sample.album ]} : gmap Path Item)
     !! PurePath.parent (path Sample.album_x) = Some Sample.album
  /\ only_images Sample.album = true
  /\ is_Some (Sample.convert_img (path Sample.album_x) (Some "letter") 150)
  /\ exists st',
      merge_item Sample.read_pdf Sample.convert_img Sample.outline_raises
                 {[ ["album"] := Sample.album ]} false (Some "letter") 150
                 Sample.after_album Sample.album_x
      = Some (st', set_page (page_index Sample.after_album) Sample.album_x)
      /\ w_outline (writer st') = w_outline (writer Sample.after_album)
      /\ parents st' = parents Sample.after_album
      /\ w_pages (writer st')
         = w_pages (writer Sample.after_album)
           ++ inserted Sample.read_pdf Sample.convert_img (Some "letter") 150
                       Sample.album_x.
Proof.
  assert (H1 : type Sample.album_x = img) by reflexivity.
  assert (H2 : ({[ ["album"] := Sample.album ]} : gmap Path Item)
               !! PurePath.parent (path Sample.album_x) = Some Sample.album)
    by (by vm_compute).
  assert (H3 : only_images Sample.album = true) by reflexivity.
  assert (H4 : is_Some (Sample.convert_img (path Sample.album_x)
                                           (Some "letter") 150))
    by (by eexists).
  split; [exact H1|]. split; [exact H2|]. split; [exact H3|].
  split; [exact H4|].
  exact (proj1 (only_images_suppression
                  Sample.read_pdf Sample.convert_img Sample.outline_raises
                  {[ ["album"] := Sample.album ]} false (Some "letter") 150
                  Sample.after_album Sample.album_x Sample.album H1 H2 H3)
               H4).
Defined.

(** * The folder title *)

Section Title.

Variable read_pdf : Path -> option nat.
Variable convert_img : Path -> option string -> nat -> option (Path * nat).
Variable outline_raises : PdfWriter -> string -> nat -> option nat -> bool.

Lemma untitled_set_page n x : untitled (set_page n x) = set_page n (untitled x).
Proof. done. Qed.

Lemma update_files_page_count_untitled tree :
  _update_files_page_count read_pdf (map untitled tree)
  = map untitled <$> _update_files_page_count read_pdf tree.
Proof.
  induction tree as [|x tree IH]; [done|].
  cbn [map _update_files_page_count].
  change (type (untitled x)) with (type x).
  change (path (untitled x)) with (path x).
  destruct (type x).
  - rewrite IH. by destruct (_update_files_page_count read_pdf tree).
  - destruct (read_pdf (path x)); cbn; [|done]. rewrite IH.
    by destruct (_update_files_page_count read_pdf tree).
  - rewrite IH. by destruct (_update_files_page_count read_pdf tree).
Qed.

Lemma assign_from_end_untitled tree :
  assign_from_end (map untitled tree)
  = (fst (assign_from_end tree), map untitled (snd (assign_from_end tree))).
Proof.
  induction tree as [|x tree IH]; [done|].
  cbn [map assign_from_end]. rewrite IH.
  destruct (assign_from_end tree) as [lvp rest']. cbn [fst snd].
  change (page (untitled x)) with (page x).
  change (get_pages (untitled x)) with (get_pages x).
  change (type (untitled x)) with (type x).
  destruct (page x); repeat case_match; done.
Qed.

Lemma folders_of_untitled tree :
  folders_of (map untitled tree) = untitled <$> folders_of tree.
Proof.
  unfold folders_of.
  assert (G : forall (m : gmap Path Item),
             foldl (fun m x => if bool_decide (type x = folder)
                               then <[path x := x]> m else m)
                   (untitled <$> m) (map untitled tree)
             = untitled <$> foldl (fun m x => if bool_decide (type x = folder)
                                              then <[path x := x]> m else m)
                                  m tree).
  { induction tree as [|x tree IH]; intros m; [done|].
    cbn [map foldl].
    change (type (untitled x)) with (type x).
    change (path (untitled x)) with (path x).
    case_bool_decide; [|apply IH].
    rewrite <- IH. by rewrite fmap_insert. }
  rewrite <- G. by rewrite fmap_empty.
Qed.

Section Loop.

Variable folders : gmap Path Item.
Variable pretty_labels : bool.
Variable page_size : option string.
Variable dpi : nat.

Lemma merge_item_untitled st item :
  merge_item read_pdf convert_img outline_raises (untitled <$> folders)
             pretty_labels page_size dpi st (untitled item)
  = (fun r => (fst r, untitled (snd r)))
    <$> merge_item read_pdf convert_img outline_raises folders
                   pretty_labels page_size dpi st item.
Proof.
  unfold merge_item.
  change (_insert_into_pdf read_pdf convert_img (writer st) (untitled item)
                           page_size dpi)
    with (_insert_into_pdf read_pdf convert_img (writer st) item
                           page_size dpi).
  destruct (_insert_into_pdf _ _ _ _ _ _) as [[w tmp]|]; cbn -[_add_outline];
    [|done].
  change (type (untitled item)) with (type item).
  change (path (untitled item)) with (path item).
  change (get_pages (untitled item)) with (get_pages item).
  change (_add_outline outline_raises w
            (set_page (page_index st) (untitled item)))
    with (_add_outline outline_raises w (set_page (page_index st) item)).
  rewrite lookup_fmap.
  destruct (type item); cbn -[_add_outline].
  - by destruct (_add_outline _ _ _ _ _) as [[w' o]|].
  - by destruct (_add_outline _ _ _ _ _) as [[w' o]|].
  - destruct (folders !! _) as [fld|]; cbn -[_add_outline]; [|done].
    destruct (only_images fld); [done|].
    by destruct (_add_outline _ _ _ _ _) as [[w' o]|].
Qed.

Lemma merge_loop_untitled tree : forall st,
  merge_loop read_pdf convert_img outline_raises (untitled <$> folders)
             pretty_labels page_size dpi st (map untitled tree)
  = (fun r => (fst r, map untitled (snd r)))
    <$> merge_loop read_pdf convert_img outline_raises folders
                   pretty_labels page_size dpi st tree.
Proof.
  induction tree as [|x tree IH]; intros st; [done|].
  cbn [map merge_loop]. rewrite merge_item_untitled.
  destruct (merge_item _ _ _ folders _ _ _ st x) as [[st1 x']|]; cbn; [|done].
  rewrite IH.
  by destruct (merge_loop _ _ _ folders _ _ _ st1 tree) as [[st2 rest']|].
Qed.

End Loop.

(** [merge] on entries without titles does what it does on the entries
    with them. *)
Lemma merge_untitled tree out pretty_labels page_size dpi :
  merge read_pdf convert_img outline_raises
        (map untitled tree) out pretty_labels page_size dpi
  = (fun r => (fst r, map untitled (snd r)))
    <$> merge read_pdf convert_img outline_raises
              tree out pretty_labels page_size dpi.
Proof.
  unfold merge. rewrite update_files_page_count_untitled.
  destruct (_update_files_page_count read_pdf tree) as [tree1|]; cbn;
    [|done].
  unfold _assign_folder_page_indices.
  rewrite assign_from_end_untitled. cbn [snd].
  rewrite folders_of_untitled. apply merge_loop_untitled.
Qed.

(** Entry sequences that agree on everything but their titles are
    merged alike. *)
Lemma merge_agree_untitled tree1 tree2 out pretty_labels page_size dpi :
  map untitled tree1 = map untitled tree2 ->
  fst <$> merge read_pdf convert_img outline_raises
                tree1 out pretty_labels page_size dpi
  = fst <$> merge read_pdf convert_img outline_raises
                  tree2 out pretty_labels page_size dpi.
Proof.
  intros Heq.
  pose proof (merge_untitled tree1 out pretty_labels page_size dpi) as H1.
  pose proof (merge_untitled tree2 out pretty_labels page_size dpi) as H2.
  rewrite Heq, H2 in H1.
  destruct (merge _ _ _ tree1 _ _ _ _) as [[st1 t1]|],
           (merge _ _ _ tree2 _ _ _ _) as [[st2 t2]|]; cbn in *;
    congruence.
Qed.

End Title.


(** * The shape of the selection *)

Lemma wf_entries es e : FS.wf (Dir es) -> e ∈ es -> FS.wf (snd e).
Proof.
  cbn. intros [_ H] Hin. induction es as [|e' es IH]; [by inversion Hin|].
  cbn in H. destruct H as [He' H].
  apply elem_of_cons in Hin as [->|Hin]; [done|by apply IH].
Qed.

Lemma entry_elem_of nm es x : FS.entry nm es = Some x -> (nm, x) ∈ es.
Proof.
  induction es as [|[n y] es IH]; [done|]. cbn.
  destruct (String.eqb n nm) eqn:E.
  - apply String.eqb_eq in E as ->. intros [= ->]. by left.
  - intros H. right. by apply IH.
Qed.

Lemma wf_lookup p : forall fs n,
  FS.wf fs -> FS.lookup fs p = Some n -> FS.wf n.
Proof.
  induction p as [|c p IH]; intros fs n Hwf; cbn.
  - by intros [= <-].
  - destruct fs as [t|es]; [done|].
    destruct (FS.entry c es) as [x|] eqn:E; [|done].
    apply IH. apply entry_elem_of in E.
    exact (wf_entries es (c, x) Hwf E).
Qed.

Lemma prefix_fork (cur : Path) n1 n2 d q :
  cur ++ [n1] `prefix_of` d -> cur ++ [n2] `prefix_of` q -> d `prefix_of` q ->
  n1 = n2.
Proof.
  intros [k1 ->] [k2 ->] [k3 H].
  rewrite <- !app_assoc in H. apply app_inv_head in H. cbn in H.
  by inversion H.
Qed.

Lemma prefix_longer (cur : Path) n d : cur ++ [n] `prefix_of` d ->
  cur `prefix_of` d /\ d <> cur /\ ~ d `prefix_of` cur.
Proof.
  intros H. split; [by eapply prefix_app_l|].
  apply prefix_length in H. rewrite length_app in H. cbn in H.
  split.
  - intros ->. lia.
  - intros H'. apply prefix_length in H'. lia.
Qed.

Lemma block_singleton d : block d [d].
Proof. exists [], [], []. repeat split; constructor. Qed.

(** A path followed by the pre-order blocks of its children, which bear
    different names, is a pre-order sequence. *)
Lemma preorder_flat_map {B} (cur : Path) (name : B -> string)
        (f : B -> list Path) (l : list B) :
  NoDup (map name l) ->
  (forall b, b ∈ l ->
             Forall (fun q => cur ++ [name b] `prefix_of` q) (f b)
             /\ preorder (f b)) ->
  preorder (cur :: flat_map f l).
Proof.
  intros Hnd Hf d Hd. apply elem_of_cons in Hd as [->|Hd].
  - exists [], (flat_map f l), []. rewrite app_nil_r.
    split; [done|]. split; [|constructor].
    apply Forall_forall. intros q Hq.
    apply list_elem_of_In, in_flat_map in Hq as (b & Hb & Hq).
    apply list_elem_of_In in Hb, Hq.
    destruct (Hf b Hb) as [Hpre _]. rewrite Forall_forall in Hpre.
    destruct (prefix_longer _ _ _ (Hpre q Hq)) as (? & ? & ?). done.
  - apply list_elem_of_In, in_flat_map in Hd as (b & Hb & Hd).
    apply list_elem_of_In in Hb, Hd.
    destruct (Hf b Hb) as [Hpre Hblock].
    rewrite Forall_forall in Hpre.
    destruct (Hblock d Hd) as (pre & sub & post & Hfb & Hsub & Hout).
    apply list_elem_of_split in Hb as (l1 & l2 & ->).
    exists (cur :: flat_map f l1 ++ pre), sub, (post ++ flat_map f l2).
    split.
    { rewrite flat_map_app. cbn [flat_map]. rewrite Hfb.
      rewrite <- !app_assoc. cbn [app]. rewrite <- !app_assoc. done. }
    split; [done|].
    apply Forall_app in Hout as [Hpre' Hpost'].
    assert (Hside : forall l', (forall b', b' ∈ l' -> name b' <> name b) ->
                    (forall b', b' ∈ l' -> b' ∈ l1 ++ b :: l2) ->
                    Forall (fun q => ~ d `prefix_of` q) (flat_map f l')).
    { intros l' Hne Hsub'. apply Forall_forall. intros q Hq Hdq.
      apply list_elem_of_In, in_flat_map in Hq as (b' & Hb' & Hq).
      apply list_elem_of_In in Hb', Hq.
      destruct (Hf b' (Hsub' b' Hb')) as [Hpre2 _].
      rewrite Forall_forall in Hpre2.
      apply (Hne b' Hb'). symmetry.
      exact (prefix_fork cur _ _ d q (Hpre d Hd) (Hpre2 q Hq) Hdq). }
    rewrite map_app in Hnd. cbn in Hnd.
    apply NoDup_app in Hnd as (_ & Hl1 & Hnd).
    apply NoDup_cons in Hnd as [Hl2 _].
    cbn. constructor.
    { by destruct (prefix_longer _ _ _ (Hpre d Hd)) as (_ & _ & ?). }
    rewrite <- app_assoc. apply Forall_app. split.
    { apply Hside.
      - intros b' Hb' E. apply (Hl1 (name b')).
        + apply list_elem_of_fmap. eauto.
        + rewrite E. left.
      - intros b' Hb'. apply elem_of_app. by left. }
    apply Forall_app. split; [done|].
    apply Forall_app. split; [done|].
    apply Hside.
    + intros b' Hb' E. apply Hl2. rewrite <- E.
      apply list_elem_of_fmap. eauto.
    + intros b' Hb'. apply elem_of_app. right. by right.
Qed.

(** A pre-order sequence repeats no path. *)
Lemma preorder_NoDup sel : preorder sel -> NoDup sel.
Proof.
  induction sel as [|a l IH]; intros Hpre; [constructor|].
  assert (Ha : a ∉ l).
  { destruct (Hpre a (list_elem_of_here _ _))
      as (pre & sub & post & E & Hsub & Hout).
    destruct pre as [|b pre].
    - cbn in E. injection E as ->. apply Forall_app in Hout as [_ Hpost].
      rewrite not_elem_of_app. split.
      + intros Hin. rewrite Forall_forall in Hsub.
        by destruct (Hsub a Hin) as [_ ?].
      + intros Hin. rewrite Forall_forall in Hpost. by apply (Hpost a Hin).
    - cbn in E. injection E as <- _.
      apply Forall_app in Hout as [Hfront _].
      apply Forall_cons in Hfront as [Hb _]. by destruct Hb. }
  constructor; [done|]. apply IH. intros d Hd.
  destruct (Hpre d (list_elem_of_further _ _ _ Hd))
    as (pre & sub & post & E & Hsub & Hout).
  destruct pre as [|b pre].
  - cbn in E. injection E as -> _. done.
  - cbn in E. injection E as <- ->.
    exists pre, sub, post. split; [done|]. split; [done|].
    cbn in Hout. by apply Forall_cons in Hout as [_ ?].
Qed.

Section Selection.

Context {Pattern : Type}.
Variable re_search : Pattern -> string -> bool.
Variable hash : string -> Z.
Variables includes excludes : list Pattern.

Abbreviation walk1 := (walk re_search hash includes excludes).
Abbreviation visit1 := (visit re_search includes excludes).

Lemma ordered_children_perm es : ordered_children hash es ≡ₚ es.
Proof.
  unfold ordered_children. destruct (FS.entry ".order" es).
  - by rewrite !sort_by_perm.
  - apply sort_by_perm.
Qed.

(** Every selected path lies at or below the folder being walked. *)
Lemma walk_prefix fuel : forall cur rel es q,
  q ∈ walk1 fuel cur rel es -> cur `prefix_of` q.
Proof.
  induction fuel as [|fuel IH]; intros cur rel es q; cbn [walk].
  - by intros ?%elem_of_nil.
  - destruct (_should_ignore cur es); [by intros ?%elem_of_nil|].
    destruct (negb _); [by intros ?%elem_of_nil|].
    intros [->|Hq]%elem_of_cons; [done|].
    apply list_elem_of_In, in_flat_map in Hq as (e & _ & Hq).
    apply list_elem_of_In in Hq. unfold visit in Hq.
    destruct (negb (visited cur e)); [by apply elem_of_nil in Hq|].
    destruct (snd e) as [t|es'].
    + destruct (_match_filters _ _ _ _); [|by apply elem_of_nil in Hq].
      apply list_elem_of_singleton in Hq as ->. by apply prefix_app_r.
    + apply IH in Hq. by eapply prefix_app_l.
Qed.

Lemma visit_prefix fuel cur rel e :
  Forall (fun q => cur ++ [fst e] `prefix_of` q)
         (visit1 (walk1 fuel) cur rel e).
Proof.
  apply Forall_forall. intros q Hq. unfold visit in Hq.
  destruct (negb (visited cur e)); [by apply elem_of_nil in Hq|].
  destruct (snd e) as [t|es'].
  - destruct (_match_filters _ _ _ _); [|by apply elem_of_nil in Hq].
    by apply list_elem_of_singleton in Hq as ->.
  - by apply walk_prefix in Hq.
Qed.

Lemma preorder_nil : preorder [].
Proof. by intros d ?%elem_of_nil. Qed.

Lemma walk_preorder fuel : forall cur rel es,
  FS.wf (Dir es) -> preorder (walk1 fuel cur rel es).
Proof.
  induction fuel as [|fuel IH]; intros cur rel es Hwf; cbn [walk].
  - apply preorder_nil.
  - destruct (_should_ignore cur es); [apply preorder_nil|].
    destruct (negb _); [apply preorder_nil|].
    apply (preorder_flat_map cur fst).
    + rewrite ordered_children_perm. by destruct Hwf.
    + intros e He. split; [apply visit_prefix|].
      rewrite ordered_children_perm in He.
      pose proof (wf_entries es e Hwf He) as Hwe.
      unfold visit. destruct (negb (visited cur e)); [apply preorder_nil|].
      destruct (snd e) as [t|es'].
      * destruct (_match_filters _ _ _ _); [|apply preorder_nil].
        intros d ->%list_elem_of_singleton. apply block_singleton.
      * by apply IH.
Qed.

End Selection.

(** * The order file *)

Lemma preferred_map_of_snoc l x :
  preferred_map_of (l ++ [x]) = <[x := List.length l]> (preferred_map_of l).
Proof.
  unfold preferred_map_of. rewrite imap_app, foldl_app. cbn.
  by rewrite Nat.add_0_r.
Qed.

(** Without repeated hints, a hint is mapped to its position. *)
Lemma preferred_map_of_lookup l : forall i nm,
  NoDup l -> l !! i = Some nm -> preferred_map_of l !! nm = Some i.
Proof.
  induction l as [|x l IH] using rev_ind; intros i nm Hnd Hi.
  - by rewrite lookup_nil in Hi.
  - rewrite preferred_map_of_snoc.
    apply NoDup_app in Hnd as (Hl & Hx & _).
    destruct (decide (i < List.length l)) as [Hlt|Hge].
    + rewrite lookup_app_l in Hi by done.
      assert (nm <> x).
      { intros ->. apply (Hx x); [|left].
        by eapply list_elem_of_lookup_2. }
      rewrite lookup_insert_ne by done. by apply IH.
    + rewrite lookup_app_r in Hi by lia.
      destruct (i - List.length l) as [|k] eqn:E; [|by destruct k].
      injection Hi as ->. rewrite lookup_insert_eq. f_equal. lia.
Qed.

Lemma StronglySorted_by_index {A} (R : A -> A -> Prop) l :
  (forall i j x y, i < j -> l !! i = Some x -> l !! j = Some y -> R x y) ->
  StronglySorted R l.
Proof.
  induction l as [|a l IH]; intros H; constructor.
  - apply IH. intros i j x y Hij Hi Hj. apply (H (S i) (S j)); [lia|done..].
  - apply Forall_forall. intros y Hy.
    apply list_elem_of_lookup in Hy as [j Hj].
    apply (H 0 (S j)); [lia|done..].
Qed.

Lemma StronglySorted_filter_bool {A} (R : A -> A -> Prop) (P : A -> bool) l :
  StronglySorted R l -> StronglySorted R (List.filter P l).
Proof.
  induction 1 as [|a l _ IH Ha]; cbn; [constructor|].
  destruct (P a); [|done]. constructor; [done|].
  by apply Forall_filter_bool.
Qed.

Lemma NoDup_map_filter_bool {A B} (f : A -> B) (P : A -> bool) l :
  NoDup (map f l) -> NoDup (map f (List.filter P l)).
Proof.
  induction l as [|a l IH]; cbn; [done|].
  intros [Ha Hl]%NoDup_cons. destruct (P a); cbn; [|by apply IH].
  apply NoDup_cons. split; [|by apply IH].
  intros (b & E & Hb)%list_elem_of_fmap. apply Ha.
  apply list_elem_of_fmap. exists b. split; [done|].
  apply list_elem_of_In. apply list_elem_of_In in Hb.
  by apply filter_In in Hb as [? _].
Qed.

Lemma flat_map_filter_bool {A B} (f : A -> list B) (P : A -> bool) l :
  (forall a, P a = false -> f a = []) ->
  flat_map f l = flat_map f (List.filter P l).
Proof.
  intros H. induction l as [|a l IH]; cbn; [done|].
  destruct (P a) eqn:E; cbn; rewrite IH; [done|].
  by rewrite (H a E).
Qed.

Lemma flat_map_ext_in {A B} (f g : A -> list B) l :
  (forall a, In a l -> f a = g a) -> flat_map f l = flat_map g l.
Proof.
  induction l as [|a l IH]; intros H; cbn; [done|].
  rewrite (H a) by (by left). rewrite IH; [done|].
  intros b Hb. apply H. by right.
Qed.

Lemma entry_app nm es1 es2 :
  FS.entry nm (es1 ++ es2)
  = match FS.entry nm es1 with
    | Some x => Some x
    | None => FS.entry nm es2
    end.
Proof.
  induction es1 as [|[n x] es1 IH]; [done|]. cbn.
  by destruct (String.eqb n nm).
Qed.

Lemma entry_insert_other nm m f es1 es2 :
  nm <> m ->
  FS.entry nm (es1 ++ (m, f) :: es2) = FS.entry nm (es1 ++ es2).
Proof.
  intros Hne. rewrite !entry_app. cbn.
  by rewrite (proj2 (String.eqb_neq m nm)).
Qed.

Lemma entry_insert_new m f es1 es2 :
  FS.entry m (es1 ++ es2) = None ->
  FS.entry m (es1 ++ (m, f) :: es2) = Some f.
Proof.
  rewrite !entry_app. destruct (FS.entry m es1); [done|]. intros _.
  cbn. by rewrite String.eqb_refl.
Qed.

Lemma preferred_map_of_lookup_None l nm :
  nm ∉ l -> preferred_map_of l !! nm = None.
Proof.
  induction l as [|x l IH] using rev_ind; intros Hnm; [done|].
  rewrite preferred_map_of_snoc.
  rewrite not_elem_of_app in Hnm. destruct Hnm as [Hl Hx].
  rewrite lookup_insert_ne; [by apply IH|].
  intros ->. apply Hx. left.
Qed.

Lemma preferred_map_of_size l : NoDup l -> size (preferred_map_of l) = List.length l.
Proof.
  induction l as [|x l IH] using rev_ind; intros Hnd; [done|].
  rewrite preferred_map_of_snoc.
  apply NoDup_app in Hnd as (Hl & Hx & _).
  rewrite map_size_insert_None.
  - rewrite IH by done. rewrite length_app. cbn. lia.
  - apply preferred_map_of_lookup_None. intros Hin. apply (Hx x Hin). left.
Qed.

Lemma StronglySorted_lookup {A} (R : A -> A -> Prop) l : forall i j x y,
  StronglySorted R l -> i < j -> l !! i = Some x -> l !! j = Some y -> R x y.
Proof.
  induction l as [|a l IH]; intros i j x y Hs Hij Hi Hj.
  { by rewrite lookup_nil in Hi. }
  apply StronglySorted_inv in Hs as [Hs Ha].
  destruct j as [|j]; [lia|]. cbn in Hj.
  destruct i as [|i]; cbn in Hi.
  - injection Hi as <-. rewrite Forall_forall in Ha. apply Ha.
    by eapply list_elem_of_lookup_2.
  - apply (IH i j); [done|lia|done..].
Qed.

(** What line 34 aims at, and reaches when no hint is repeated and the
    hash of no name is negative: in the order the loop follows, a child
    the order file lists never comes after one it does not list, and
    listed children come in the order of their hints. *)
Lemma hinted_children_first (hash : string -> Z) es order_file i j x y :
  FS.entry ".order" es = Some order_file ->
  NoDup (_load_dotfile_lines (Some order_file)) ->
  (forall s, (0 <= hash s)%Z) ->
  ordered_children hash es !! i = Some x ->
  ordered_children hash es !! j = Some y ->
  i < j ->
  (fst y ∈ _load_dotfile_lines (Some order_file) ->
   fst x ∈ _load_dotfile_lines (Some order_file))
  /\ (forall a b,
        _load_dotfile_lines (Some order_file) !! a = Some (fst x) ->
        _load_dotfile_lines (Some order_file) !! b = Some (fst y) ->
        a <= b).
Proof.
  intros Hof Hnd Hpos Hi Hj Hij. unfold ordered_children in Hi, Hj.
  rewrite Hof in Hi, Hj.
  set (hints := _load_dotfile_lines (Some order_file)) in *.
  pose proof (sort_by_sorted
                (fun e : string * node =>
                   order_key hash (preferred_map_of hints) (fst e))
                Z.ltb Z_ltb_asym Z_ltb_negtrans
                (sort_by (fun e => Str.lower (fst e)) String.ltb es)) as Hs.
  pose proof (StronglySorted_lookup _ _ i j x y Hs Hij Hi Hj) as Hxy.
  unfold keeps, order_key in Hxy. apply Z.ltb_ge in Hxy.
  assert (Hlisted : forall nm a, hints !! a = Some nm ->
                    default (Z.of_nat (size (preferred_map_of hints))
                             + hash (Str.lower nm))%Z
                            (Z.of_nat <$> preferred_map_of hints !! nm)
                    = Z.of_nat a /\ a < List.length hints).
  { intros nm a Ha. rewrite (preferred_map_of_lookup hints a nm Hnd Ha).
    split; [done|]. by eapply lookup_lt_Some. }
  assert (Hunlisted : forall nm, nm ∉ hints ->
                      (Z.of_nat (List.length hints)
                       <= default (Z.of_nat (size (preferred_map_of hints))
                                   + hash (Str.lower nm))%Z
                                  (Z.of_nat <$> preferred_map_of hints !! nm))%Z).
  { intros nm Hnm. rewrite (preferred_map_of_lookup_None hints nm Hnm).
    cbn. rewrite preferred_map_of_size by done.
    specialize (Hpos (Str.lower nm)). lia. }
  split.
  - intros Hy. destruct (decide (fst x ∈ hints)) as [|Hx]; [done|].
    apply list_elem_of_lookup in Hy as [b Hb].
    destruct (Hlisted _ _ Hb) as [Eb Hlt]. specialize (Hunlisted _ Hx).
    rewrite Eb in Hxy. lia.
  - intros a b Ha Hb.
    destruct (Hlisted _ _ Ha) as [Ea _], (Hlisted _ _ Hb) as [Eb _].
    rewrite Ea, Eb in Hxy. lia.
Qed.

Section OrderFile.

Context {Pattern : Type}.
Variable re_search : Pattern -> string -> bool.
Variable hash : string -> Z.
Variables includes excludes : list Pattern.

Abbreviation by_name :=
    (sort_by (fun e : string * node => Str.lower (fst e)) String.ltb).

(** Entries whose names are the hints, in the order of the hints, are
    in order for the second sort. *)
Lemma hinted_sorted (l : list (string * node)) hints :
  hints = map fst l -> NoDup hints ->
  StronglySorted
    (keeps (fun e => order_key hash (preferred_map_of hints) (fst e)) Z.ltb) l.
Proof.
  intros Hh Hnd. apply StronglySorted_by_index.
  intros i j x y Hij Hi Hj. unfold keeps, order_key.
  assert (Hx : hints !! i = Some (fst x))
    by (subst hints; by rewrite list_lookup_fmap, Hi).
  assert (Hy : hints !! j = Some (fst y))
    by (subst hints; by rewrite list_lookup_fmap, Hj).
  rewrite (preferred_map_of_lookup hints i _ Hnd Hx).
  rewrite (preferred_map_of_lookup hints j _ Hnd Hy).
  cbn. lia.
Qed.

Lemma visited_order_file cur f : visited cur (".order", f) = false.
Proof. unfold visited. cbn. by rewrite andb_false_r. Qed.

Lemma visit_unvisited walk' cur rel e :
  visited cur e = false -> visit re_search includes excludes walk' cur rel e = [].
Proof. intros H. unfold visit. by rewrite H. Qed.

(** With an order file that lists the children in the default order,
    the loop visits the children in the default order. *)
Lemma ordered_children_round_trip cur es1 es2 order_file :
  NoDup (map fst (es1 ++ es2)) ->
  FS.entry ".order" (es1 ++ es2) = None ->
  _load_dotfile_lines (Some order_file) = default_order (es1 ++ es2)
  \/ _load_dotfile_lines (Some order_file) = default_visited cur (es1 ++ es2) ->
  List.filter (visited cur)
              (ordered_children hash (es1 ++ (".order", order_file) :: es2))
  = List.filter (visited cur) (ordered_children hash (es1 ++ es2)).
Proof.
  intros Hnd Hno Hhints. unfold ordered_children.
  rewrite (entry_insert_new _ _ _ _ Hno), Hno.
  set (hints := _load_dotfile_lines (Some order_file)) in *.
  rewrite (filter_sort_by _ Z.ltb Z_ltb_asym Z_ltb_negtrans).
  rewrite (filter_sort_by _ String.ltb string_ltb_asym string_ltb_negtrans).
  assert (E : List.filter (visited cur) (es1 ++ (".order", order_file) :: es2)
              = List.filter (visited cur) (es1 ++ es2)).
  { rewrite !List.filter_app. cbn. by rewrite visited_order_file. }
  rewrite E.
  rewrite <- (filter_sort_by _ String.ltb string_ltb_asym string_ltb_negtrans).
  apply sort_by_sorted_id.
  assert (Hnd' : NoDup (map fst (by_name (es1 ++ es2)))).
  { by rewrite sort_by_perm. }
  destruct Hhints as [Hall|Hvis].
  - apply StronglySorted_filter_bool. apply hinted_sorted; [done|].
    by rewrite Hall.
  - apply hinted_sorted; [done|]. rewrite Hvis.
    by apply NoDup_map_filter_bool.
Qed.

Lemma walk_order_file_here fuel cur rel es1 es2 order_file :
  NoDup (map fst (es1 ++ es2)) ->
  FS.entry ".order" (es1 ++ es2) = None ->
  _load_dotfile_lines (Some order_file) = default_order (es1 ++ es2)
  \/ _load_dotfile_lines (Some order_file) = default_visited cur (es1 ++ es2) ->
  walk re_search hash includes excludes fuel cur rel
       (es1 ++ (".order", order_file) :: es2)
  = walk re_search hash includes excludes fuel cur rel (es1 ++ es2).
Proof.
  intros Hnd Hno Hhints. destruct fuel as [|fuel]; [done|]. cbn [walk].
  unfold _should_ignore, FS.has_entry.
  rewrite entry_insert_other by done.
  rewrite (flat_map_filter_bool _ (visited cur)
             (ordered_children hash (es1 ++ (".order", order_file) :: es2)))
    by apply visit_unvisited.
  rewrite (flat_map_filter_bool _ (visited cur)
             (ordered_children hash (es1 ++ es2)))
    by apply visit_unvisited.
  by rewrite ordered_children_round_trip.
Qed.

(** The tests of the loop look at the name of a child and at whether it
    is a directory, not at the folder it is in. *)
Lemma visited_anywhere cur cur' e : visited cur e = visited cur' e.
Proof.
  unfold visited, _is_valid, _is_pdf, _is_img, PurePath.suffix,
    PurePath.name, PurePath.child.
  by rewrite !last_last.
Qed.

Lemma visited_dir cur nm es es' :
  visited cur (nm, Dir es) = visited cur (nm, Dir es').
Proof. done. Qed.

Lemma has_entry_replace m nm n n' es1 es2 :
  FS.has_entry m (es1 ++ (nm, n) :: es2)
  = FS.has_entry m (es1 ++ (nm, n') :: es2).
Proof.
  unfold FS.has_entry. rewrite !entry_app. cbn.
  destruct (FS.entry m es1); [done|]. by destruct (String.eqb nm m).
Qed.

(** Replacing the folder [nm] of a listing by a folder on which [walk]
    does the same changes nothing for [walk] on the listing. *)
Lemma walk_replace_child fuel : forall cur rel es1 nm es es' es2,
  NoDup (map fst (es1 ++ (nm, Dir es) :: es2)) ->
  (forall cur' rel',
      walk re_search hash includes excludes fuel cur' rel' es'
      = walk re_search hash includes excludes fuel cur' rel' es) ->
  walk re_search hash includes excludes (S fuel) cur rel
       (es1 ++ (nm, Dir es') :: es2)
  = walk re_search hash includes excludes (S fuel) cur rel
         (es1 ++ (nm, Dir es) :: es2).
Proof.
  intros cur rel es1 nm es es' es2 Hnd Hsame. cbn [walk].
  unfold _should_ignore.
  rewrite (has_entry_replace ".ignore" nm (Dir es') (Dir es)).
  destruct (_ || _); [done|]. destruct (negb _); [done|]. f_equal.
  set (h := fun e : string * node =>
              if String.eqb (fst e) nm then (nm, Dir es') else e).
  assert (Hmap : es1 ++ (nm, Dir es') :: es2
                 = map h (es1 ++ (nm, Dir es) :: es2)).
  { rewrite map_app in Hnd. cbn in Hnd.
    apply NoDup_app in Hnd as (_ & H1 & Hnd).
    apply NoDup_cons in Hnd as [H2 _].
    rewrite map_app. cbn [map]. unfold h at 2. cbn [fst].
    rewrite String.eqb_refl. f_equal; [|f_equal].
    - rewrite <- (map_id es1) at 1. apply map_ext_in. intros e He.
      unfold h. destruct (String.eqb (fst e) nm) eqn:E; [|done].
      apply String.eqb_eq in E. exfalso. apply (H1 nm); [|left].
      apply list_elem_of_fmap. exists e. split; [done|].
      by apply list_elem_of_In.
    - rewrite <- (map_id es2) at 1. apply map_ext_in. intros e He.
      unfold h. destruct (String.eqb (fst e) nm) eqn:E; [|done].
      apply String.eqb_eq in E. exfalso. apply H2.
      apply list_elem_of_fmap. exists e. split; [done|].
      by apply list_elem_of_In. }
  assert (Hfst : forall e, fst (h e) = fst e).
  { intros e. unfold h. destruct (String.eqb (fst e) nm) eqn:E; [|done].
    apply String.eqb_eq in E. done. }
  assert (Hoc : ordered_children hash (es1 ++ (nm, Dir es') :: es2)
                = map h (ordered_children hash (es1 ++ (nm, Dir es) :: es2))).
  { unfold ordered_children.
    assert (Hhints : _load_dotfile_lines
                       (FS.entry ".order" (es1 ++ (nm, Dir es') :: es2))
                     = _load_dotfile_lines
                         (FS.entry ".order" (es1 ++ (nm, Dir es) :: es2))
                     /\ (FS.has_entry ".order" (es1 ++ (nm, Dir es') :: es2)
                         = FS.has_entry ".order" (es1 ++ (nm, Dir es) :: es2))).
    { split; [|apply has_entry_replace].
      rewrite !entry_app. cbn. destruct (FS.entry ".order" es1); [done|].
      by destruct (String.eqb nm ".order"). }
    destruct Hhints as [Hhints Hhas]. unfold FS.has_entry in Hhas.
    destruct (FS.entry ".order" (es1 ++ (nm, Dir es') :: es2)) as [o'|],
             (FS.entry ".order" (es1 ++ (nm, Dir es) :: es2)) as [o|];
      try done.
    - rewrite Hhints, Hmap.
      rewrite (sort_by_map _ String.ltb h)
        by (intros e; by rewrite Hfst).
      by rewrite (sort_by_map _ Z.ltb h) by (intros e; by rewrite Hfst).
    - rewrite Hmap.
      by rewrite (sort_by_map _ String.ltb h)
        by (intros e; by rewrite Hfst). }
  rewrite Hoc. rewrite flat_map_concat_map, map_map, <- flat_map_concat_map.
  apply flat_map_ext_in. intros e He.
  unfold h. destruct (String.eqb (fst e) nm) eqn:E; [|done].
  apply String.eqb_eq in E.
  assert (He' : e = (nm, Dir es)).
  { apply (Permutation_in _ (ordered_children_perm hash _)) in He.
    apply in_app_or in He.
    rewrite map_app in Hnd. cbn in Hnd.
    apply NoDup_app in Hnd as (_ & H1 & Hnd).
    apply NoDup_cons in Hnd as [H2 _].
    destruct He as [He|[He|He]]; [| done |].
    - exfalso. apply (H1 nm); [|left].
      apply list_elem_of_fmap. exists e. split; [done|].
      by apply list_elem_of_In.
    - exfalso. apply H2.
      apply list_elem_of_fmap. exists e. split; [done|].
      by apply list_elem_of_In. }
  subst e. unfold visit.
  rewrite (visited_dir cur nm es' es). cbn [fst snd].
  destruct (negb _); [done|]. apply Hsame.
Qed.

(** An order file none of whose lines is empty or has white space at an
    end is loaded as it is written. *)
Lemma load_dotfile_lines_clean t :
  Forall (fun l => l <> "" /\ Str.strip l = l) (Str.splitlines t) ->
  _load_dotfile_lines (Some (File (Some t))) = Str.splitlines t.
Proof.
  unfold _load_dotfile_lines. cbn [FS.read_text].
  induction 1 as [|l ls [Hne Hst] _ IH]; [done|].
  cbn [map List.filter]. rewrite Hst.
  destruct (String.eqb l "") eqn:E; [by apply String.eqb_eq in E|].
  cbn. by rewrite IH.
Qed.

Lemma with_order_file_dir n n' :
  with_order_file n n' -> n = Dir (entries_of n) /\ n' = Dir (entries_of n').
Proof. by destruct 1. Qed.

Lemma height_entry (es : list (string * node)) e :
  e ∈ es ->
  FS.height (snd e) <= foldr (fun e acc => Nat.max (FS.height (snd e)) acc) 0 es.
Proof.
  induction es as [|e' es IH]; [by intros ?%elem_of_nil|].
  intros [->|H]%elem_of_cons; cbn; [lia|]. specialize (IH H). lia.
Qed.

(** The fuel [select_paths] gives to [walk] is enough: with the height
    of the tree or more, the result is the same. *)
Lemma walk_fuel fuel1 : forall fuel2 cur rel es,
  FS.height (Dir es) <= fuel1 -> FS.height (Dir es) <= fuel2 ->
  walk re_search hash includes excludes fuel1 cur rel es
  = walk re_search hash includes excludes fuel2 cur rel es.
Proof.
  induction fuel1 as [|fuel1 IH]; intros fuel2 cur rel es H1 H2.
  { cbn in H1. lia. }
  destruct fuel2 as [|fuel2]; [cbn in H2; lia|]. cbn [walk].
  destruct (_should_ignore cur es); [done|].
  destruct (negb _); [done|]. f_equal.
  apply flat_map_ext_in. intros e He.
  apply (Permutation_in _ (ordered_children_perm hash _)) in He.
  apply list_elem_of_In, height_entry in He.
  unfold visit. destruct (negb (visited cur e)); [done|].
  destruct (snd e) as [t|es'] eqn:E; [done|].
  cbn [FS.height] in H1, H2. apply IH; cbn [FS.height] in *; lia.
Qed.

Lemma walk_with_order_file n n' :
  with_order_file n n' ->
  forall fuel cur rel,
    walk re_search hash includes excludes fuel cur rel (entries_of n')
    = walk re_search hash includes excludes fuel cur rel (entries_of n).
Proof.
  induction 1 as [es1 es2 t Hnd Hno Hhints Hclean
                 |es1 nm n n' es2 Hnd Hrel IH];
    intros fuel cur rel; cbn [entries_of].
  - apply walk_order_file_here; [done..|].
    rewrite (load_dotfile_lines_clean t Hclean).
    destruct Hhints as [Hh|Hh]; [by left|right].
    rewrite Hh. unfold default_visited. f_equal.
    apply filter_ext. intros e. apply visited_anywhere.
  - destruct (with_order_file_dir _ _ Hrel) as [En En'].
    rewrite En, En' in *. cbn [entries_of] in IH.
    destruct fuel as [|fuel]; [done|].
    apply walk_replace_child; [done|]. intros cur' rel'. apply IH.
Qed.

Lemma height_with_order_file n n' :
  with_order_file n n' -> FS.height n <= FS.height n'.
Proof.
  induction 1 as [es1 es2 t Hnd Hno Hhints Hclean
                 |es1 nm n n' es2 Hnd Hrel IH]; cbn [FS.height].
  - rewrite !foldr_app. cbn [foldr].
    apply le_n_S.
    generalize (foldr (fun e acc => Nat.max (FS.height (snd e)) acc) 0 es2).
    intros a.
    generalize (Nat.max (FS.height (snd (".order", File (Some t)))) a)
      as b, (Nat.le_max_r (FS.height (snd (".order", File (Some t)))) a).
    intros b Hab. clear -Hab.
    induction es1 as [|e es1 IH]; cbn; [done|]. lia.
  - rewrite !foldr_app. cbn [foldr snd]. apply le_n_S.
    generalize (foldr (fun e acc => Nat.max (FS.height (snd e)) acc) 0 es2).
    intros a.
    assert (Hab : Nat.max (FS.height n) a <= Nat.max (FS.height n') a) by lia.
    revert Hab.
    generalize (Nat.max (FS.height n) a), (Nat.max (FS.height n') a).
    intros b c Hbc. clear -Hbc.
    induction es1 as [|e es1 IH]; cbn; [done|]. lia.
Qed.

(** C9. Adding to a folder, anywhere in the tree, an order file whose
    lines are the names of the children of the folder in the default
    case-insensitive order, none of them empty or with white space at an
    end, changes nothing: [walk] returns the same sequence on the tree
    with the file as on the tree without it, and so does [select_paths]
    from any root at or above the folder. *)
Theorem order_file_round_trip n n' :
  with_order_file n n' ->
  (forall fuel cur rel,
      walk re_search hash includes excludes fuel cur rel (entries_of n')
      = walk re_search hash includes excludes fuel cur rel (entries_of n))
  /\ (forall fs fs' root,
         FS.lookup fs root = Some n ->
         FS.lookup fs' root = Some n' ->
         select_paths re_search hash includes excludes fs' root
         = select_paths re_search hash includes excludes fs root).
Proof.
  intros Hrel. split; [by apply walk_with_order_file|].
  intros fs fs' root Hfs Hfs'.
  destruct (with_order_file_dir _ _ Hrel) as [En En'].
  unfold select_paths. rewrite Hfs, Hfs', En, En'. f_equal.
  rewrite (walk_with_order_file _ _ Hrel).
  apply walk_fuel; [|done].
  pose proof (height_with_order_file _ _ Hrel) as H.
  by rewrite En, En' in H.
Qed.

End OrderFile.

Lemma order_file_round_trip_witness :
  with_order_file Sample.shelved Sample.shelved_ordered
  /\ select_paths Sample.re_search (Sample.hash_const 0) [] []
                  Sample.shelved_ordered []
     = select_paths Sample.re_search (Sample.hash_const 0) [] []
                    Sample.shelved [].
Proof.
  assert (H : with_order_file Sample.shelved Sample.shelved_ordered).
  { apply (order_file_below [] "docs" (Dir Sample.shelf)
             (Dir (Sample.shelf ++ [(".order", Sample.shelf_order)]))
             [("a.pdf", File None)]); [compute_done|].
    rewrite <- (app_nil_r Sample.shelf) at 1.
    apply order_file_here; [compute_done|reflexivity| |].
    - right. by vm_compute.
    - vm_compute (Str.splitlines _). repeat constructor; done. }
  split; [exact H|].
  exact (proj2 (order_file_round_trip
                  Sample.re_search (Sample.hash_const 0) [] []
                  Sample.shelved Sample.shelved_ordered H)
               Sample.shelved Sample.shelved_ordered [] eq_refl eq_refl).
Defined.

(** Without the condition on the lines the statement fails. The folder
    below holds [ x.pdf], whose name starts with a space, and [a.pdf]; the
    lines of its order file are these two names in the default order. The
    first line is loaded without its space, so it names no child: with
    the file [a.pdf] is selected before [ x.pdf], without it after. *)
Lemma order_file_round_trip_counterexample :
  (Str.splitlines <$> FS.read_text (Some Sample.spaced_order))
  = Some (default_order Sample.spaced)
  /\ default_order Sample.spaced = [" x.pdf"; "a.pdf"]
  /\ _load_dotfile_lines (Some Sample.spaced_order) = ["x.pdf"; "a.pdf"]
  /\ select_paths Sample.re_search (Sample.hash_const 0) [] []
                  (Dir (Sample.spaced ++ [(".order", Sample.spaced_order)]))
                  []
     = Some [[]; ["a.pdf"]; [" x.pdf"]]
  /\ select_paths Sample.re_search (Sample.hash_const 0) [] []
                  (Dir Sample.spaced) []
     = Some [[]; [" x.pdf"]; ["a.pdf"]]
  /\ select_paths Sample.re_search (Sample.hash_const 0) [] []
                  (Dir (Sample.spaced ++ [(".order", Sample.spaced_order)]))
                  []
     <> select_paths Sample.re_search (Sample.hash_const 0) [] []
                     (Dir Sample.spaced) [].
Proof.
  do 5 (split; [by vm_compute|]).
  intros H. vm_compute in H. discriminate H.
Qed.

(** * The pipeline *)

Lemma lookup_app p : forall fs q,
  FS.lookup fs (p ++ q) = FS.lookup fs p ≫= fun n => FS.lookup n q.
Proof.
  induction p as [|c p IH]; intros fs q; [done|]. cbn.
  destruct fs as [t|es]; [done|]. destruct (FS.entry c es); [apply IH|done].
Qed.

Lemma entry_of_elem (es : list (string * node)) nm x :
  NoDup (map fst es) -> (nm, x) ∈ es -> FS.entry nm es = Some x.
Proof.
  induction es as [|[n y] es IH]; [by intros _ ?%elem_of_nil|].
  cbn. intros [Hn Hnd]%NoDup_cons [[= -> ->]|Hin]%elem_of_cons.
  - by rewrite String.eqb_refl.
  - destruct (String.eqb n nm) eqn:E; [|by apply IH].
    apply String.eqb_eq in E as ->. exfalso. apply Hn.
    apply list_elem_of_fmap. by exists (nm, x).
Qed.

Lemma lookup_child fs cur es e :
  FS.wf fs -> FS.lookup fs cur = Some (Dir es) -> e ∈ es ->
  FS.lookup fs (PurePath.child cur (fst e)) = Some (snd e).
Proof.
  intros Hwf Hcur He. unfold PurePath.child. rewrite lookup_app, Hcur. cbn.
  pose proof (wf_lookup cur fs _ Hwf Hcur) as [Hnd _].
  rewrite (entry_of_elem es (fst e) (snd e) Hnd); [done|].
  by destruct e.
Qed.

Lemma parent_child cur nm : PurePath.parent (PurePath.child cur nm) = cur.
Proof. apply removelast_last. Qed.

Lemma name_child cur nm : PurePath.name (PurePath.child cur nm) = nm.
Proof. apply last_last. Qed.

Section Pipeline.

Context {Pattern : Type}.
Variable re_search : Pattern -> string -> bool.
Variable hash : string -> Z.
Variables includes excludes : list Pattern.
Variable fs : node.
Hypothesis fs_wf : FS.wf fs.

Lemma describable_mono sel sel' q :
  (forall p, p ∈ sel -> p ∈ sel') -> describable fs sel q -> describable fs sel' q.
Proof.
  intros Hsub [H|(Hf & Hk & Hp & Hd)]; [by left|right].
  repeat split; auto.
Qed.

Lemma walk_describable fuel : forall cur rel es,
  FS.lookup fs cur = Some (Dir es) ->
  Forall (describable fs (walk re_search hash includes excludes fuel cur rel es))
         (walk re_search hash includes excludes fuel cur rel es).
Proof.
  induction fuel as [|fuel IH]; intros cur rel es Hcur; cbn [walk];
    [constructor|].
  destruct (_should_ignore cur es); [constructor|].
  destruct (negb _); [constructor|].
  constructor; [left; eauto|].
  apply Forall_forall. intros q Hq.
  apply list_elem_of_In, in_flat_map in Hq as (e & He & Hq).
  apply list_elem_of_In in Hq.
  pose proof (Permutation_in _ (ordered_children_perm hash es) He) as He'.
  apply list_elem_of_In in He'.
  pose proof (lookup_child fs cur es e fs_wf Hcur He') as Hchild.
  unfold visit in Hq. destruct (visited cur e) eqn:Hv; cbn [negb] in Hq;
    [|by apply elem_of_nil in Hq].
  destruct (snd e) as [t|es'] eqn:Ee.
  - destruct (_match_filters _ _ _ _); [|by apply elem_of_nil in Hq].
    apply list_elem_of_singleton in Hq as ->. right.
    split; [eauto|]. rewrite parent_child.
    split; [|split; [left|eauto]].
    unfold visited, _is_valid in Hv. rewrite Ee in Hv. cbn in Hv.
    by apply andb_prop in Hv as [Hv _].
  - eapply describable_mono; [|].
    2:{ pose proof (IH (PurePath.child cur (fst e)) (rel ++ [fst e]) es'
                       Hchild) as Hall.
        rewrite Forall_forall in Hall. by apply Hall. }
    intros p Hp. right.
    apply list_elem_of_In, in_flat_map. exists e. split; [done|].
    apply list_elem_of_In. unfold visit. by rewrite Hv, Ee.
Qed.

(** The first loop of the describer records every selected directory. *)
Lemma describe_folders_lookup files p es :
  p ∈ files -> FS.lookup fs p = Some (Dir es) ->
  describe_folders fs files !! p = Some (_describe_folder p es).
Proof.
  unfold describe_folders. intros Hin Hp.
  assert (G : forall (m : gmap Path Item),
             p ∈ files \/ m !! p = Some (_describe_folder p es) ->
             foldl (fun m p => match FS.lookup fs p with
                               | Some (Dir es) => <[p := _describe_folder p es]> m
                               | _ => m
                               end) m files !! p
             = Some (_describe_folder p es)).
  { clear Hin. induction files as [|q files IH]; intros m [Hin|Hm]; cbn [foldl].
    - by apply elem_of_nil in Hin.
    - done.
    - apply IH. apply elem_of_cons in Hin as [<-|Hin]; [right|by left].
      rewrite Hp. apply lookup_insert_eq.
    - apply IH. right.
      destruct (FS.lookup fs q) as [[t|es']|] eqn:Eq; [done| |done].
      destruct (decide (q = p)) as [->|Hne].
      + rewrite Hp in Eq. injection Eq as <-. apply lookup_insert_eq.
      + by rewrite lookup_insert_ne. }
  apply G. by left.
Qed.

Lemma describe_folders_values files p x :
  describe_folders fs files !! p = Some x ->
  exists es, FS.lookup fs p = Some (Dir es) /\ x = _describe_folder p es.
Proof.
  unfold describe_folders.
  assert (G : forall (m : gmap Path Item),
             (forall p x, m !! p = Some x ->
                          exists es, FS.lookup fs p = Some (Dir es)
                                     /\ x = _describe_folder p es) ->
             forall p x,
               foldl (fun m p => match FS.lookup fs p with
                                 | Some (Dir es) =>
                                     <[p := _describe_folder p es]> m
                                 | _ => m
                                 end) m files !! p = Some x ->
               exists es, FS.lookup fs p = Some (Dir es)
                          /\ x = _describe_folder p es).
  { induction files as [|q files IH]; intros m Hm; cbn [foldl]; [done|].
    apply IH. destruct (FS.lookup fs q) as [[t|es']|] eqn:Eq; [done| |done].
    intros p' x' Hx.
    destruct (decide (q = p')) as [->|Hne].
    - rewrite lookup_insert_eq in Hx. injection Hx as <-. eauto.
    - rewrite lookup_insert_ne in Hx by done. by apply Hm. }
  apply G. intros p' x' Hx. by rewrite lookup_empty in Hx.
Qed.

(** The second loop returns on a describable fs selection, and its entries
    are the folder entries of the first loop and the entries of files. *)
Lemma describe_entries_total sel files :
  (forall p, p ∈ files -> p ∈ sel) ->
  Forall (describable fs sel) files ->
  exists tree,
    describe_entries fs (describe_folders fs sel) files = Some tree
    /\ (forall p es, p ∈ files -> FS.lookup fs p = Some (Dir es) ->
                     _describe_folder p es ∈ tree)
    /\ (forall x, x ∈ tree ->
                  (exists es, path x ∈ files
                              /\ FS.lookup fs (path x) = Some (Dir es)
                              /\ x = _describe_folder (path x) es)
                  \/ (type x <> folder /\ path x ∈ files
                      /\ (forall es, FS.lookup fs (path x) <> Some (Dir es))
                      /\ pages x = None /\ page x = None)).
Proof.
  intros Hsub Hall. induction Hall as [|p files Hp _ IH].
  { exists []. split; [done|]. split.
    - by intros p es ?%elem_of_nil.
    - by intros x ?%elem_of_nil. }
  destruct IH as (rest & Hrest & Hdirs & Hitems).
  { intros q Hq. apply Hsub. by right. }
  cbn [describe_entries]. rewrite Hrest.
  assert (Hlift : forall x,
            ((exists es, path x ∈ files
                         /\ FS.lookup fs (path x) = Some (Dir es)
                         /\ x = _describe_folder (path x) es)
             \/ (type x <> folder /\ path x ∈ files
                 /\ (forall es, FS.lookup fs (path x) <> Some (Dir es))
                 /\ pages x = None /\ page x = None)) ->
            (exists es, path x ∈ p :: files
                        /\ FS.lookup fs (path x) = Some (Dir es)
                        /\ x = _describe_folder (path x) es)
            \/ (type x <> folder /\ path x ∈ p :: files
                /\ (forall es, FS.lookup fs (path x) <> Some (Dir es))
                /\ pages x = None /\ page x = None)).
  { intros x [(es & H1 & H2 & H3)|(H1 & H2 & H3)].
    - left. exists es. split; [by right|done].
    - right. split; [done|]. split; [by right|done]. }
  destruct Hp as [[es Hdir]|((t & Hfile) & Hkind & Hpar & (es & Hpdir))].
  - rewrite Hdir.
    rewrite (describe_folders_lookup sel p es (Hsub p (list_elem_of_here _ _))
               Hdir).
    cbn. eexists. split; [reflexivity|]. split.
    + intros q es' [->|Hq]%elem_of_cons Hq'.
      * rewrite Hdir in Hq'. injection Hq' as <-. left.
      * right. by eapply Hdirs.
    + intros x [->|Hx]%elem_of_cons.
      * left. exists es. cbn. split; [left|done].
      * apply Hlift. by apply Hitems.
  - rewrite Hfile.
    rewrite (describe_folders_lookup sel _ es Hpar Hpdir). cbn.
    eexists. split; [reflexivity|]. split.
    + intros q es' [->|Hq]%elem_of_cons Hq'.
      * congruence.
      * unfold _describe_file. repeat case_match; try right; by eapply Hdirs.
    + intros x Hx. unfold _describe_file in Hx.
      assert (Hnew : forall k lbl,
                k <> folder ->
                x ∈ mkItem k p None ∅ lbl false None None :: rest ->
                (exists es, path x ∈ p :: files
                            /\ FS.lookup fs (path x) = Some (Dir es)
                            /\ x = _describe_folder (path x) es)
                \/ (type x <> folder /\ path x ∈ p :: files
                    /\ (forall es, FS.lookup fs (path x) <> Some (Dir es))
                    /\ pages x = None /\ page x = None)).
      { intros k lbl Hk [->|Hx']%elem_of_cons.
        - right. cbn. split; [done|]. split; [left|].
          split; [|done]. intros es'. congruence.
        - apply Hlift. by apply Hitems. }
      destruct (_is_pdf p); [exact (Hnew pdf _ ltac:(done) Hx)|].
      destruct (_is_img p); [exact (Hnew img _ ltac:(done) Hx)|].
      apply Hlift. by apply Hitems.
Qed.

(** On a well-formed snapshot whose root is a directory, selection and
    description return, and the entries they produce are what [merge]
    expects: every image has the entry of its folder, and no entry has a
    page count or a start page yet. *)
Lemma pipeline_tree root es :
  FS.lookup fs root = Some (Dir es) ->
  exists files tree,
    select_paths re_search hash includes excludes fs root = Some files
    /\ build_tree_description fs files = Some tree
    /\ parents_present tree
    /\ fresh tree.
Proof.
  intros Hroot. unfold select_paths. rewrite Hroot.
  eexists. 
  pose proof (walk_describable (FS.height (Dir es)) root [] es Hroot) as Hall.
  destruct (describe_entries_total _ _ (fun p H => H) Hall)
    as (tree & Htree & Hdirs & Hitems).
  exists tree. split; [reflexivity|]. split; [exact Htree|].
  split.
  - apply Forall_forall. intros x Hx Himg.
    destruct (Hitems x Hx) as [(es' & _ & _ & E)|(_ & Hin & _ & _)].
    { rewrite E in Himg. discriminate. }
    rewrite Forall_forall in Hall.
    destruct (Hall _ Hin) as [[es' Hd]|(_ & _ & Hpar & (es' & Hpd))].
    { destruct (Hitems x Hx) as [(? & _ & _ & E)|(_ & _ & Hnd & _)].
      - rewrite E in Himg. discriminate.
      - by destruct (Hnd es'). }
    apply Exists_exists. exists (_describe_folder (PurePath.parent (path x)) es').
    split; [by eapply Hdirs|]. done.
  - apply Forall_forall. intros x Hx.
    destruct (Hitems x Hx) as [(es' & _ & _ & ->)|(_ & _ & _ & ? & ?)]; done.
Qed.

End Pipeline.

(** A whole run on a well-formed snapshot whose root is a directory
    returns when the reader opens every PDF, the converter converts every
    image and the writer accepts every outline item, and numbers the
    entries by the cursor. *)
Lemma compile_pagination {Pattern : Type}
        (re_search : Pattern -> string -> bool) (hash : string -> Z)
        (read_pdf : Path -> option nat)
        (convert_img : Path -> option string -> nat -> option (Path * nat))
        (outline_raises : PdfWriter -> string -> nat -> option nat -> bool)
        fs root es includes excludes pretty_labels page_size dpi :
  FS.wf fs ->
  FS.lookup fs root = Some (Dir es) ->
  (forall w t pg parent, outline_raises w t pg parent = false) ->
  (forall p, is_Some (read_pdf p)) ->
  (forall p, is_Some (convert_img p page_size dpi)) ->
  exists st tree',
    compile re_search hash read_pdf convert_img outline_raises
            fs root includes excludes pretty_labels page_size dpi
    = Some (st, tree')
    /\ map page tree' = map Some (cursor_before 0 (map advance tree'))
    /\ page_index st = sum_list (map advance tree').
Proof.
  intros Hwf Hroot Hok Hrd Hcv.
  destruct (pipeline_tree re_search hash includes excludes fs Hwf root es Hroot)
    as (files & tree & Hsel & Htree & Hpar & Hfresh).
  unfold compile. rewrite Hsel. cbn. rewrite Htree. cbn.
  destruct (merge_total read_pdf convert_img outline_raises
                        tree [] pretty_labels page_size dpi Hok)
    as [[st tree'] Hm]; [|done|].
  { apply Forall_forall. intros x _. split; intros _; [apply Hrd|apply Hcv]. }
  exists st, tree'. split; [done|].
  apply merge_result in Hm as [-> ->].
  assert (Hfold : Forall (fun x => type x = folder -> pages x = None) tree).
  { eapply Forall_impl; [exact Hfresh|]. by intros x [? _] _. }
  pose proof (merged_folders_uncounted read_pdf tree 0 Hfold) as Hunc.
  rewrite (advance_uncounted _ Hunc), number_from_get_pages.
  split; [apply number_from_page|done].
Qed.

(** * Title files across the snapshot *)

Section Retitle.

Variable t : Path -> option string.

(** what [retitle] does to one entry of the folder [p] *)
Abbreviation retitled p :=
    (fun e : string * node =>
       (fst e,
        match snd e with
        | File _ => if String.eqb (fst e) ".title" then File (t p) else snd e
        | Dir _ => retitle t (p ++ [fst e]) (snd e)
        end)).

Lemma retitle_dir p es : retitle t p (Dir es) = Dir (map (retitled p) es).
Proof. done. Qed.

Lemma retitled_is_dir p e :
  FS.is_dir (snd (retitled p e)) = FS.is_dir (snd e).
Proof. destruct e as [n [x|es]]; cbn; [|done]. by destruct (String.eqb n _). Qed.

Lemma entry_retitled p nm es :
  FS.entry nm (map (retitled p) es)
  = (fun x => snd (retitled p (nm, x))) <$> FS.entry nm es.
Proof.
  induction es as [|[n x] es IH]; [done|]. cbn [map FS.entry fst snd].
  destruct (String.eqb n nm) eqn:E; [|apply IH].
  apply String.eqb_eq in E as ->. done.
Qed.

Lemma has_entry_retitled p nm es :
  FS.has_entry nm (map (retitled p) es) = FS.has_entry nm es.
Proof.
  unfold FS.has_entry. rewrite entry_retitled.
  by destruct (FS.entry nm es).
Qed.

(** A marker file other than the title file reads the same. *)
Lemma read_entry_retitled p nm es :
  nm <> ".title" ->
  FS.read_text (FS.entry nm (map (retitled p) es))
  = FS.read_text (FS.entry nm es).
Proof.
  intros Hne. rewrite entry_retitled.
  destruct (FS.entry nm es) as [[x|es']|]; cbn; [|done..].
  by rewrite (proj2 (String.eqb_neq nm ".title")).
Qed.

Lemma load_order_retitled p es :
  match FS.entry ".order" (map (retitled p) es) with
  | Some f => Some (_load_dotfile_lines (Some f))
  | None => None
  end
  = match FS.entry ".order" es with
    | Some f => Some (_load_dotfile_lines (Some f))
    | None => None
    end.
Proof.
  rewrite entry_retitled.
  destruct (FS.entry ".order" es) as [[x|es']|]; cbn; done.
Qed.

Lemma ordered_children_retitled hash p es :
  ordered_children hash (map (retitled p) es)
  = map (retitled p) (ordered_children hash es).
Proof.
  unfold ordered_children.
  pose proof (load_order_retitled p es) as H.
  destruct (FS.entry ".order" (map (retitled p) es)) as [f'|],
           (FS.entry ".order" es) as [f|]; try done.
  - injection H as ->.
    rewrite (sort_by_map _ String.ltb (retitled p)) by done.
    by rewrite (sort_by_map _ Z.ltb (retitled p)) by done.
  - by rewrite (sort_by_map _ String.ltb (retitled p)) by done.
Qed.

Lemma visited_retitled cur p e : visited cur (retitled p e) = visited cur e.
Proof.
  unfold visited, _is_valid. cbn [fst]. by rewrite retitled_is_dir.
Qed.

Section Walk.

Context {Pattern : Type}.
Variable re_search : Pattern -> string -> bool.
Variable hash : string -> Z.
Variables includes excludes : list Pattern.

(** [walk] does not look into title files. *)
Lemma walk_retitled fuel : forall p cur rel es,
  walk re_search hash includes excludes fuel cur rel (map (retitled p) es)
  = walk re_search hash includes excludes fuel cur rel es.
Proof.
  induction fuel as [|fuel IH]; intros p cur rel es; [done|]. cbn [walk].
  unfold _should_ignore. rewrite has_entry_retitled.
  destruct (_ || _); [done|]. destruct (negb _); [done|]. f_equal.
  rewrite ordered_children_retitled.
  rewrite flat_map_concat_map, map_map, <- flat_map_concat_map.
  apply flat_map_ext_in. intros e _.
  unfold visit. rewrite visited_retitled.
  destruct (negb (visited cur e)); [done|].
  destruct e as [n [x|es']]; cbn [fst snd].
  - by destruct (String.eqb n ".title").
  - rewrite retitle_dir. apply IH.
Qed.

End Walk.

Lemma height_retitle k : forall p n,
  FS.height n <= k -> FS.height (retitle t p n) = FS.height n.
Proof.
  induction k as [|k IH]; intros p [x|es] Hk; try done.
  { cbn in Hk. lia. }
  rewrite retitle_dir. cbn [FS.height] in *. f_equal.
  assert (Hall : forall e, e ∈ es -> FS.height (snd e) <= k).
  { intros e He. apply height_entry in He. lia. }
  clear Hk. induction es as [|e es IHes]; [done|].
  cbn [map foldr]. rewrite IHes by (intros e' He'; apply Hall; by right).
  f_equal. destruct e as [n [x|es']]; cbn [fst snd].
  - by destruct (String.eqb n ".title").
  - apply IH. apply (Hall (n, Dir es')). left.
Qed.

Lemma lookup_retitle q : forall p fs,
  match FS.lookup fs q with
  | Some (Dir es) =>
      FS.lookup (retitle t p fs) q = Some (retitle t (p ++ q) (Dir es))
  | Some (File _) => exists x, FS.lookup (retitle t p fs) q = Some (File x)
  | None => FS.lookup (retitle t p fs) q = None
  end.
Proof.
  induction q as [|c q IH]; intros p fs.
  - cbn. rewrite app_nil_r. destruct fs; eauto.
  - cbn [FS.lookup]. destruct fs as [x|es]; [done|].
    rewrite retitle_dir. cbn [FS.lookup]. rewrite entry_retitled.
    destruct (FS.entry c es) as [[x|es']|]; cbn [fmap option_fmap option_map
                                                   fst snd]; [| |done].
    + destruct q; cbn; [|by destruct (String.eqb c ".title")].
      destruct (String.eqb c ".title"); eauto.
    + specialize (IH (p ++ [c]) (Dir es')).
      replace (p ++ c :: q) with ((p ++ [c]) ++ q) by (by rewrite <- app_assoc).
      exact IH.
Qed.

Lemma resolve_labels_retitled p es :
  _resolve_labels (map (retitled p) es) = _resolve_labels es.
Proof.
  unfold _resolve_labels.
  pose proof (read_entry_retitled p ".label" es ltac:(done)) as Hrd.
  pose proof (has_entry_retitled p ".label" es) as Hhas.
  unfold FS.has_entry in Hhas.
  destruct (FS.entry ".label" (map (retitled p) es)) as [f'|],
           (FS.entry ".label" es) as [f|]; try done.
  by rewrite Hrd.
Qed.

Lemma existsb_files_retitled (f : string -> bool) p es :
  existsb (fun e => f (fst e))
          (List.filter (fun e => FS.is_file (snd e)) (map (retitled p) es))
  = existsb (fun e => f (fst e))
            (List.filter (fun e => FS.is_file (snd e)) es).
Proof.
  unfold FS.is_file. induction es as [|e es IHes]; [done|].
  cbn [map List.filter]. rewrite retitled_is_dir.
  destruct (negb (FS.is_dir (snd e))); cbn [existsb fst]; by rewrite IHes.
Qed.

(** The text of title files reaches the [title] of folder entries and
    nothing else of them. *)
Lemma describe_folder_retitled cur p es :
  untitled (_describe_folder cur (map (retitled p) es))
  = untitled (_describe_folder cur es).
Proof.
  unfold _describe_folder, untitled.
  cbn [type path labels label only_images pages page].
  rewrite resolve_labels_retitled.
  rewrite !(existsb_files_retitled (fun n => _is_pdf (PurePath.child cur n))).
  by rewrite !(existsb_files_retitled
                 (fun n => _is_img (PurePath.child cur n))).
Qed.

Variable fs : node.

Lemma describe_folders_retitled files :
  untitled <$> describe_folders (retitle t [] fs) files
  = untitled <$> describe_folders fs files.
Proof.
  unfold describe_folders.
  assert (G : forall (m m' : gmap Path Item),
             untitled <$> m' = untitled <$> m ->
             untitled <$> foldl (fun m p =>
                                   match FS.lookup (retitle t [] fs) p with
                                   | Some (Dir es) =>
                                       <[p := _describe_folder p es]> m
                                   | _ => m
                                   end) m' files
             = untitled <$> foldl (fun m p =>
                                     match FS.lookup fs p with
                                     | Some (Dir es) =>
                                         <[p := _describe_folder p es]> m
                                     | _ => m
                                     end) m files).
  { induction files as [|q files IH]; intros m m' Hm; cbn [foldl]; [done|].
    apply IH. pose proof (lookup_retitle q [] fs) as Hq.
    destruct (FS.lookup fs q) as [[x|es]|].
    - destruct Hq as [x' ->]. done.
    - rewrite Hq, retitle_dir. rewrite !fmap_insert.
      by rewrite describe_folder_retitled, Hm.
    - by rewrite Hq. }
  by apply G.
Qed.

Lemma describe_entries_retitled folders folders' files :
  untitled <$> folders' = untitled <$> folders ->
  fmap (map untitled) (describe_entries (retitle t [] fs) folders' files)
  = fmap (map untitled) (describe_entries fs folders files).
Proof.
  intros Hf.
  assert (Hk : forall k, untitled <$> (folders' !! k)
                         = untitled <$> (folders !! k)).
  { intros k. by rewrite <- !lookup_fmap, Hf. }
  induction files as [|q files IH]; [done|]. cbn [describe_entries].
  pose proof (lookup_retitle q [] fs) as Hq.
  assert (Hfile : fmap (map untitled)
                    (fld ← folders' !! PurePath.parent q;
                     rest ← describe_entries (retitle t [] fs) folders' files;
                     Some (match _describe_file q fld with
                           | Some d => d :: rest
                           | None => rest
                           end))
                  = fmap (map untitled)
                      (fld ← folders !! PurePath.parent q;
                       rest ← describe_entries fs folders files;
                       Some (match _describe_file q fld with
                             | Some d => d :: rest
                             | None => rest
                             end))).
  { specialize (Hk (PurePath.parent q)).
    destruct (folders' !! PurePath.parent q) as [fld'|],
             (folders !! PurePath.parent q) as [fld|]; try done.
    cbn in Hk. apply (inj Some) in Hk. cbn.
    destruct (describe_entries (retitle t [] fs) folders' files) as [rest'|],
             (describe_entries fs folders files) as [rest|]; try done.
    cbn in *. apply (inj Some) in IH. f_equal.
    assert (El : labels fld' = labels fld) by exact (f_equal labels Hk).
    unfold _describe_file. rewrite El.
    destruct (_is_pdf q); [cbn; by rewrite IH|].
    destruct (_is_img q); [cbn; by rewrite IH|]. done. }
  destruct (FS.lookup fs q) as [[x|es]|].
  - destruct Hq as [x' ->]. exact Hfile.
  - rewrite Hq, retitle_dir. specialize (Hk q).
    destruct (folders' !! q) as [d'|], (folders !! q) as [d|]; try done.
    cbn in Hk. apply (inj Some) in Hk. cbn.
    destruct (describe_entries (retitle t [] fs) folders' files) as [rest'|],
             (describe_entries fs folders files) as [rest|]; try done.
    cbn in *. apply (inj Some) in IH. by rewrite Hk, IH.
  - rewrite Hq. exact Hfile.
Qed.

Lemma build_tree_description_retitled files :
  fmap (map untitled) (build_tree_description (retitle t [] fs) files)
  = fmap (map untitled) (build_tree_description fs files).
Proof.
  apply describe_entries_retitled, describe_folders_retitled.
Qed.

End Retitle.

Section TitleIndependence.

Context {Pattern : Type}.
Variable re_search : Pattern -> string -> bool.
Variable hash : string -> Z.
Variable read_pdf : Path -> option nat.
Variable convert_img : Path -> option string -> nat -> option (Path * nat).
Variable outline_raises : PdfWriter -> string -> nat -> option nat -> bool.

Lemma select_paths_retitled t fs root includes excludes :
  select_paths re_search hash includes excludes (retitle t [] fs) root
  = select_paths re_search hash includes excludes fs root.
Proof.
  unfold select_paths. pose proof (lookup_retitle t root [] fs) as H.
  destruct (FS.lookup fs root) as [[x|es]|].
  - by destruct H as [x' ->].
  - rewrite H. cbn [app]. rewrite retitle_dir. f_equal.
    rewrite walk_retitled. f_equal.
    rewrite <- retitle_dir. by apply (height_retitle t (FS.height (Dir es))).
  - by rewrite H.
Qed.

(** The run on a snapshot does not depend on the text of its title
    files. *)
Lemma compile_retitled t fs root includes excludes pretty_labels page_size dpi :
  fst <$> compile re_search hash read_pdf convert_img outline_raises
                  (retitle t [] fs) root includes excludes
                  pretty_labels page_size dpi
  = fst <$> compile re_search hash read_pdf convert_img outline_raises
                    fs root includes excludes pretty_labels page_size dpi.
Proof.
  unfold compile. rewrite select_paths_retitled.
  destruct (select_paths _ _ _ _ fs root) as [files|]; [|done]. cbn.
  pose proof (build_tree_description_retitled t fs files) as H.
  destruct (build_tree_description (retitle t [] fs) files) as [tree'|],
           (build_tree_description fs files) as [tree|]; try done.
  cbn in *. apply (inj Some) in H. by apply merge_agree_untitled.
Qed.

(** C10. The [title] of a folder entry, which [_resolve_title] fills
    from the title file, is never read by [merge]: two entry sequences
    that agree on everything but their titles yield the same outcome, the
    same writer with the same outline in it and the same cursor, or an
    exception for both. The outline item of a folder is titled with its
    label, and without a label with the stem of its path (its base name
    without the last suffix), prettified on request. And a whole run,
    from selection to assembly, yields the same writer and outline
    whatever text the title files of the snapshot hold. *)
Theorem title_never_consulted tree1 tree2 out pretty_labels page_size dpi :
  map untitled tree1 = map untitled tree2 ->
  fst <$> merge read_pdf convert_img outline_raises
                tree1 out pretty_labels page_size dpi
  = fst <$> merge read_pdf convert_img outline_raises
                  tree2 out pretty_labels page_size dpi
  /\ (forall w item parent pg,
         type item = folder -> page item = Some pg ->
         let lbl := match label item with
                    | Some l => l
                    | None =>
                        if pretty_labels
                        then _prettify_label (PurePath.stem (path item))
                        else PurePath.stem (path item)
                    end in
         outline_raises w lbl pg parent = false ->
         _add_outline outline_raises w item parent pretty_labels
         = Some (mkWriter (w_pages w)
                          (w_outline w ++ [mkOutline lbl pg parent]),
                 Some (List.length (w_outline w))))
  /\ (forall t fs root includes excludes,
         fst <$> compile re_search hash read_pdf convert_img outline_raises
                         (retitle t [] fs) root includes excludes
                         pretty_labels page_size dpi
         = fst <$> compile re_search hash read_pdf convert_img outline_raises
                           fs root includes excludes
                           pretty_labels page_size dpi).
Proof.
  intros Heq. split; [|split].
  - by apply merge_agree_untitled.
  - intros w item parent pg Hty Hpg lbl Hok. subst lbl.
    by apply add_outline_folder.
  - intros t fs root includes excludes. apply compile_retitled.
Qed.

End TitleIndependence.

Lemma title_never_consulted_witness :
  map untitled (Sample.titled "Report" "Annex")
  = map untitled (Sample.titled "r" "s_t")
  /\ fst <$> merge Sample.read_pdf Sample.convert_img Sample.outline_raises
                   (Sample.titled "Report" "Annex") [] true (Some "letter") 150
     = fst <$> merge Sample.read_pdf Sample.convert_img Sample.outline_raises
                     (Sample.titled "r" "s_t") [] true (Some "letter") 150.
Proof.
  assert (H : map untitled (Sample.titled "Report" "Annex")
              = map untitled (Sample.titled "r" "s_t")) by reflexivity.
  split; [exact H|].
  exact (proj1 (title_never_consulted
                  Sample.re_search (Sample.hash_const 0)
                  Sample.read_pdf Sample.convert_img Sample.outline_raises
                  (Sample.titled "Report" "Annex") (Sample.titled "r" "s_t")
                  [] true (Some "letter") 150 H)).
Defined.

(** The title of the outline item of a folder is not always its base
    name: the folder [v1.2_notes] is titled [v1], and [V1] on request,
    the stem of its name. *)
Lemma title_never_consulted_counterexample :
  (fun r => map o_title (w_outline (writer (fst r))))
  <$> compile Sample.re_search (Sample.hash_const 0) Sample.read_pdf
              Sample.convert_img Sample.outline_raises
              Sample.dotted ["v1.2_notes"] [] [] false None 150
  = Some ["v1"; "a"]
  /\ (fun r => map o_title (w_outline (writer (fst r))))
     <$> compile Sample.re_search (Sample.hash_const 0) Sample.read_pdf
                 Sample.convert_img Sample.outline_raises
                 Sample.dotted ["v1.2_notes"] [] [] true None 150
     = Some ["V1"; "A"]
  /\ PurePath.name ["v1.2_notes"] = "v1.2_notes"
  /\ _prettify_label (PurePath.name ["v1.2_notes"]) = "V1.2 notes"
  /\ "v1" <> PurePath.name ["v1.2_notes"]
  /\ "V1" <> _prettify_label (PurePath.name ["v1.2_notes"]).
Proof. repeat split; by vm_compute. Qed.

(** The titles [Documents] and [Part two] of the title files appear
    nowhere in the outline of the run. *)
Example titled_tree_outline :
  (fun r => w_outline (writer (fst r)))
  <$> compile Sample.re_search (Sample.hash_const 0) Sample.read_pdf
              Sample.convert_img Sample.outline_raises
              Sample.titled_tree ["docs"] [] [] true (Some "letter") 150
  = Some [ mkOutline "Docs" 0 None; mkOutline "A" 0 (Some 0);
           mkOutline "Sub dir" 3 (Some 0); mkOutline "B" 3 (Some 2) ].
Proof. by vm_compute. Qed.

(** * Further properties of the selection *)

Lemma prefix_between (cur : Path) n d q :
  cur `prefix_of` d -> d `prefix_of` q -> cur ++ [n] `prefix_of` q ->
  d = cur \/ cur ++ [n] `prefix_of` d.
Proof.
  intros [kd ->] [kq ->] [k' H].
  rewrite <- !app_assoc in H. apply app_inv_head in H.
  destruct kd as [|c kd]; [left; by rewrite app_nil_r|right].
  cbn in H. injection H as -> _.
  exists kd. by rewrite <- app_assoc.
Qed.

Lemma prefix_antisym (l1 l2 : Path) :
  l1 `prefix_of` l2 -> l2 `prefix_of` l1 -> l1 = l2.
Proof.
  intros H1 H2. apply prefix_length_eq; [done|]. by apply prefix_length.
Qed.

Section SelectionFacts.

Context {Pattern : Type}.
Variable re_search : Pattern -> string -> bool.
Variable hash : string -> Z.
Variables includes excludes : list Pattern.

Abbreviation walk2 := (walk re_search hash includes excludes).

Lemma walk_head fuel cur rel es :
  walk2 fuel cur rel es = []
  \/ exists rest, walk2 fuel cur rel es = cur :: rest.
Proof.
  destruct fuel as [|fuel]; [by left|]. cbn [walk].
  destruct (_should_ignore cur es); [by left|].
  destruct (negb _); [by left|]. right. eauto.
Qed.

(** What [walk] selects lies below the folder, passes the filters with
    its relative path, and has no dot-prefixed component below the
    folder. *)
Lemma walk_passes_filters fuel : forall cur rel es q,
  q ∈ walk2 fuel cur rel es ->
  exists k,
    q = cur ++ k
    /\ _match_filters re_search (rel ++ k) includes excludes = true
    /\ Forall (fun c => Str.starts_with_dot c = false) k.
Proof.
  induction fuel as [|fuel IH]; intros cur rel es q; cbn [walk].
  { by intros ?%elem_of_nil. }
  destruct (_should_ignore cur es); [by intros ?%elem_of_nil|].
  destruct (_match_filters re_search rel includes excludes) eqn:Hf;
    cbn [negb]; [|by intros ?%elem_of_nil].
  intros [->|Hq]%elem_of_cons.
  { exists []. rewrite !app_nil_r. repeat split; [done|constructor]. }
  apply list_elem_of_In, in_flat_map in Hq as (e & _ & Hq).
  apply list_elem_of_In in Hq. unfold visit in Hq.
  destruct (visited cur e) eqn:Hv; cbn [negb] in Hq;
    [|by apply elem_of_nil in Hq].
  assert (Hdot : Str.starts_with_dot (fst e) = false).
  { unfold visited in Hv. apply andb_prop in Hv as [_ Hv].
    apply negb_true_iff, orb_false_iff in Hv as [Hv _]. done. }
  destruct (snd e) as [t|es'].
  - destruct (_match_filters re_search (PurePath.child rel (fst e)) _ _)
      eqn:Hf'; [|by apply elem_of_nil in Hq].
    apply list_elem_of_singleton in Hq as ->.
    exists [fst e]. repeat split; [done|]. by constructor.
  - apply IH in Hq as (k & -> & Hk & Hdots).
    exists (fst e :: k). unfold PurePath.child.
    rewrite <- !app_assoc in *. repeat split; [done|]. by constructor.
Qed.

(** Every selected path but the folder itself has its parent selected. *)
Lemma walk_parent fuel : forall cur rel es q,
  q ∈ walk2 fuel cur rel es ->
  q = cur \/ PurePath.parent q ∈ walk2 fuel cur rel es.
Proof.
  induction fuel as [|fuel IH]; intros cur rel es q; cbn [walk].
  { by intros ?%elem_of_nil. }
  destruct (_should_ignore cur es); [by intros ?%elem_of_nil|].
  destruct (negb _); [by intros ?%elem_of_nil|].
  intros [->|Hq]%elem_of_cons; [by left|right].
  apply list_elem_of_In, in_flat_map in Hq as (e & He & Hq).
  apply list_elem_of_In in Hq.
  assert (Hsub : forall p, p ∈ visit re_search includes excludes
                                  (walk2 fuel) cur rel e ->
                 p ∈ cur :: flat_map (visit re_search includes excludes
                                            (walk2 fuel) cur rel)
                                     (ordered_children hash es)).
  { intros p Hp. right. apply list_elem_of_In, in_flat_map.
    exists e. split; [done|]. by apply list_elem_of_In. }
  unfold visit in Hq, Hsub.
  destruct (negb (visited cur e)); [by apply elem_of_nil in Hq|].
  destruct (snd e) as [t|es'].
  - destruct (_match_filters _ _ _ _); [|by apply elem_of_nil in Hq].
    apply list_elem_of_singleton in Hq as ->.
    rewrite parent_child. left.
  - destruct (IH _ _ _ _ Hq) as [->|Hp].
    + rewrite parent_child. left.
    + by apply Hsub.
Qed.

Variable fs : node.
Hypothesis fs_wf : FS.wf fs.

(** No folder between the walked folder and a selected path is marked
    as ignored. *)
Lemma walk_not_ignored fuel : forall cur rel es q d es_d,
  FS.lookup fs cur = Some (Dir es) ->
  q ∈ walk2 fuel cur rel es ->
  cur `prefix_of` d -> d `prefix_of` q ->
  FS.lookup fs d = Some (Dir es_d) ->
  _should_ignore d es_d = false.
Proof.
  induction fuel as [|fuel IH]; intros cur rel es q d es_d Hcur; cbn [walk].
  { by intros ?%elem_of_nil. }
  destruct (_should_ignore cur es) eqn:Hign; [by intros ?%elem_of_nil|].
  destruct (negb _); [by intros ?%elem_of_nil|].
  intros [->|Hq]%elem_of_cons Hcd Hdq Hd.
  { assert (d = cur) as -> by (by apply prefix_antisym).
    rewrite Hcur in Hd. by injection Hd as <-. }
  apply list_elem_of_In, in_flat_map in Hq as (e & He & Hq).
  apply list_elem_of_In in Hq.
  pose proof (Permutation_in _ (ordered_children_perm hash es) He) as He'.
  apply list_elem_of_In in He'.
  pose proof (lookup_child fs cur es e fs_wf Hcur He') as Hchild.
  pose proof (visit_prefix re_search hash includes excludes fuel cur rel e)
    as Hpre.
  rewrite Forall_forall in Hpre. specialize (Hpre q Hq).
  destruct (prefix_between cur (fst e) d q Hcd Hdq Hpre) as [->|Hcd'].
  { rewrite Hcur in Hd. by injection Hd as <-. }
  unfold visit in Hq.
  destruct (negb (visited cur e)); [by apply elem_of_nil in Hq|].
  destruct (snd e) as [t|es'] eqn:Ee.
  - destruct (_match_filters _ _ _ _); [|by apply elem_of_nil in Hq].
    apply list_elem_of_singleton in Hq as ->.
    assert (d = PurePath.child cur (fst e)) as ->
      by (by apply prefix_antisym).
    congruence.
  - by apply (IH (PurePath.child cur (fst e)) (rel ++ [fst e]) es' q d es_d).
Qed.

(** A visited child of a selected folder is selected when it passes the
    filters and, for a folder, is not marked as ignored. *)
Lemma walk_complete fuel : forall cur rel es k d es_d e,
  FS.lookup fs cur = Some (Dir es) ->
  FS.height (Dir es) <= fuel ->
  d = cur ++ k ->
  d ∈ walk2 fuel cur rel es ->
  FS.lookup fs d = Some (Dir es_d) ->
  e ∈ es_d ->
  visited d e = true ->
  _match_filters re_search (rel ++ k ++ [fst e]) includes excludes = true ->
  match snd e with
  | Dir es' => _should_ignore (PurePath.child d (fst e)) es' = false
  | File _ => True
  end ->
  PurePath.child d (fst e) ∈ walk2 fuel cur rel es.
Proof.
  induction fuel as [|fuel IH];
    intros cur rel es k d es_d e Hcur Hfuel Hdk Hd Hlook He Hv Hf Hign.
  { cbn in Hfuel. lia. }
  cbn [walk] in *.
  destruct (_should_ignore cur es); [by apply elem_of_nil in Hd|].
  destruct (negb _); [by apply elem_of_nil in Hd|].
  right. apply list_elem_of_In, in_flat_map.
  apply elem_of_cons in Hd as [->|Hd].
  - assert (k = []) as ->.
    { apply (app_inv_head cur). by rewrite app_nil_r. }
    rewrite Hcur in Hlook. injection Hlook as <-.
    exists e. split.
    { apply (Permutation_in _ (symmetry (ordered_children_perm hash es))).
      by apply list_elem_of_In. }
    apply list_elem_of_In. unfold visit. rewrite Hv. cbn [negb].
    cbn [app] in Hf. pose proof (height_entry es e He) as Hh.
    destruct (snd e) as [t|es'] eqn:Ee.
    + unfold PurePath.child. rewrite Hf. left.
    + cbn [FS.height] in Hfuel, Hh.
      destruct fuel as [|fuel]; [lia|]. cbn [walk].
      unfold PurePath.child in *. rewrite Hign, Hf. left.
  - apply list_elem_of_In, in_flat_map in Hd as (e0 & He0 & Hd).
    apply list_elem_of_In in Hd.
    exists e0. split; [done|]. apply list_elem_of_In.
    pose proof (Permutation_in _ (ordered_children_perm hash es) He0) as He0'.
    apply list_elem_of_In in He0'.
    pose proof (lookup_child fs cur es e0 fs_wf Hcur He0') as Hchild.
    pose proof (height_entry es e0 He0') as Hh.
    unfold visit in *.
    destruct (negb (visited cur e0)); [by apply elem_of_nil in Hd|].
    destruct (snd e0) as [t|es0] eqn:Ee0.
    + destruct (_match_filters _ _ _ _); [|by apply elem_of_nil in Hd].
      apply list_elem_of_singleton in Hd. rewrite <- Hd in Hchild.
      congruence.
    + pose proof (walk_prefix re_search hash includes excludes fuel _ _ _ _ Hd)
        as [k0 Hk0].
      assert (k = fst e0 :: k0) as ->.
      { apply (app_inv_head cur). rewrite <- Hdk, Hk0.
        unfold PurePath.child. by rewrite <- app_assoc. }
      apply (IH (PurePath.child cur (fst e0)) (rel ++ [fst e0]) es0 k0 d
                es_d e); try done.
      * cbn [FS.height] in Hfuel, Hh. cbn [FS.height]. lia.
      * by rewrite <- app_assoc.
Qed.

End SelectionFacts.

Section SelectionProperties.

Context {Pattern : Type}.
Variable re_search : Pattern -> string -> bool.
Variable hash : string -> Z.
Variables includes excludes : list Pattern.

(** X1. Every path [select_paths] returns lies at or below the root, its
    path relative to the root passes [_match_filters], and none of its
    components below the root starts with a dot. *)
Theorem selected_paths_pass_filters fs root sel q :
  select_paths re_search hash includes excludes fs root = Some sel ->
  q ∈ sel ->
  exists k,
    q = root ++ k
    /\ _match_filters re_search k includes excludes = true
    /\ Forall (fun c => Str.starts_with_dot c = false) k.
Proof.
  unfold select_paths. intros Hsel Hq.
  destruct (FS.lookup fs root) as [[t|es]|].
  - destruct (_ || _); [|done]. injection Hsel as <-.
    by apply elem_of_nil in Hq.
  - apply (inj Some) in Hsel. subst sel.
    by apply (walk_passes_filters re_search hash includes excludes) in Hq.
  - destruct (_ || _); [|done]. injection Hsel as <-.
    by apply elem_of_nil in Hq.
Qed.

(** X2. A selection is empty or starts with the root, and the parent of
    every selected path other than the root is selected too: no selected
    path is an orphan. *)
Theorem selected_paths_have_parents fs root sel :
  select_paths re_search hash includes excludes fs root = Some sel ->
  (sel = [] \/ exists rest, sel = root :: rest)
  /\ forall q, q ∈ sel -> q = root \/ PurePath.parent q ∈ sel.
Proof.
  unfold select_paths. intros Hsel.
  destruct (FS.lookup fs root) as [[t|es]|].
  - destruct (_ || _); [|done]. injection Hsel as <-.
    split; [by left|]. by intros q ?%elem_of_nil.
  - apply (inj Some) in Hsel. subst sel. split; [apply walk_head|].
    intros q. apply walk_parent.
  - destruct (_ || _); [|done]. injection Hsel as <-.
    split; [by left|]. by intros q ?%elem_of_nil.
Qed.

(** X3. Ignore propagation. On a snapshot without repeated names, a
    folder at or below the root that holds an ignore marker (or is named
    like one) contributes nothing: no selected path is the folder or lies
    below it. *)
Theorem ignored_folder_selects_nothing fs root sel d es_d :
  FS.wf fs ->
  select_paths re_search hash includes excludes fs root = Some sel ->
  root `prefix_of` d ->
  FS.lookup fs d = Some (Dir es_d) ->
  _should_ignore d es_d = true ->
  forall q, q ∈ sel -> ~ d `prefix_of` q.
Proof.
  unfold select_paths. intros Hwf Hsel Hrd Hd Hign q Hq Hdq.
  destruct (FS.lookup fs root) as [[t|es]|] eqn:Hroot.
  - destruct (_ || _); [|done]. injection Hsel as <-.
    by apply elem_of_nil in Hq.
  - apply (inj Some) in Hsel. subst sel.
    pose proof (walk_not_ignored re_search hash includes excludes fs Hwf
                  _ root [] es q d es_d Hroot Hq Hrd Hdq Hd).
    congruence.
  - destruct (_ || _); [|done]. injection Hsel as <-.
    by apply elem_of_nil in Hq.
Qed.

(** X4. On a snapshot without repeated names, the selection misses no
    child it should hold: for a selected folder, every child that is a
    directory, a PDF or an image, has no dot-prefixed name and passes the
    filters with its relative path is selected, unless it is a folder
    marked as ignored. *)
Theorem visited_child_is_selected fs root sel k es_d e :
  FS.wf fs ->
  select_paths re_search hash includes excludes fs root = Some sel ->
  root ++ k ∈ sel ->
  FS.lookup fs (root ++ k) = Some (Dir es_d) ->
  e ∈ es_d ->
  visited (root ++ k) e = true ->
  _match_filters re_search (k ++ [fst e]) includes excludes = true ->
  match snd e with
  | Dir es' => _should_ignore (PurePath.child (root ++ k) (fst e)) es' = false
  | File _ => True
  end ->
  PurePath.child (root ++ k) (fst e) ∈ sel.
Proof.
  unfold select_paths. intros Hwf Hsel Hd Hlook He Hv Hf Hign.
  destruct (FS.lookup fs root) as [[t|es]|] eqn:Hroot.
  - destruct (_ || _); [|done]. injection Hsel as <-.
    by apply elem_of_nil in Hd.
  - apply (inj Some) in Hsel. subst sel.
    by apply (walk_complete re_search hash includes excludes fs Hwf
                _ root [] es k (root ++ k) es_d e).
  - destruct (_ || _); [|done]. injection Hsel as <-.
    by apply elem_of_nil in Hd.
Qed.

End SelectionProperties.

Lemma selected_paths_pass_filters_witness :
  select_paths Sample.re_search (Sample.hash_const 0) [] ["sub"]
               Sample.library []
  = Some [[]; ["a"]; ["a"; "k.pdf"]; ["b"]; ["b"; "m.png"];
          ["b"; "n.pdf"]; ["z.pdf"]]
  /\ ["a"; "k.pdf"] ∈ [[]; ["a"]; ["a"; "k.pdf"]; ["b"]; ["b"; "m.png"];
                       ["b"; "n.pdf"]; ["z.pdf"]]
  /\ exists k,
      ["a"; "k.pdf"] = [] ++ k
      /\ _match_filters Sample.re_search k [] ["sub"] = true
      /\ Forall (fun c => Str.starts_with_dot c = false) k.
Proof.
  assert (H1 : select_paths Sample.re_search (Sample.hash_const 0) [] ["sub"]
                            Sample.library []
               = Some [[]; ["a"]; ["a"; "k.pdf"]; ["b"]; ["b"; "m.png"];
                       ["b"; "n.pdf"]; ["z.pdf"]]) by (by vm_compute).
  assert (H2 : ["a"; "k.pdf"] ∈ [[]; ["a"]; ["a"; "k.pdf"]; ["b"];
                                 ["b"; "m.png"]; ["b"; "n.pdf"]; ["z.pdf"]])
    by compute_done.
  split; [exact H1|]. split; [exact H2|].
  exact (selected_paths_pass_filters Sample.re_search (Sample.hash_const 0)
           [] ["sub"] Sample.library [] _ _ H1 H2).
Defined.

Lemma selected_paths_have_parents_witness :
  select_paths Sample.re_search (Sample.hash_const 0) [] ["sub"]
               Sample.library []
  = Some [[]; ["a"]; ["a"; "k.pdf"]; ["b"]; ["b"; "m.png"];
          ["b"; "n.pdf"]; ["z.pdf"]]
  /\ forall q,
      q ∈ [[]; ["a"]; ["a"; "k.pdf"]; ["b"]; ["b"; "m.png"];
           ["b"; "n.pdf"]; ["z.pdf"]] ->
      q = []
      \/ PurePath.parent q ∈ [[]; ["a"]; ["a"; "k.pdf"]; ["b"];
                              ["b"; "m.png"]; ["b"; "n.pdf"]; ["z.pdf"]].
Proof.
  assert (H1 : select_paths Sample.re_search (Sample.hash_const 0) [] ["sub"]
                            Sample.library []
               = Some [[]; ["a"]; ["a"; "k.pdf"]; ["b"]; ["b"; "m.png"];
                       ["b"; "n.pdf"]; ["z.pdf"]]) by (by vm_compute).
  split; [exact H1|].
  exact (proj2 (selected_paths_have_parents
                  Sample.re_search (Sample.hash_const 0)
                  [] ["sub"] Sample.library [] _ H1)).
Defined.

Lemma ignored_folder_selects_nothing_witness :
  FS.wf Sample2.with_ignored
  /\ select_paths Sample.re_search (Sample.hash_const 0) [] []
                  Sample2.with_ignored []
     = Some [[]; ["keep"]; ["keep"; "a.pdf"]]
  /\ [] `prefix_of` ["skip"]
  /\ FS.lookup Sample2.with_ignored ["skip"]
     = Some (Dir [ (".ignore", File None); ("b.pdf", File None);
                   ("deep", Dir [("c.pdf", File None)]) ])
  /\ _should_ignore ["skip"]
                    [ (".ignore", File None); ("b.pdf", File None);
                      ("deep", Dir [("c.pdf", File None)]) ] = true
  /\ forall q, q ∈ [[]; ["keep"]; ["keep"; "a.pdf"]] ->
               ~ ["skip"] `prefix_of` q.
Proof.
  assert (H1 : FS.wf Sample2.with_ignored)
    by (cbn; repeat split; compute_done).
  assert (H2 : select_paths Sample.re_search (Sample.hash_const 0) [] []
                            Sample2.with_ignored []
               = Some [[]; ["keep"]; ["keep"; "a.pdf"]]) by (by vm_compute).
  assert (H3 : [] `prefix_of` ["skip"]) by apply prefix_nil.
  assert (H4 : FS.lookup Sample2.with_ignored ["skip"]
               = Some (Dir [ (".ignore", File None); ("b.pdf", File None);
                             ("deep", Dir [("c.pdf", File None)]) ]))
    by reflexivity.
  assert (H5 : _should_ignore ["skip"]
                 [ (".ignore", File None); ("b.pdf", File None);
                   ("deep", Dir [("c.pdf", File None)]) ] = true)
    by reflexivity.
  split; [exact H1|]. split; [exact H2|]. split; [exact H3|].
  split; [exact H4|]. split; [exact H5|].
  exact (ignored_folder_selects_nothing
           Sample.re_search (Sample.hash_const 0) [] []
           Sample2.with_ignored [] _ ["skip"] _ H1 H2 H3 H4 H5).
Defined.

Lemma visited_child_is_selected_witness :
  FS.wf Sample.library
  /\ select_paths Sample.re_search (Sample.hash_const 0) [] []
                  Sample.library []
     = Some [[]; ["a"]; ["a"; "k.pdf"]; ["a"; "sub"]; ["a"; "sub"; "j.pdf"];
             ["b"]; ["b"; "m.png"]; ["b"; "n.pdf"]; ["z.pdf"]]
  /\ PurePath.child ([] ++ ["a"]) "sub"
     ∈ [[]; ["a"]; ["a"; "k.pdf"]; ["a"; "sub"]; ["a"; "sub"; "j.pdf"];
        ["b"]; ["b"; "m.png"]; ["b"; "n.pdf"]; ["z.pdf"]].
Proof.
  assert (H1 : FS.wf Sample.library) by (cbn; repeat split; compute_done).
  assert (H2 : select_paths Sample.re_search (Sample.hash_const 0) [] []
                            Sample.library []
               = Some [[]; ["a"]; ["a"; "k.pdf"]; ["a"; "sub"];
                       ["a"; "sub"; "j.pdf"]; ["b"]; ["b"; "m.png"];
                       ["b"; "n.pdf"]; ["z.pdf"]]) by (by vm_compute).
  split; [exact H1|]. split; [exact H2|].
  apply (visited_child_is_selected
           Sample.re_search (Sample.hash_const 0) [] []
           Sample.library [] _ ["a"]
           [("k.pdf", File None); ("sub", Dir [("j.pdf", File None)])]
           ("sub", Dir [("j.pdf", File None)]) H1 H2).
  - compute_done.
  - reflexivity.
  - apply elem_of_cons. right. apply elem_of_cons. by left.
  - reflexivity.
  - reflexivity.
  - reflexivity.
Defined.

(** ** The order of the selection *)

Section SelectionOrder.

Context {Pattern : Type}.
Variable re_search : Pattern -> string -> bool.
Variables includes excludes : list Pattern.

(** X5. Where no folder at or below the root holds an order file, the
    selection does not depend on the string hash of the process: the
    hash is consulted for children an order file leaves out, and for
    nothing else. *)
Theorem selection_without_order_file_is_hash_free
        (hash1 hash2 : string -> Z) fs root n :
  FS.lookup fs root = Some n ->
  no_order_file n ->
  select_paths re_search hash1 includes excludes fs root
  = select_paths re_search hash2 includes excludes fs root.
Proof.
  intros Hroot Hno. unfold select_paths. rewrite Hroot.
  destruct n as [t|es]; [done|]. f_equal.
  by apply walk_without_order_file.
Qed.

(** X7. On a snapshot without repeated names no path is selected twice. *)
Theorem selection_has_no_duplicates (hash : string -> Z) fs root sel :
  FS.wf fs ->
  select_paths re_search hash includes excludes fs root = Some sel ->
  NoDup sel.
Proof.
  unfold select_paths. intros Hwf Hsel.
  destruct (FS.lookup fs root) as [[t|es]|] eqn:Hroot.
  - destruct (_ || _); [|done]. injection Hsel as <-. constructor.
  - apply (inj Some) in Hsel. subst sel.
    apply preorder_NoDup, walk_preorder. by eapply wf_lookup.
  - destruct (_ || _); [|done]. injection Hsel as <-. constructor.
Qed.

(** X8. On a snapshot without repeated names every selected path exists
    in the snapshot and is a directory, a PDF file or an image file. *)
Theorem selected_paths_are_valid (hash : string -> Z) fs root sel q :
  FS.wf fs ->
  select_paths re_search hash includes excludes fs root = Some sel ->
  q ∈ sel ->
  exists n, FS.lookup fs q = Some n /\ _is_valid q n = true.
Proof.
  unfold select_paths. intros Hwf Hsel Hq.
  destruct (FS.lookup fs root) as [[t|es]|] eqn:Hroot.
  - destruct (_ || _); [|done]. injection Hsel as <-.
    by apply elem_of_nil in Hq.
  - apply (inj Some) in Hsel. subst sel.
    pose proof (walk_describable re_search hash includes excludes fs Hwf
                  (FS.height (Dir es)) root [] es Hroot) as Hall.
    rewrite Forall_forall in Hall.
    destruct (Hall q Hq) as [[es' Hd]|((t & Hf) & Hk & _)].
    + exists (Dir es'). by split.
    + exists (File t). split; [done|]. unfold _is_valid. by cbn.
  - destruct (_ || _); [|done]. injection Hsel as <-.
    by apply elem_of_nil in Hq.
Qed.

End SelectionOrder.

(** X6. What line 34 aims at, and reaches when no hint is repeated and
    the hash of no child's lowercased name is negative: in the order the
    loop follows, a child the order file lists never comes after one it
    does not list, and listed children come in the order of their
    hints. *)
Theorem hinted_children_come_first
        (hash : string -> Z) es order_file i j x y :
  FS.entry ".order" es = Some order_file ->
  NoDup (_load_dotfile_lines (Some order_file)) ->
  (forall e, e ∈ es -> (0 <= hash (Str.lower (fst e)))%Z) ->
  ordered_children hash es !! i = Some x ->
  ordered_children hash es !! j = Some y ->
  i < j ->
  (fst y ∈ _load_dotfile_lines (Some order_file) ->
   fst x ∈ _load_dotfile_lines (Some order_file))
  /\ (forall a b,
        _load_dotfile_lines (Some order_file) !! a = Some (fst x) ->
        _load_dotfile_lines (Some order_file) !! b = Some (fst y) ->
        a <= b).
Proof.
  intros Hof Hnd Hpos Hi Hj Hij.
  assert (Hx : x ∈ es).
  { apply (elem_of_Permutation_proper x _ _ (ordered_children_perm hash es)).
    by eapply list_elem_of_lookup_2. }
  unfold ordered_children in Hi, Hj. rewrite Hof in Hi, Hj.
  set (hints := _load_dotfile_lines (Some order_file)) in *.
  pose proof (sort_by_sorted
                (fun e : string * node =>
                   order_key hash (preferred_map_of hints) (fst e))
                Z.ltb Z_ltb_asym Z_ltb_negtrans
                (sort_by (fun e => Str.lower (fst e)) String.ltb es)) as Hs.
  pose proof (StronglySorted_lookup _ _ i j x y Hs Hij Hi Hj) as Hxy.
  unfold keeps, order_key in Hxy. apply Z.ltb_ge in Hxy.
  assert (Hlisted : forall nm a, hints !! a = Some nm ->
                    default (Z.of_nat (size (preferred_map_of hints))
                             + hash (Str.lower nm))%Z
                            (Z.of_nat <$> preferred_map_of hints !! nm)
                    = Z.of_nat a /\ a < List.length hints).
  { intros nm a Ha. rewrite (preferred_map_of_lookup hints a nm Hnd Ha).
    split; [done|]. by eapply lookup_lt_Some. }
  split.
  - intros Hy. destruct (decide (fst x ∈ hints)) as [|Hnx]; [done|].
    apply list_elem_of_lookup in Hy as [b Hb].
    destruct (Hlisted _ _ Hb) as [Eb Hlt]. rewrite Eb in Hxy.
    rewrite (preferred_map_of_lookup_None hints _ Hnx) in Hxy.
    cbn in Hxy. rewrite preferred_map_of_size in Hxy by done.
    specialize (Hpos x Hx). lia.
  - intros a b Ha Hb.
    destruct (Hlisted _ _ Ha) as [Ea _], (Hlisted _ _ Hb) as [Eb _].
    rewrite Ea, Eb in Hxy. lia.
Qed.

Lemma selection_without_order_file_is_hash_free_witness :
  FS.lookup Sample.library [] = Some Sample.library
  /\ no_order_file Sample.library
  /\ select_paths Sample.re_search (Sample.hash_const 0) [] []
                  Sample.library []
     = select_paths Sample.re_search
                    (Sample.hash_of [("a", (-7)%Z); ("b", 5%Z)]) [] []
                    Sample.library [].
Proof.
  assert (H1 : FS.lookup Sample.library [] = Some Sample.library)
    by reflexivity.
  assert (H2 : no_order_file Sample.library) by (cbn; repeat split).
  split; [exact H1|]. split; [exact H2|].
  exact (selection_without_order_file_is_hash_free
           Sample.re_search [] [] (Sample.hash_const 0)
           (Sample.hash_of [("a", (-7)%Z); ("b", 5%Z)])
           Sample.library [] _ H1 H2).
Defined.

Lemma selection_has_no_duplicates_witness :
  FS.wf Sample.library
  /\ select_paths Sample.re_search (Sample.hash_const 0) [] ["sub"]
                  Sample.library []
     = Some [[]; ["a"]; ["a"; "k.pdf"]; ["b"]; ["b"; "m.png"];
             ["b"; "n.pdf"]; ["z.pdf"]]
  /\ NoDup [[]; ["a"]; ["a"; "k.pdf"]; ["b"]; ["b"; "m.png"];
            ["b"; "n.pdf"]; ["z.pdf"]].
Proof.
  assert (H1 : FS.wf Sample.library) by (cbn; repeat split; compute_done).
  assert (H2 : select_paths Sample.re_search (Sample.hash_const 0) [] ["sub"]
                            Sample.library []
               = Some [[]; ["a"]; ["a"; "k.pdf"]; ["b"]; ["b"; "m.png"];
                       ["b"; "n.pdf"]; ["z.pdf"]]) by (by vm_compute).
  split; [exact H1|]. split; [exact H2|].
  exact (selection_has_no_duplicates
           Sample.re_search [] ["sub"] (Sample.hash_const 0)
           Sample.library [] _ H1 H2).
Defined.

Lemma selected_paths_are_valid_witness :
  FS.wf Sample.library
  /\ select_paths Sample.re_search (Sample.hash_const 0) [] ["sub"]
                  Sample.library []
     = Some [[]; ["a"]; ["a"; "k.pdf"]; ["b"]; ["b"; "m.png"];
             ["b"; "n.pdf"]; ["z.pdf"]]
  /\ ["b"; "m.png"] ∈ [[]; ["a"]; ["a"; "k.pdf"]; ["b"]; ["b"; "m.png"];
                       ["b"; "n.pdf"]; ["z.pdf"]]
  /\ exists n, FS.lookup Sample.library ["b"; "m.png"] = Some n
               /\ _is_valid ["b"; "m.png"] n = true.
Proof.
  assert (H1 : FS.wf Sample.library) by (cbn; repeat split; compute_done).
  assert (H2 : select_paths Sample.re_search (Sample.hash_const 0) [] ["sub"]
                            Sample.library []
               = Some [[]; ["a"]; ["a"; "k.pdf"]; ["b"]; ["b"; "m.png"];
                       ["b"; "n.pdf"]; ["z.pdf"]]) by (by vm_compute).
  assert (H3 : ["b"; "m.png"] ∈ [[]; ["a"]; ["a"; "k.pdf"]; ["b"];
                                 ["b"; "m.png"]; ["b"; "n.pdf"]; ["z.pdf"]])
    by compute_done.
  split; [exact H1|]. split; [exact H2|]. split; [exact H3|].
  exact (selected_paths_are_valid
           Sample.re_search [] ["sub"] (Sample.hash_const 0)
           Sample.library [] _ _ H1 H2 H3).
Defined.

Lemma hinted_children_come_first_witness :
  FS.entry ".order" (entries_of Sample.hinted3)
  = Some (Sample.text ["b"; "a"])
  /\ NoDup (_load_dotfile_lines (Some (Sample.text ["b"; "a"])))
  /\ (forall e, e ∈ entries_of Sample.hinted3 ->
                (0 <= Sample.hash_const 0 (Str.lower (fst e)))%Z)
  /\ ordered_children (Sample.hash_const 0) (entries_of Sample.hinted3) !! 1
     = Some ("a", Dir [])
  /\ ordered_children (Sample.hash_const 0) (entries_of Sample.hinted3) !! 3
     = Some ("c", Dir [])
  /\ ("c" ∈ _load_dotfile_lines (Some (Sample.text ["b"; "a"])) ->
      "a" ∈ _load_dotfile_lines (Some (Sample.text ["b"; "a"]))).
Proof.
  assert (H1 : FS.entry ".order" (entries_of Sample.hinted3)
               = Some (Sample.text ["b"; "a"])) by reflexivity.
  assert (H2 : NoDup (_load_dotfile_lines (Some (Sample.text ["b"; "a"]))))
    by (vm_compute; compute_done).
  assert (H3 : forall e, e ∈ entries_of Sample.hinted3 ->
                         (0 <= Sample.hash_const 0 (Str.lower (fst e)))%Z)
    by (intros e _; unfold Sample.hash_const; lia).
  assert (H4 : ordered_children (Sample.hash_const 0)
                                (entries_of Sample.hinted3) !! 1
               = Some ("a", Dir [])) by (by vm_compute).
  assert (H5 : ordered_children (Sample.hash_const 0)
                                (entries_of Sample.hinted3) !! 3
               = Some ("c", Dir [])) by (by vm_compute).
  split; [exact H1|]. split; [exact H2|]. split; [exact H3|].
  split; [exact H4|]. split; [exact H5|].
  exact (proj1 (hinted_children_come_first
                  (Sample.hash_const 0) (entries_of Sample.hinted3)
                  (Sample.text ["b"; "a"]) 1 3 ("a", Dir []) ("c", Dir [])
                  H1 H2 H3 H4 H5 ltac:(lia))).
Defined.

(** * Further properties of the describer *)

Lemma describe_folders_elem_of fs files p x :
  describe_folders fs files !! p = Some x -> p ∈ files.
Proof.
  unfold describe_folders.
  assert (G : forall (m : gmap Path Item),
             foldl (fun m p => match FS.lookup fs p with
                               | Some (Dir es) => <[p := _describe_folder p es]> m
                               | _ => m
                               end) m files !! p = Some x ->
             p ∈ files \/ m !! p = Some x).
  { induction files as [|q files IH]; intros m; cbn [foldl]; [by right|].
    intros [Hin|Hm]%IH; [left; by right|].
    destruct (FS.lookup fs q) as [[t|es]|]; [by right| |by right].
    destruct (decide (q = p)) as [->|Hne]; [left; left|].
    rewrite lookup_insert_ne in Hm by done. by right. }
  intros [Hin|Hm]%G; [done|]. by rewrite lookup_empty in Hm.
Qed.

(** The dictionary of the first loop: the description of each listed
    directory, under its path. *)
Lemma describe_folders_get fs files q :
  describe_folders fs files !! q
  = if bool_decide (q ∈ files)
    then match FS.lookup fs q with
         | Some (Dir es) => Some (_describe_folder q es)
         | _ => None
         end
    else None.
Proof.
  case_bool_decide as Hin.
  - destruct (FS.lookup fs q) as [[t|es]|] eqn:Hq.
    + destruct (describe_folders fs files !! q) as [x|] eqn:E; [|done].
      apply describe_folders_values in E as (es & E & _). congruence.
    + by apply describe_folders_lookup.
    + destruct (describe_folders fs files !! q) as [x|] eqn:E; [|done].
      apply describe_folders_values in E as (es & E & _). congruence.
  - destruct (describe_folders fs files !! q) as [x|] eqn:E; [|done].
    by apply describe_folders_elem_of in E.
Qed.

(** The second loop, for paths the first loop has seen: it raises when
    a path that is not a directory has no listed directory for its
    parent, and makes the entry of each path from the snapshot
    otherwise. *)
Lemma describe_entries_local fs sel files :
  (forall p, p ∈ files -> p ∈ sel) ->
  describe_entries fs (describe_folders fs sel) files
  = if forallb (fun p => is_dir_at fs p
                         || (bool_decide (PurePath.parent p ∈ sel)
                             && is_dir_at fs (PurePath.parent p))) files
    then Some (omap (describe_path fs) files)
    else None.
Proof.
  induction files as [|p files IH]; intros Hsub; [done|].
  cbn [describe_entries forallb omap list_omap].
  rewrite IH by (intros q Hq; apply Hsub; by right).
  rewrite !describe_folders_get.
  rewrite (bool_decide_eq_true_2 (p ∈ sel)) by (apply Hsub; left).
  unfold is_dir_at, describe_path.
  destruct (FS.lookup fs p) as [[t|es]|] eqn:Hp; cbn [orb].
  - case_bool_decide; cbn [andb]; [|done].
    destruct (FS.lookup fs (PurePath.parent p)) as [[t'|es']|]; [done| |done].
    cbn. by destruct (forallb _ files).
  - cbn. by destruct (forallb _ files).
  - case_bool_decide; cbn [andb]; [|done].
    destruct (FS.lookup fs (PurePath.parent p)) as [[t'|es']|]; [done| |done].
    cbn. by destruct (forallb _ files).
Qed.

Lemma describe_path_key fs sel p :
  describable fs sel p ->
  exists d, describe_path fs p = Some d /\ key_of d = (kind_at fs p, p).
Proof.
  unfold describe_path, kind_at, is_dir_at.
  intros [[es Hd]|((t & Hf) & Hk & _ & (es & Hpd))].
  - rewrite Hd. eexists. by split.
  - rewrite Hf, Hpd. unfold _describe_file.
    destruct (_is_pdf p); [eexists; by split|].
    destruct (_is_img p); [eexists; by split|done].
Qed.

(** X9. [build_tree_description] returns exactly when every listed path
    that is not a directory has its parent listed as a directory;
    otherwise [folders[path.parent]] raises, even for a file that is
    neither a PDF nor an image and would get no entry. *)
Theorem build_tree_description_returns_iff fs files :
  is_Some (build_tree_description fs files)
  <-> Forall (fun p => is_dir_at fs p = true
                       \/ (PurePath.parent p ∈ files
                           /\ is_dir_at fs (PurePath.parent p) = true))
             files.
Proof.
  unfold build_tree_description.
  rewrite describe_entries_local by done.
  destruct (forallb _ files) eqn:E.
  - split; [intros _|by eauto].
    rewrite forallb_forall in E. apply Forall_forall. intros p Hp.
    specialize (E p (proj1 (list_elem_of_In _ _) Hp)).
    apply orb_prop in E as [E|E]; [by left|right].
    apply andb_prop in E as [E1 E2]. by apply bool_decide_eq_true in E1.
  - split; [by intros [? ?]|]. intros Hall. exfalso.
    assert (forallb (fun p => is_dir_at fs p
                              || (bool_decide (PurePath.parent p ∈ files)
                                  && is_dir_at fs (PurePath.parent p))) files
            = true); [|congruence].
    apply forallb_forall. intros p Hp%list_elem_of_In.
    rewrite Forall_forall in Hall.
    destruct (Hall p Hp) as [->|[H1 ->]]; [done|].
    rewrite (bool_decide_eq_true_2 _ H1). apply orb_true_r.
Qed.

(** X10. When [build_tree_description] returns, its entries are made
    path by path: the entry of a path depends on the snapshot alone, not
    on the other listed paths, paths come out in the order they went in,
    and a path that is no directory, PDF or image gets no entry. *)
Theorem build_tree_description_is_local fs files tree :
  build_tree_description fs files = Some tree ->
  tree = omap (describe_path fs) files.
Proof.
  unfold build_tree_description.
  rewrite describe_entries_local by done.
  destruct (forallb _ files); [|done]. by intros [= <-].
Qed.

(** The keys of the entries made for describable paths. *)
Lemma build_tree_description_is_local_keys fs files tree :
  build_tree_description fs files = Some tree ->
  Forall (describable fs files) files ->
  map key_of tree = map (fun p => (kind_at fs p, p)) files.
Proof.
  unfold build_tree_description.
  rewrite describe_entries_local by done.
  destruct (forallb _ files); [|done]. intros [= <-] Hall.
  assert (Hkeys : Forall (fun p => exists d,
                            describe_path fs p = Some d
                            /\ key_of d = (kind_at fs p, p)) files).
  { eapply Forall_impl; [exact Hall|]. intros p. apply describe_path_key. }
  clear Hall. induction Hkeys as [|p l (d & Hd & Hk) _ IH]; [done|].
  cbn [omap list_omap map]. rewrite Hd. cbn [map]. by rewrite Hk, IH.
Qed.

Section Describing.

Context {Pattern : Type}.
Variable re_search : Pattern -> string -> bool.
Variable hash : string -> Z.
Variables includes excludes : list Pattern.

(** X11. On a snapshot without repeated names, describing a selection
    never raises and yields exactly one entry per selected path, in the
    order of the selection: a folder entry for a directory, a PDF entry
    for a PDF file, an image entry for an image file. *)
Theorem selection_is_described_path_by_path fs root files :
  FS.wf fs ->
  select_paths re_search hash includes excludes fs root = Some files ->
  exists tree,
    build_tree_description fs files = Some tree
    /\ map key_of tree = map (fun p => (kind_at fs p, p)) files.
Proof.
  intros Hwf Hsel.
  assert (Hall : Forall (describable fs files) files).
  { unfold select_paths in Hsel.
    destruct (FS.lookup fs root) as [[t|es]|] eqn:Hroot.
    - destruct (_ || _); [|done]. injection Hsel as <-. constructor.
    - apply (inj Some) in Hsel. subst files.
      by apply walk_describable.
    - destruct (_ || _); [|done]. injection Hsel as <-. constructor. }
  unfold build_tree_description.
  rewrite describe_entries_local by done.
  assert (E : forallb (fun p => is_dir_at fs p
                                || (bool_decide (PurePath.parent p ∈ files)
                                    && is_dir_at fs (PurePath.parent p))) files
              = true).
  { apply forallb_forall. intros p Hp%list_elem_of_In.
    rewrite Forall_forall in Hall. unfold is_dir_at.
    destruct (Hall p Hp) as [[es ->]|(_ & _ & Hpar & (es & ->))]; [done|].
    rewrite (bool_decide_eq_true_2 _ Hpar). apply orb_true_r. }
  rewrite E. eexists. split; [reflexivity|].
  clear E Hsel.
  assert (Hkeys : Forall (fun p => exists d,
                            describe_path fs p = Some d
                            /\ key_of d = (kind_at fs p, p)) files).
  { eapply Forall_impl; [exact Hall|]. intros p. apply describe_path_key. }
  clear Hall. induction Hkeys as [|p l (d & Hd & Hk) _ IH]; [done|].
  cbn [omap list_omap map]. rewrite Hd. cbn [map]. by rewrite Hk, IH.
Qed.

End Describing.

Section Traversal.

Context {Pattern : Type}.
Variable re_search : Pattern -> string -> bool.
Variable hash : string -> Z.
Variables includes excludes : list Pattern.

(** C8. On every well-formed snapshot whose root is a directory,
    [select_paths] returns, [build_tree_description] returns on what it
    selected, with one entry per selected path in the same order, and
    both sequences are a pre-order traversal of the filtered tree. The
    traversal starts at the root, unless the root is ignored or filtered
    out. Every selected path is the root or has its parent selected, is a
    directory, a PDF or an image of the snapshot and passes the filters.
    Every child of a selected folder that the loop does not skip, that
    passes the filters and that is not an ignored folder is selected.
    And each selected path is followed immediately by all selected paths
    below it, and no path below it stands anywhere else: a folder comes
    before all its selected descendants, and they come before any of its
    siblings. *)
Theorem selection_is_preorder fs root es :
  FS.wf fs ->
  FS.lookup fs root = Some (Dir es) ->
  exists sel tree,
    select_paths re_search hash includes excludes fs root = Some sel
    /\ build_tree_description fs sel = Some tree
    /\ map key_of tree = map (fun p => (kind_at fs p, p)) sel
    /\ map path tree = sel
    /\ (_should_ignore root es = false ->
        _match_filters re_search [] includes excludes = true ->
        exists rest, sel = root :: rest)
    /\ (forall q, q ∈ sel ->
          (q = root \/ PurePath.parent q ∈ sel)
          /\ exists k n,
               q = root ++ k
               /\ FS.lookup fs q = Some n
               /\ _is_valid q n = true
               /\ _match_filters re_search k includes excludes = true)
    /\ (forall k es_d e,
          root ++ k ∈ sel ->
          FS.lookup fs (root ++ k) = Some (Dir es_d) ->
          e ∈ es_d ->
          visited (root ++ k) e = true ->
          _match_filters re_search (k ++ [fst e]) includes excludes = true ->
          match snd e with
          | Dir es' =>
              _should_ignore (PurePath.child (root ++ k) (fst e)) es' = false
          | File _ => True
          end ->
          PurePath.child (root ++ k) (fst e) ∈ sel)
    /\ preorder sel
    /\ preorder (map path tree).
Proof.
  intros Hwf Hroot.
  destruct (pipeline_tree re_search hash includes excludes fs Hwf root es
              Hroot) as (sel & tree & Hsel & Htree & _ & _).
  exists sel, tree. split; [done|]. split; [done|].
  unfold select_paths in Hsel. rewrite Hroot in Hsel.
  apply (inj Some) in Hsel.
  pose proof (walk_describable re_search hash includes excludes fs Hwf
                (FS.height (Dir es)) root [] es Hroot) as Hall.
  rewrite Hsel in Hall.
  pose proof (build_tree_description_is_local_keys fs sel tree Htree Hall)
    as Hkeys.
  assert (Hpath : map path tree = sel).
  { apply (f_equal (map snd)) in Hkeys. rewrite !map_map in Hkeys.
    cbn in Hkeys. by rewrite map_id in Hkeys. }
  assert (Hpre : preorder sel).
  { rewrite <- Hsel. apply walk_preorder. by eapply wf_lookup. }
  split; [done|]. split; [done|]. split.
  { intros Hign Hf. rewrite <- Hsel. cbn [FS.height walk].
    rewrite Hign, Hf. cbn. eauto. }
  split.
  { intros q Hq. split.
    - rewrite <- Hsel in *.
      by apply (walk_parent re_search hash includes excludes) in Hq.
    - pose proof Hq as Hq'. rewrite <- Hsel in Hq'.
      apply (walk_passes_filters re_search hash includes excludes) in Hq'
        as (k & -> & Hf & _).
      rewrite Forall_forall in Hall.
      destruct (Hall _ Hq) as [[es' Hd]|((t & Hd) & Hk & _)].
      + exists k, (Dir es'). by repeat split.
      + exists k, (File t). repeat split; try done;
          unfold _is_valid; by cbn. }
  split.
  { intros k es_d e Hd Hlook He Hv Hf Hign. rewrite <- Hsel in *.
    by apply (walk_complete re_search hash includes excludes fs Hwf
                _ root [] es k (root ++ k) es_d e). }
  split; [done|]. by rewrite Hpath.
Qed.

End Traversal.

(** On [Sample.library] with the exclude pattern [sub]: the root comes
    first, the folder [a] is followed by its file, the folder [a/sub] and
    what it holds are left out. *)
Lemma selection_is_preorder_witness :
  FS.wf Sample.library
  /\ FS.lookup Sample.library [] = Some Sample.library
  /\ select_paths Sample.re_search (Sample.hash_const 0) [] ["sub"]
                  Sample.library []
     = Some [[]; ["a"]; ["a"; "k.pdf"]; ["b"]; ["b"; "m.png"];
             ["b"; "n.pdf"]; ["z.pdf"]]
  /\ exists sel tree,
      select_paths Sample.re_search (Sample.hash_const 0) [] ["sub"]
                   Sample.library [] = Some sel
      /\ build_tree_description Sample.library sel = Some tree
      /\ map key_of tree = map (fun p => (kind_at Sample.library p, p)) sel
      /\ map path tree = sel
      /\ (_should_ignore [] (entries_of Sample.library) = false ->
          _match_filters Sample.re_search [] [] ["sub"] = true ->
          exists rest, sel = [] :: rest)
      /\ (forall q, q ∈ sel ->
            (q = [] \/ PurePath.parent q ∈ sel)
            /\ exists k n,
                 q = [] ++ k
                 /\ FS.lookup Sample.library q = Some n
                 /\ _is_valid q n = true
                 /\ _match_filters Sample.re_search k [] ["sub"] = true)
      /\ (forall k es_d e,
            [] ++ k ∈ sel ->
            FS.lookup Sample.library ([] ++ k) = Some (Dir es_d) ->
            e ∈ es_d ->
            visited ([] ++ k) e = true ->
            _match_filters Sample.re_search (k ++ [fst e]) [] ["sub"] = true ->
            match snd e with
            | Dir es' =>
                _should_ignore (PurePath.child ([] ++ k) (fst e)) es' = false
            | File _ => True
            end ->
            PurePath.child ([] ++ k) (fst e) ∈ sel)
      /\ preorder sel
      /\ preorder (map path tree).
Proof.
  assert (H1 : FS.wf Sample.library).
  { cbn. repeat split; compute_done. }
  split; [exact H1|]. split; [reflexivity|]. split; [by vm_compute|].
  exact (selection_is_preorder Sample.re_search (Sample.hash_const 0)
           [] ["sub"] Sample.library [] _ H1 eq_refl).
Defined.


Lemma build_tree_description_is_local_witness :
  build_tree_description
    Sample.shelved [["docs"]; ["docs"; "notes.txt"]; ["docs"; "Zeta.pdf"]]
  = Some [ _describe_folder ["docs"] Sample.shelf;
           Sample.entry pdf ["docs"; "Zeta.pdf"] ]
  /\ [ _describe_folder ["docs"] Sample.shelf;
       Sample.entry pdf ["docs"; "Zeta.pdf"] ]
     = omap (describe_path Sample.shelved)
            [["docs"]; ["docs"; "notes.txt"]; ["docs"; "Zeta.pdf"]].
Proof.
  assert (H1 : build_tree_description
                 Sample.shelved
                 [["docs"]; ["docs"; "notes.txt"]; ["docs"; "Zeta.pdf"]]
               = Some [ _describe_folder ["docs"] Sample.shelf;
                        Sample.entry pdf ["docs"; "Zeta.pdf"] ])
    by (by vm_compute).
  split; [exact H1|].
  exact (build_tree_description_is_local Sample.shelved _ _ H1).
Defined.

Lemma selection_is_described_path_by_path_witness :
  FS.wf Sample.library
  /\ select_paths Sample.re_search (Sample.hash_const 0) [] ["sub"]
                  Sample.library []
     = Some [[]; ["a"]; ["a"; "k.pdf"]; ["b"]; ["b"; "m.png"];
             ["b"; "n.pdf"]; ["z.pdf"]]
  /\ exists tree,
      build_tree_description
        Sample.library
        [[]; ["a"]; ["a"; "k.pdf"]; ["b"]; ["b"; "m.png"];
         ["b"; "n.pdf"]; ["z.pdf"]] = Some tree
      /\ map key_of tree
         = map (fun p => (kind_at Sample.library p, p))
               [[]; ["a"]; ["a"; "k.pdf"]; ["b"]; ["b"; "m.png"];
                ["b"; "n.pdf"]; ["z.pdf"]].
Proof.
  assert (H1 : FS.wf Sample.library) by (cbn; repeat split; compute_done).
  assert (H2 : select_paths Sample.re_search (Sample.hash_const 0) [] ["sub"]
                            Sample.library []
               = Some [[]; ["a"]; ["a"; "k.pdf"]; ["b"]; ["b"; "m.png"];
                       ["b"; "n.pdf"]; ["z.pdf"]]) by (by vm_compute).
  split; [exact H1|]. split; [exact H2|].
  exact (selection_is_described_path_by_path
           Sample.re_search (Sample.hash_const 0) [] ["sub"]
           Sample.library [] _ H1 H2).
Defined.

(** ** Label files *)

Lemma equals_sign_spec c : (nat_of_ascii c =? 61)%nat = true <-> c = "="%char.
Proof.
  rewrite Nat.eqb_eq. split; [|by intros ->].
  intros H. by rewrite <- (ascii_nat_embedding c), H.
Qed.

(** [split_eq] cuts a line at its first equals sign. *)
Lemma split_eq_Some s : forall k v,
  split_eq s = Some (k, v)
  <-> s = (k ++ String "=" v)%string
      /\ "="%char ∉ list_ascii_of_string k.
Proof.
  induction s as [|c s IH]; intros k v; cbn [split_eq].
  { split; [done|]. intros [H _]. by destruct k. }
  destruct (nat_of_ascii c =? 61)%nat eqn:E.
  - apply equals_sign_spec in E as ->. split.
    + intros [= <- <-]. split; [done|]. cbn. apply not_elem_of_nil.
    + intros [H Hk]. destruct k as [|c' k]; cbn in H.
      * by injection H as <-.
      * injection H as <- _. exfalso. apply Hk. cbn. left.
  - assert (Hc : c <> "="%char).
    { intros Hc. apply equals_sign_spec in Hc. congruence. }
    destruct (split_eq s) as [[k0 v0]|] eqn:Es.
    + destruct (proj1 (IH k0 v0) eq_refl) as [-> Hk0]. split.
      * intros [= <- <-]. split; [done|]. cbn.
        intros [?|?]%elem_of_cons; [congruence|done].
      * intros [H Hk]. destruct k as [|c' k]; cbn in H.
        { injection H as -> _. done. }
        injection H as <- H.
        assert (Hk' : "="%char ∉ list_ascii_of_string k).
        { intros Hin. apply Hk. cbn. by right. }
        pose proof (proj2 (IH k v) (conj H Hk')) as E'.
        by injection E' as -> ->.
    + split; [done|]. intros [H Hk]. destruct k as [|c' k]; cbn in H.
      { injection H as -> _. done. }
      injection H as <- H.
      assert (Hk' : "="%char ∉ list_ascii_of_string k).
      { intros Hin. apply Hk. cbn. by right. }
      pose proof (proj2 (IH k v) (conj H Hk')) as E'. done.
Qed.

Abbreviation label_step :=
  (fun (m : gmap string string) (line : string) =>
     match split_eq line with
     | Some (k, v) => <[Str.strip k := Str.strip v]> m
     | None => m
     end).

(** The loop over the lines of a label file: the last line with a key
    gives its value, and without one the dictionary keeps what it had. *)
Lemma labels_fold key val lines : forall m : gmap string string,
  foldl label_step m lines !! key = Some val
  <-> (exists i line k v,
         lines !! i = Some line /\ split_eq line = Some (k, v)
         /\ Str.strip k = key /\ Str.strip v = val
         /\ forall j line' k' v',
              i < j -> lines !! j = Some line' ->
              split_eq line' = Some (k', v') -> Str.strip k' <> key)
      \/ (m !! key = Some val
          /\ forall j line' k' v',
               lines !! j = Some line' ->
               split_eq line' = Some (k', v') -> Str.strip k' <> key).
Proof.
  induction lines as [|line rest IH]; intros m; cbn [foldl].
  { split.
    - intros Hm. right. split; [done|]. intros j line' k' v' Hj.
      by rewrite lookup_nil in Hj.
    - intros [(i & line & k & v & Hi & _)|[Hm _]]; [|done].
      by rewrite lookup_nil in Hi. }
  rewrite IH. split.
  - intros [(i & l & k & v & Hi & Hs & Hk & Hv & Hlater)|[Hm Hnone]].
    + left. exists (S i), l, k, v. repeat split; try done.
      intros j line' k' v' Hij Hj. destruct j as [|j]; [lia|].
      apply (Hlater j); [lia|done].
    + destruct (split_eq line) as [[k v]|] eqn:E.
      * destruct (decide (Str.strip k = key)) as [Hk|Hk].
        { subst key. rewrite lookup_insert_eq in Hm. injection Hm as <-.
          left. exists 0, line, k, v. repeat split; try done.
          intros j line' k' v' Hij Hj. destruct j as [|j]; [lia|].
          by apply (Hnone j). }
        rewrite lookup_insert_ne in Hm by done.
        right. split; [done|]. intros j line' k' v' Hj.
        destruct j as [|j]; [|by apply (Hnone j)].
        cbn in Hj. injection Hj as <-. rewrite E. by intros [= <- <-].
      * right. split; [done|]. intros j line' k' v' Hj.
        destruct j as [|j]; [|by apply (Hnone j)].
        cbn in Hj. injection Hj as <-. by rewrite E.
  - intros [(i & l & k & v & Hi & Hs & Hk & Hv & Hlater)|[Hm Hnone]].
    + destruct i as [|i].
      * cbn in Hi. injection Hi as <-. right. rewrite Hs. subst key val.
        split; [apply lookup_insert_eq|].
        intros j line' k' v' Hj. apply (Hlater (S j)); [lia|done].
      * left. exists i, l, k, v. repeat split; try done.
        intros j line' k' v' Hij Hj. apply (Hlater (S j)); [lia|done].
    + right. split.
      * destruct (split_eq line) as [[k v]|] eqn:E; [|done].
        rewrite lookup_insert_ne; [done|]. by apply (Hnone 0 line k v).
      * intros j line' k' v' Hj. by apply (Hnone (S j)).
Qed.

(** X12. The labels of a folder whose label file can be read: a key has
    the value of the last line that reads [key = value] for it, cut at
    the first equals sign of the line and stripped on both sides; lines
    without an equals sign do not count, and a value may hold equals
    signs of its own. *)
Theorem resolve_labels_last_line_wins es t key val :
  FS.entry ".label" es = Some (File (Some t)) ->
  _resolve_labels es !! key = Some val
  <-> exists i k v,
        Str.splitlines t !! i = Some (k ++ String "=" v)%string
        /\ ("="%char ∉ list_ascii_of_string k)
        /\ Str.strip k = key /\ Str.strip v = val
        /\ forall j k' v',
             i < j ->
             Str.splitlines t !! j = Some (k' ++ String "=" v')%string ->
             "="%char ∉ list_ascii_of_string k' ->
             Str.strip k' <> key.
Proof.
  intros Hl. unfold _resolve_labels. rewrite Hl. cbn [FS.read_text].
  rewrite labels_fold. split.
  - intros [(i & line & k & v & Hi & Hs & Hk & Hv & Hlater)|[Hm _]];
      [|by rewrite lookup_empty in Hm].
    apply split_eq_Some in Hs as [-> Hne].
    exists i, k, v. repeat split; try done.
    intros j k' v' Hij Hj Hne'. apply (Hlater j _ k' v' Hij Hj).
    by apply split_eq_Some.
  - intros (i & k & v & Hi & Hne & Hk & Hv & Hlater). left.
    exists i, (k ++ String "=" v)%string, k, v. repeat split; try done.
    + by apply split_eq_Some.
    + intros j line' k' v' Hij Hj Hs.
      apply split_eq_Some in Hs as [-> Hne']. by apply (Hlater j k' v').
Qed.

Lemma resolve_labels_last_line_wins_witness :
  FS.entry ".label" Sample2.labelled
  = Some (File (Some (String.concat (String (ascii_of_nat 10) EmptyString)
                                    Sample2.label_lines)))
  /\ (_resolve_labels Sample2.labelled !! "a.pdf" = Some "Second"
      <-> exists i k v,
            Str.splitlines
              (String.concat (String (ascii_of_nat 10) EmptyString)
                             Sample2.label_lines) !! i
            = Some (k ++ String "=" v)%string
            /\ ("="%char ∉ list_ascii_of_string k)
            /\ Str.strip k = "a.pdf" /\ Str.strip v = "Second"
            /\ forall j k' v',
                 i < j ->
                 Str.splitlines
                   (String.concat (String (ascii_of_nat 10) EmptyString)
                                  Sample2.label_lines) !! j
                 = Some (k' ++ String "=" v')%string ->
                 "="%char ∉ list_ascii_of_string k' ->
                 Str.strip k' <> "a.pdf").
Proof.
  assert (H1 : FS.entry ".label" Sample2.labelled
               = Some (File (Some (String.concat
                                     (String (ascii_of_nat 10) EmptyString)
                                     Sample2.label_lines))))
    by reflexivity.
  split; [exact H1|].
  exact (resolve_labels_last_line_wins Sample2.labelled _ "a.pdf" "Second" H1).
Defined.

(** * Further properties of the merger *)

Lemma last_folder_snoc p x : forall earlier i,
  last_folder i p (earlier ++ [x])
  = if bool_decide (type x = folder /\ path x = p)
    then Some (i + List.length earlier)
    else last_folder i p earlier.
Proof.
  induction earlier as [|y earlier IH]; intros i; cbn [last_folder app].
  - case_bool_decide; [|done]. f_equal. cbn. lia.
  - rewrite IH. case_bool_decide; [|done]. f_equal. cbn. lia.
Qed.

Lemma last_folder_lt p : forall earlier i n,
  last_folder i p earlier = Some n -> i <= n < i + List.length earlier.
Proof.
  induction earlier as [|y earlier IH]; intros i n; cbn [last_folder];
    [done|].
  destruct (last_folder (S i) p earlier) as [m|] eqn:E.
  - intros [= <-]. apply IH in E. cbn. lia.
  - case_bool_decide; [|done]. intros [= <-]. cbn. lia.
Qed.

Lemma outline_from_app pretty_labels bs1 : forall earlier bs2,
  outline_from pretty_labels earlier (bs1 ++ bs2)
  = outline_from pretty_labels earlier bs1
    ++ outline_from pretty_labels (earlier ++ bs1) bs2.
Proof.
  induction bs1 as [|x bs1 IH]; intros earlier bs2; cbn [outline_from app].
  - by rewrite app_nil_r.
  - rewrite IH. by rewrite <- app_assoc.
Qed.

(** The folder dictionary keeps, for a path, the last folder entry with
    that path; what it tells of a folder is left alone by the passes that
    only write [pages] and [page]. *)
Lemma folders_of_marks (l l' : list Item) :
  Forall2 (fun x y => key_of x = key_of y /\ only_images x = only_images y)
          l l' ->
  forall p, only_images <$> folders_of l !! p
            = only_images <$> folders_of l' !! p.
Proof.
  unfold folders_of. intros H.
  assert (G : forall m m' : gmap Path Item,
             (forall p, only_images <$> m !! p = only_images <$> m' !! p) ->
             forall p,
               only_images <$>
                 foldl (fun m x => if bool_decide (type x = folder)
                                   then <[path x := x]> m else m) m l !! p
               = only_images <$>
                   foldl (fun m x => if bool_decide (type x = folder)
                                     then <[path x := x]> m else m) m' l' !! p).
  { induction H as [|x y l l' [Hk Ho] _ IH]; intros m m' Hm; cbn [foldl];
      [done|].
    apply IH. intros p. unfold key_of in Hk. injection Hk as Hty Hp.
    rewrite Hty, Hp. case_bool_decide; [|done].
    destruct (decide (path y = p)) as [->|Hne].
    - rewrite !lookup_insert_eq. cbn. by rewrite Ho.
    - by rewrite !lookup_insert_ne. }
  by apply G.
Qed.

Lemma number_from_marks cursor tree :
  Forall2 (fun x y => key_of x = key_of y /\ only_images x = only_images y)
          tree (number_from cursor tree).
Proof.
  revert cursor. induction tree as [|x tree IH]; intros cursor;
    cbn [number_from]; constructor; [done|apply IH].
Qed.

Lemma bookmarked_marks (m m' : gmap Path Item) x :
  (forall p, only_images <$> m !! p = only_images <$> m' !! p) ->
  bookmarked m x = bookmarked m' x.
Proof. intros H. unfold bookmarked. by rewrite H. Qed.

Lemma folders_of_lookup_inv tree p f :
  folders_of tree !! p = Some f ->
  In f tree /\ type f = folder /\ path f = p.
Proof.
  unfold folders_of.
  assert (G : forall (m : gmap Path Item),
             foldl (fun m x => if bool_decide (type x = folder)
                               then <[path x := x]> m else m) m tree !! p
             = Some f ->
             (In f tree /\ type f = folder /\ path f = p) \/ m !! p = Some f).
  { induction tree as [|x tree IH]; intros m; cbn [foldl]; [by right|].
    intros [(Hin & Hty & Hp)|Hm]%IH; [left; split; [by right|done]|].
    case_bool_decide as Hty; [|by right].
    destruct (decide (path x = p)) as [Hp|Hne].
    - rewrite Hp, lookup_insert_eq in Hm. injection Hm as <-.
      left. split; [by left|done].
    - rewrite lookup_insert_ne in Hm by done. by right. }
  intros [H|Hm]%G; [done|]. by rewrite lookup_empty in Hm.
Qed.

Section MergeLoopFacts.

Variable read_pdf : Path -> option nat.
Variable convert_img : Path -> option string -> nat -> option (Path * nat).
Variable outline_raises : PdfWriter -> string -> nat -> option nat -> bool.
Variable folders : gmap Path Item.
Variable pretty_labels : bool.
Variable page_size : option string.
Variable dpi : nat.

Abbreviation step2 :=
  (merge_item read_pdf convert_img outline_raises
              folders pretty_labels page_size dpi).
Abbreviation loop2 :=
  (merge_loop read_pdf convert_img outline_raises
              folders pretty_labels page_size dpi).

(** When it returns, [_insert_into_pdf] has left the outline alone and
    returns the temporary file of a converted image. *)
Lemma insert_into_pdf_effect w item r :
  _insert_into_pdf read_pdf convert_img w item page_size dpi = Some r ->
  w_outline (fst r) = w_outline w
  /\ snd r = temp_of convert_img page_size dpi item.
Proof.
  unfold _insert_into_pdf, temp_of. destruct (type item); cbn.
  - by intros [= <-].
  - destruct (read_pdf (path item)); cbn; [|done]. by intros [= <-].
  - destruct (convert_img (path item) page_size dpi) as [[tmp n]|]; cbn;
      [|done]. by intros [= <-].
Qed.

(** When it returns, [_add_outline] has left the outline as it is and
    returns nothing, or has appended one item at the page of the entry,
    under the parent it was given, and returns its position. *)
Lemma add_outline_shape w item parent r :
  _add_outline outline_raises w item parent pretty_labels = Some r ->
  (w_outline (fst r) = w_outline w /\ snd r = None)
  \/ (exists lbl pg,
        page item = Some pg
        /\ w_outline (fst r) = w_outline w ++ [mkOutline lbl pg parent]
        /\ snd r = Some (List.length (w_outline w))).
Proof.
  unfold _add_outline. destruct (page item) as [pg|];
    [|intros [= <-]; by left].
  destruct (negb _ && _); [intros [= <-]; by left|].
  destruct (outline_raises _ _ _ _); [done|].
  intros [= <-]. right. eexists _, pg. by cbn.
Qed.

(** What one turn of the loop does to the temporary files, the outline
    and the parent map, whatever the writer answers. *)
Lemma merge_item_shape st item st' item' :
  step2 st item = Some (st', item') ->
  tempfiles st'
  = tempfiles st ++ option_list (temp_of convert_img page_size dpi item)
  /\ ((w_outline (writer st') = w_outline (writer st)
       /\ (parents st' = parents st
           \/ parents st' = <[path item := None]> (parents st)))
      \/ (exists lbl,
            w_outline (writer st')
            = w_outline (writer st)
              ++ [mkOutline lbl (page_index st)
                            (default None
                               (parents st !! PurePath.parent (path item)))]
            /\ (parents st' = parents st
                \/ parents st'
                   = <[path item := Some (List.length (w_outline (writer st)))]>
                       (parents st)))).
Proof.
  unfold merge_item.
  destruct (_insert_into_pdf read_pdf convert_img (writer st) item
                             page_size dpi) as [[w tmp]|] eqn:Eins;
    cbn -[_add_outline]; [|done].
  destruct (insert_into_pdf_effect _ _ _ Eins) as [Ho Htmp].
  cbn [fst snd] in Ho, Htmp.
  rewrite <- Ho, <- Htmp.
  assert (Htf : match tmp with
                | Some t => tempfiles st ++ [t]
                | None => tempfiles st
                end = tempfiles st ++ option_list tmp).
  { destruct tmp; cbn; [done|by rewrite app_nil_r]. }
  rewrite Htf. clear Htf Ho Htmp.
  assert (Hcase : forall w' o ps,
            _add_outline outline_raises w (set_page (page_index st) item)
              (default None (parents st !! PurePath.parent (path item)))
              pretty_labels = Some (w', o) ->
            (ps = parents st \/ ps = <[path item := o]> (parents st)) ->
            (w_outline w' = w_outline w
             /\ (ps = parents st \/ ps = <[path item := None]> (parents st)))
            \/ (exists lbl,
                  w_outline w'
                  = w_outline w
                    ++ [mkOutline lbl (page_index st)
                          (default None
                             (parents st !! PurePath.parent (path item)))]
                  /\ (ps = parents st
                      \/ ps = <[path item := Some (List.length (w_outline w))]>
                                (parents st)))).
  { intros w' o ps E Hps.
    apply add_outline_shape in E. cbn [fst snd set_page page] in E.
    destruct E as [[H1 ->]|(lbl & pg & [= <-] & H1 & ->)].
    - left. by split.
    - right. exists lbl. by split. }
  destruct (type item) eqn:Hty; cbn -[_add_outline].
  - destruct (_add_outline _ _ _ _ _) as [[w' o]|] eqn:E; cbn; [|done].
    intros [= <- <-]. cbn [tempfiles writer parents]. split; [done|].
    apply (Hcase _ _ _ eq_refl). by right.
  - destruct (_add_outline _ _ _ _ _) as [[w' o]|] eqn:E; cbn; [|done].
    intros [= <- <-]. cbn [tempfiles writer parents]. split; [done|].
    apply (Hcase _ _ _ eq_refl). by left.
  - destruct (folders !! _) as [fld|]; cbn -[_add_outline]; [|done].
    destruct (only_images fld).
    + intros [= <- <-]. cbn [tempfiles writer parents]. split; [done|].
      left. split; [done|by left].
    + destruct (_add_outline _ _ _ _ _) as [[w' o]|] eqn:E; cbn; [|done].
      intros [= <- <-]. cbn [tempfiles writer parents]. split; [done|].
      apply (Hcase _ _ _ eq_refl). by left.
Qed.

(** Over the loop the temporary files of the converted images are
    collected in emission order. *)
Lemma merge_loop_tempfiles tree : forall st st' tree',
  loop2 st tree = Some (st', tree') ->
  tempfiles st'
  = tempfiles st ++ omap (temp_of convert_img page_size dpi) tree.
Proof.
  induction tree as [|x tree IH]; intros st st' tree'; cbn [merge_loop].
  - intros [= <- <-]. cbn. by rewrite app_nil_r.
  - destruct (step2 st x) as [[st1 x']|] eqn:E1; cbn; [|done].
    destruct (loop2 st1 tree) as [[st2 rest']|] eqn:E2; cbn; [|done].
    intros [= <- <-]. apply IH in E2. rewrite E2.
    apply merge_item_shape in E1 as [-> _]. rewrite <- app_assoc. f_equal.
    by destruct (temp_of convert_img page_size dpi x).
Qed.

End MergeLoopFacts.

Lemma flat_map_keys {B} (f : Item -> list B) (l l' : list Item) :
  (forall x y, key_of x = key_of y -> f x = f y) ->
  map key_of l = map key_of l' ->
  flat_map f l = flat_map f l'.
Proof.
  intros Hf. revert l'. induction l as [|x l IH]; intros [|y l'] H;
    try done.
  pose proof (f_equal head H) as Hk. pose proof (f_equal tail H) as Hl.
  cbn in Hk, Hl. apply (inj Some) in Hk.
  cbn. by rewrite (Hf x y Hk), (IH l' Hl).
Qed.

Lemma pages_of_lookup p n k : k < n -> pages_of p n !! k = Some (p, k).
Proof.
  intros Hk. unfold pages_of.
  change (map ?f ?l) with (f <$> l). rewrite list_lookup_fmap.
  by rewrite lookup_seq_lt.
Qed.

Lemma length_pages_of p n : List.length (pages_of p n) = n.
Proof. unfold pages_of. by rewrite length_map, length_seq. Qed.

(** Numbered entries point at their pages: when each entry contributes
    as many pages as it counts, the start page of an entry is the
    position of its first page. *)
Lemma number_from_points l : forall cursor (pre : list (Path * nat)) y pg k,
  List.length pre = cursor ->
  y ∈ number_from cursor l -> page y = Some pg -> k < get_pages y ->
  (pre ++ flat_map (fun x => pages_of (path x) (get_pages x)) l) !! (pg + k)
  = Some (path y, k).
Proof.
  induction l as [|x l IH]; intros cursor pre y pg k Hlen;
    cbn [number_from flat_map].
  { by intros ?%elem_of_nil. }
  intros [->|Hy]%elem_of_cons Hpg Hk.
  - cbn in Hpg. injection Hpg as <-.
    change (k < get_pages x) in Hk. cbn [path set_page].
    rewrite lookup_app_r by lia.
    rewrite lookup_app_l by (rewrite length_pages_of; lia).
    replace (cursor + k - List.length pre) with k by lia.
    by apply pages_of_lookup.
  - rewrite app_assoc.
    apply (IH (cursor + get_pages x)); try done.
    rewrite length_app, length_pages_of. lia.
Qed.

Lemma number_from_total l : forall cursor,
  cursor
  + List.length (flat_map (fun x => pages_of (path x) (get_pages x)) l)
  = cursor + sum_list (map get_pages l).
Proof.
  induction l as [|x l IH]; intros cursor; [done|].
  cbn [flat_map map sum_list]. rewrite length_app, length_pages_of.
  specialize (IH 0). cbn in IH. cbn. lia.
Qed.

Section MergeLoopInvariants.

Variable read_pdf : Path -> option nat.
Variable convert_img : Path -> option string -> nat -> option (Path * nat).
Variable outline_raises : PdfWriter -> string -> nat -> option nat -> bool.
Variable folders : gmap Path Item.
Variable pretty_labels : bool.
Variable page_size : option string.
Variable dpi : nat.

Abbreviation step3 :=
  (merge_item read_pdf convert_img outline_raises
              folders pretty_labels page_size dpi).
Abbreviation loop3 :=
  (merge_loop read_pdf convert_img outline_raises
              folders pretty_labels page_size dpi).

(** One turn keeps the outline in order. *)
Lemma merge_item_outline_ok st item st' item' :
  step3 st item = Some (st', item') -> outline_ok st -> outline_ok st'.
Proof.
  intros E (Hpar & Hearlier & Hbound & Hmono).
  pose proof (merge_item_page _ _ _ _ _ _ _ _ _ _ _ E) as (_ & Hpi & _).
  apply merge_item_shape in E as [_ [[Ho Hps]|(lbl & Ho & Hps)]];
    unfold outline_ok; rewrite Ho.
  - split; [|split; [done|split; [|done]]].
    + intros p n Hp. apply (Hpar p).
      destruct Hps as [Hps|Hps]; rewrite Hps in Hp; [done|].
      destruct (decide (path item = p)) as [<-|Hne].
      * by rewrite lookup_insert_eq in Hp.
      * by rewrite lookup_insert_ne in Hp.
    + intros i o Hi. specialize (Hbound i o Hi). lia.
  - rewrite length_app. cbn [List.length].
    split; [|split; [|split]].
    + intros p n Hp. destruct Hps as [Hps|Hps]; rewrite Hps in Hp.
      * specialize (Hpar p n Hp). lia.
      * destruct (decide (path item = p)) as [<-|Hne].
        { rewrite lookup_insert_eq in Hp. injection Hp as <-. lia. }
        rewrite lookup_insert_ne in Hp by done.
        specialize (Hpar p n Hp). lia.
    + intros i o n [[_ Hi]|[-> <-]]%lookup_snoc_Some Hn.
      * by apply (Hearlier i o).
      * cbn in Hn.
        destruct (parents st !! PurePath.parent (path item))
          as [[m|]|] eqn:Ep; cbn in Hn; try done.
        injection Hn as <-. by apply (Hpar _ _ Ep).
    + intros i o [[_ Hi]|[-> <-]]%lookup_snoc_Some.
      * specialize (Hbound i o Hi). lia.
      * cbn. lia.
    + intros i j o o' Hij [[Hlt Hi]|[-> <-]]%lookup_snoc_Some
        [[Hlt' Hj]|[-> <-]]%lookup_snoc_Some.
      * by apply (Hmono i j).
      * cbn. by apply (Hbound i).
      * lia.
      * done.
Qed.

Lemma merge_loop_outline_ok tree : forall st st' tree',
  loop3 st tree = Some (st', tree') -> outline_ok st -> outline_ok st'.
Proof.
  induction tree as [|x tree IH]; intros st st' tree'; cbn [merge_loop].
  - by intros [= <- <-].
  - destruct (step3 st x) as [[st1 x']|] eqn:E1; cbn; [|done].
    destruct (loop3 st1 tree) as [[st2 rest']|] eqn:E2; cbn; [|done].
    intros [= <- <-] Hok. eapply IH; [exact E2|].
    by eapply merge_item_outline_ok.
Qed.

Hypothesis accepts : forall w t pg parent, outline_raises w t pg parent = false.

(** With a writer that accepts every request, one turn adds the item of
    a bookmarked entry under the item recorded for its parent folder, and
    records the item of a folder. *)
Lemma merge_item_accepting st item st' item' :
  step3 st item = Some (st', item') ->
  w_outline (writer st')
  = w_outline (writer st)
    ++ (if bookmarked folders item
        then [mkOutline (outline_label pretty_labels item) (page_index st)
                (default None (parents st !! PurePath.parent (path item)))]
        else [])
  /\ parents st'
     = (if bool_decide (type item = folder)
        then <[path item := Some (List.length (w_outline (writer st)))]>
               (parents st)
        else parents st).
Proof.
  unfold merge_item.
  destruct (_insert_into_pdf read_pdf convert_img (writer st) item
                             page_size dpi) as [[w tmp]|] eqn:Eins;
    cbn -[_add_outline]; [|done].
  destruct (insert_into_pdf_effect read_pdf convert_img page_size dpi
              _ _ _ Eins) as [Ho _].
  cbn [fst] in Ho. rewrite <- Ho. clear Ho Eins.
  assert (Hadd : forall parent,
            _add_outline outline_raises w (set_page (page_index st) item)
                         parent pretty_labels
            = Some (if negb (bool_decide (type item = folder))
                       && (get_pages item =? 0)%nat
                    then (w, None)
                    else (mkWriter (w_pages w)
                                   (w_outline w
                                    ++ [mkOutline
                                          (outline_label pretty_labels item)
                                          (page_index st) parent]),
                          Some (List.length (w_outline w))))).
  { intros parent.
    by rewrite (add_outline_accepted outline_raises pretty_labels
                  w (set_page (page_index st) item)
                  parent (page_index st) eq_refl (accepts _ _ _ _)). }
  unfold bookmarked. unfold get_pages, PurePath.parent in *.
  destruct (type item) eqn:Hty; cbn -[_add_outline].
  - rewrite Hadd. cbn. intros [= <- <-]. by cbn.
  - rewrite Hadd. cbn.
    destruct (default 0 (pages item) =? 0)%nat eqn:Hz; cbn;
      intros [= <- <-]; cbn; by rewrite ?app_nil_r.
  - destruct (folders !! _) as [fld|] eqn:Hfld; cbn -[_add_outline]; [|done].
    destruct (only_images fld) eqn:Hoi.
    + intros [= <- <-]. cbn. rewrite andb_false_r. by rewrite app_nil_r.
    + rewrite Hadd. cbn.
      destruct (default 0 (pages item) =? 0)%nat eqn:Hz; cbn;
        intros [= <- <-]; cbn; by rewrite ?app_nil_r.
Qed.

(** Over the loop: the outline grows by the items of the bookmarked
    entries, each under the item of the last folder entry before it that
    has the path of its parent directory. *)
Lemma merge_loop_accepting tree : forall st st' tree' earlier,
  loop3 st tree = Some (st', tree') ->
  List.length (w_outline (writer st)) = List.length earlier ->
  (forall p, default None (parents st !! p) = last_folder 0 p earlier) ->
  w_outline (writer st')
  = w_outline (writer st)
    ++ outline_from pretty_labels earlier
                    (List.filter (bookmarked folders) tree').
Proof.
  induction tree as [|x tree IH]; intros st st' tree' earlier;
    cbn [merge_loop].
  { intros [= <- <-] _ _. cbn. by rewrite !app_nil_r. }
  destruct (step3 st x) as [[st1 x']|] eqn:E1; cbn -[List.filter];
    [|done].
  destruct (loop3 st1 tree) as [[st2 rest']|] eqn:E2;
    cbn -[List.filter]; [|done].
  intros [= <- <-] Hlen Hpar.
  pose proof (merge_item_page _ _ _ _ _ _ _ _ _ _ _ E1) as [-> _].
  apply merge_item_accepting in E1 as (Ho & Hps).
  assert (Hbm : bookmarked folders (set_page (page_index st) x)
                = bookmarked folders x) by done.
  cbn [List.filter]. rewrite Hbm.
  destruct (bookmarked folders x) eqn:Hb.
  - rewrite (IH st1 st2 rest'
                (earlier ++ [set_page (page_index st) x]) E2).
    + rewrite Ho, <- app_assoc. f_equal.
      cbn [outline_from app]. f_equal. cbn. by rewrite Hpar.
    + rewrite Ho, !length_app. cbn. lia.
    + intros p. rewrite last_folder_snoc, Hps. cbn [type path set_page].
      case_bool_decide as Hty.
      * destruct (decide (path x = p)) as [<-|Hne].
        { rewrite lookup_insert_eq. cbn.
          rewrite bool_decide_eq_true_2 by done. by rewrite Hlen. }
        rewrite lookup_insert_ne by done.
        rewrite bool_decide_eq_false_2 by (by intros [_ ?]). apply Hpar.
      * rewrite bool_decide_eq_false_2 by (by intros [? _]). apply Hpar.
  - assert (Hty : type x <> folder).
    { intros Hty. unfold bookmarked in Hb. by rewrite Hty in Hb. }
    rewrite bool_decide_eq_false_2 in Hps by done.
    rewrite app_nil_r in Ho.
    rewrite (IH st1 st2 rest' earlier E2).
    + by rewrite Ho.
    + by rewrite Ho.
    + intros p. rewrite Hps. apply Hpar.
Qed.

End MergeLoopInvariants.

Lemma omap_keys {B} (f : Item -> option B) (l l' : list Item) :
  (forall x y, key_of x = key_of y -> f x = f y) ->
  map key_of l = map key_of l' ->
  omap f l = omap f l'.
Proof.
  intros Hf. revert l'. induction l as [|x l IH]; intros [|y l'] H;
    try done.
  pose proof (f_equal head H) as Hk. pose proof (f_equal tail H) as Hl.
  cbn in Hk, Hl. apply (inj Some) in Hk.
  cbn. by rewrite (Hf x y Hk), (IH l' Hl).
Qed.

Lemma key_of_fields (x y : Item) :
  key_of x = key_of y -> type x = type y /\ path x = path y.
Proof. unfold key_of. by intros [= -> ->]. Qed.

(** The value [_assign_folder_page_indices] ends with. *)
Lemma assign_from_end_fst tree :
  fst (assign_from_end tree) = next_valid_page tree.
Proof.
  induction tree as [|x tree IH]; cbn [assign_from_end next_valid_page];
    [done|].
  destruct (assign_from_end tree) as [lvp rest']. cbn [fst] in IH.
  destruct (page x); repeat case_match; cbn [fst]; done.
Qed.

(** X20. [_assign_folder_page_indices] on its own: an entry that has a
    start page and a positive page count is left as it is, and so is
    every file entry; any other folder entry receives the start page of
    the first entry after it that has a start page and a positive page
    count, and 0 when no such entry follows. *)
Theorem assign_folder_page_indices_fills_backwards tree : forall i x,
  tree !! i = Some x ->
  _assign_folder_page_indices tree !! i
  = Some (if bool_decide (type x = folder)
             && negb (bool_decide (is_Some (page x))
                      && (0 <? get_pages x)%nat)
          then set_page (next_valid_page (drop (S i) tree)) x
          else x).
Proof.
  unfold _assign_folder_page_indices.
  induction tree as [|y tree IH]; intros i x Hi.
  { by rewrite lookup_nil in Hi. }
  cbn [assign_from_end].
  pose proof (assign_from_end_fst tree) as Hfst.
  destruct (assign_from_end tree) as [lvp rest']. cbn [fst snd] in *.
  destruct i as [|i].
  - cbn in Hi. injection Hi as ->. cbn [drop]. subst lvp.
    destruct (page x) as [pg|] eqn:Hpg.
    + rewrite (bool_decide_eq_true_2 (is_Some (Some pg))) by eauto.
      destruct (0 <? get_pages x)%nat; cbn [andb negb snd].
      * by rewrite andb_false_r.
      * rewrite andb_true_r. by case_bool_decide.
    + rewrite (bool_decide_eq_false_2 (is_Some None))
        by (by intros [? ?]).
      cbn [andb negb]. rewrite andb_true_r. by case_bool_decide.
  - cbn in Hi. cbn [drop]. rewrite <- (IH i x Hi).
    destruct (page y); repeat case_match; done.
Qed.

Section MergeProperties.

Variable read_pdf : Path -> option nat.
Variable convert_img : Path -> option string -> nat -> option (Path * nat).
Variable outline_raises : PdfWriter -> string -> nat -> option nat -> bool.

Abbreviation merge1 := (merge read_pdf convert_img outline_raises).

(** X13. [merge] returns only when each image entry has a folder entry
    for the directory that holds it (else the lookup of line 50 raises),
    the reader opens every PDF entry and the converter converts every
    image entry (else the call of line 88, 108 or 118 raises); with a
    writer that accepts every outline item it returns whenever these
    three hold. *)
Theorem merge_returns_iff tree out pretty_labels page_size dpi :
  (is_Some (merge1 tree out pretty_labels page_size dpi) ->
   parents_present tree
   /\ content_readable read_pdf convert_img page_size dpi tree)
  /\ ((forall w t pg parent, outline_raises w t pg parent = false) ->
      parents_present tree ->
      content_readable read_pdf convert_img page_size dpi tree ->
      is_Some (merge1 tree out pretty_labels page_size dpi)).
Proof.
  split; [|intros Hok Hpar Hr; by apply merge_total].
  unfold merge.
  destruct (_update_files_page_count read_pdf tree) as [tree1|] eqn:E; cbn;
    [|by intros [? ?]].
  assert (Hpdf : Forall (fun x => type x = pdf ->
                                  is_Some (read_pdf (path x))) tree).
  { apply update_files_page_count_Some. eauto. }
  apply update_files_page_count_map in E as ->.
  intros [r Hr]. apply merge_loop_Some_readable in Hr as [Hcv Hr].
  split.
  - apply (proj2 (parents_present_keys tree)).
    rewrite <- (merge_prepared_keys read_pdf tree).
    apply (proj1 (parents_present_keys _)). unfold parents_present.
    eapply Forall_impl; [exact Hr|]. intros x H Hx. cbn in H.
    destruct (H Hx) as [f Hf].
    apply folders_of_lookup_inv in Hf as (Hin & Hty & Hp).
    apply Exists_exists. exists f. split; [by apply list_elem_of_In|done].
  - apply (content_readable_keys read_pdf convert_img page_size dpi
             (_assign_folder_page_indices (map (count_pages read_pdf) tree)));
      [apply merge_prepared_keys|].
    apply (content_readable_keys read_pdf convert_img page_size dpi tree);
      [symmetry; apply merge_prepared_keys|].
    unfold content_readable. rewrite Forall_forall in Hpdf.
    apply Forall_forall. intros x Hx. split; [by apply Hpdf|].
    assert (Hcv' : Forall (fun x => type x = img ->
                      is_Some (convert_img (path x) page_size dpi)) tree).
    { clear -Hcv.
      assert (G : forall l l' : list Item,
                 map key_of l = map key_of l' ->
                 Forall (fun x => type x = img ->
                           is_Some (convert_img (path x) page_size dpi)) l ->
                 Forall (fun x => type x = img ->
                           is_Some (convert_img (path x) page_size dpi)) l').
      { induction l as [|a l IH]; intros [|b l'] H; try done.
        pose proof (f_equal head H) as Hk.
        pose proof (f_equal tail H) as Hl.
        cbn in Hk, Hl. apply (inj Some) in Hk.
        unfold key_of in Hk. injection Hk as Hty Hp.
        rewrite !Forall_cons. intros [Ha Hall]. split; [|by apply IH].
        by rewrite <- Hty, <- Hp. }
      exact (G _ _ (merge_prepared_keys read_pdf tree) Hcv). }
    rewrite Forall_forall in Hcv'. by apply Hcv'.
Qed.

(** X14. [merge] keeps every entry in its place and writes nothing but
    [pages] and [page]: type, path, title, labels, label and the
    image-only mark are as before; a PDF gets the page count the reader
    finds, an image gets 1, a folder keeps what it had; every entry gets
    a start page. *)
Theorem merge_keeps_entries tree out pretty_labels page_size dpi st tree' :
  merge1 tree out pretty_labels page_size dpi = Some (st, tree') ->
  Forall2 (fun x y =>
             type y = type x /\ path y = path x /\ title y = title x
             /\ labels y = labels x /\ label y = label x
             /\ only_images y = only_images x
             /\ pages y = match type x with
                          | folder => pages x
                          | pdf => Some (default 0 (read_pdf (path x)))
                          | img => Some 1
                          end
             /\ is_Some (page y))
          tree tree'.
Proof.
  intros [-> _]%merge_result. generalize 0 at 3.
  induction tree as [|x tree IH]; intros cursor; cbn [map number_from];
    [constructor|].
  constructor; [|apply IH].
  unfold count_pages. destruct (type x) eqn:Hty; cbn; rewrite ?Hty; eauto 10.
Qed.

(** X15. The temporary files [merge] returns are those of the images
    that were converted and read back, one each, in emission order; a
    PDF and a folder contribute none. *)
Theorem merge_returns_temporary_files
        tree out pretty_labels page_size dpi st tree' :
  merge1 tree out pretty_labels page_size dpi = Some (st, tree') ->
  tempfiles st = omap (temp_of convert_img page_size dpi) tree.
Proof.
  unfold merge.
  destruct (_update_files_page_count read_pdf tree) as [tree1|] eqn:E; cbn;
    [|done].
  apply update_files_page_count_map in E as ->.
  intros H. apply merge_loop_tempfiles in H. rewrite H. cbn [tempfiles app].
  apply omap_keys; [|apply merge_prepared_keys].
  intros x y [Hty Hp]%key_of_fields. unfold temp_of. by rewrite Hty, Hp.
Qed.

(** X16. When every image converts to a file of one page and no folder
    entry carries a page count, the start pages are exact: the writer
    holds as many pages as the cursor counts, and the pages of an entry
    stand in the writer from its start page on, in their order. *)
Theorem start_pages_point_at_the_pages
        tree out pretty_labels page_size dpi st tree' :
  Forall (fun x => type x = folder -> pages x = None) tree ->
  Forall (fun x => type x = img ->
                   exists tmp, convert_img (path x) page_size dpi
                               = Some (tmp, 1)) tree ->
  merge1 tree out pretty_labels page_size dpi = Some (st, tree') ->
  List.length (w_pages (writer st)) = page_index st
  /\ forall y pg k,
       y ∈ tree' -> page y = Some pg -> k < get_pages y ->
       w_pages (writer st) !! (pg + k) = Some (path y, k).
Proof.
  intros Hfold Himg Hm.
  pose proof (merge_result _ _ _ _ _ _ _ _ _ _ Hm) as [-> Hpi].
  assert (Hw : w_pages (writer st)
               = flat_map (fun x => pages_of (path x) (get_pages x))
                          (map (count_pages read_pdf) tree)).
  { unfold merge in Hm.
    destruct (_update_files_page_count read_pdf tree) as [tree1|] eqn:E;
      cbn in Hm; [|done].
    apply update_files_page_count_map in E as ->.
    apply merge_loop_inserted in Hm. rewrite Hm. cbn [writer w_pages app].
    rewrite (flat_map_keys _ _ tree).
    2:{ intros x y [Hty Hp]%key_of_fields. unfold inserted.
        by rewrite Hty, Hp. }
    2:{ apply merge_prepared_keys. }
    clear Hm Hpi. induction tree as [|x tree IH]; [done|].
    apply Forall_cons in Hfold as [Hx Hfold].
    apply Forall_cons in Himg as [Hi Himg].
    cbn [flat_map map]. rewrite (IH Hfold Himg). f_equal.
    unfold inserted, count_pages, get_pages.
    destruct (type x) eqn:Hty; cbn.
    - by rewrite (Hx eq_refl).
    - done.
    - by destruct (Hi eq_refl) as [tmp ->]. }
  rewrite Hw, Hpi. split.
  - apply (number_from_total _ 0).
  - intros y pg k Hy Hpg Hk.
    by apply (number_from_points _ 0 [] y pg k eq_refl Hy Hpg Hk).
Qed.

(** X17. The outline a [merge] that returns leaves is in order: the
    parent of an item is an item made before it, the target pages do not
    decrease along the outline, and no item points beyond the final
    value of the cursor. *)
Theorem outline_is_well_formed tree out pretty_labels page_size dpi st tree' :
  merge1 tree out pretty_labels page_size dpi = Some (st, tree') ->
  (forall i o n, w_outline (writer st) !! i = Some o ->
                 o_parent o = Some n -> n < i)
  /\ (forall i j o o', i <= j ->
                       w_outline (writer st) !! i = Some o ->
                       w_outline (writer st) !! j = Some o' ->
                       o_page_number o <= o_page_number o')
  /\ (forall i o, w_outline (writer st) !! i = Some o ->
                  o_page_number o <= page_index st).
Proof.
  unfold merge.
  destruct (_update_files_page_count read_pdf tree) as [tree1|]; cbn;
    [|done].
  intros H. apply merge_loop_outline_ok in H as (_ & H1 & H2 & H3); [done|].
  unfold outline_ok. cbn. repeat split.
  - intros p n Hp. by rewrite lookup_empty in Hp.
  - intros i o n Hi. by rewrite lookup_nil in Hi.
  - intros i o Hi. by rewrite lookup_nil in Hi.
  - intros i j o o' _ Hi. by rewrite lookup_nil in Hi.
Qed.

(** X18. With a writer that accepts every request, the outline mirrors
    the folders: it holds one item for each bookmarked entry (every
    folder, every content unit with pages that is not an image of an
    image-only folder), in emission order, titled by the label of the
    entry, at its start page, and placed under the item of the last
    folder entry before it whose path is the directory that holds the
    entry; an entry without such a folder stands at the top level. *)
Theorem outline_mirrors_folders tree out pretty_labels page_size dpi st tree' :
  (forall w t pg parent, outline_raises w t pg parent = false) ->
  merge1 tree out pretty_labels page_size dpi = Some (st, tree') ->
  w_outline (writer st)
  = outline_from pretty_labels []
                 (List.filter (bookmarked (folders_of tree')) tree').
Proof.
  intros Hok. unfold merge.
  destruct (_update_files_page_count read_pdf tree) as [tree1|]; cbn;
    [|done].
  intros H.
  pose proof (merge_loop_pages _ _ _ _ _ _ _ _ _ _ _ H) as [Htree' _].
  cbn [page_index] in Htree'.
  apply (merge_loop_accepting _ _ _ _ _ _ _ Hok _ _ _ _ []) in H;
    [|done..].
  rewrite H. cbn [writer w_outline app]. f_equal.
  apply filter_ext. intros x. apply bookmarked_marks.
  apply folders_of_marks. rewrite Htree'. apply number_from_marks.
Qed.

(** X19. [merge] prints nothing and stops at the first failure: when it
    returns, the console holds what it held before; and one PDF entry
    the reader cannot open, or one image entry the converter cannot
    convert, makes it raise, whatever the writer does. *)
Theorem merge_stops_at_a_failure tree out pretty_labels page_size dpi :
  (forall st tree',
      merge1 tree out pretty_labels page_size dpi = Some (st, tree') ->
      console st = out)
  /\ (Exists (fun x => type x = pdf /\ read_pdf (path x) = None) tree ->
      merge1 tree out pretty_labels page_size dpi = None)
  /\ (Exists (fun x => type x = img
                       /\ convert_img (path x) page_size dpi = None) tree ->
      merge1 tree out pretty_labels page_size dpi = None).
Proof.
  split; [|split].
  - intros st tree'. unfold merge.
    destruct (_update_files_page_count read_pdf tree) as [tree1|]; cbn;
      [|done].
    intros H. by apply merge_loop_pages in H as (_ & _ & ->).
  - intros Hex.
    by apply (unreadable_pdf_raises read_pdf convert_img outline_raises).
  - intros Hex.
    destruct (merge1 tree out pretty_labels page_size dpi) as [r|] eqn:E;
      [|done].
    assert (Hs : is_Some (merge1 tree out pretty_labels page_size dpi))
      by eauto.
    clear E. unfold merge in Hs.
    destruct (_update_files_page_count read_pdf tree) as [tree1|] eqn:E;
      cbn in Hs; [|by destruct Hs].
    apply update_files_page_count_map in E as ->.
    destruct Hs as [r' Hr].
    apply merge_loop_Some_readable in Hr as [Hcv _].
    apply Exists_exists in Hex as (x & Hx & Hty & Hc).
    pose proof (merge_prepared_keys read_pdf tree) as Hk.
    apply list_elem_of_In in Hx.
    apply (in_map key_of) in Hx. rewrite <- Hk in Hx.
    apply in_map_iff in Hx as (y & Hy & Hin).
    rewrite Forall_forall in Hcv. apply list_elem_of_In in Hin.
    unfold key_of in Hy. injection Hy as Hty' Hp'.
    destruct (Hcv y Hin) as [c Hc']; [congruence|].
    rewrite Hp' in Hc'. congruence.
Qed.

(** X21. The loop of [merge] does not depend on what
    [_assign_folder_page_indices] wrote before it: it ends in the same
    state and leaves the same entries when it runs on the entries as
    they were before that pass. Every start page the pass wrote is
    overwritten, and none is read. *)
Theorem merge_loop_ignores_folder_page_indices
        tree pretty_labels page_size dpi st0 :
  merge_loop read_pdf convert_img outline_raises
             (folders_of (_assign_folder_page_indices tree))
             pretty_labels page_size dpi st0
             (_assign_folder_page_indices tree)
  = merge_loop read_pdf convert_img outline_raises
               (folders_of tree) pretty_labels page_size dpi st0 tree.
Proof.
  unfold _assign_folder_page_indices.
  pose proof (assign_from_end_shape tree) as Hshape.
  assert (Hf : forall p,
            only_images <$> folders_of (snd (assign_from_end tree)) !! p
            = only_images <$> folders_of tree !! p).
  { intros p. symmetry. apply folders_of_marks.
    eapply Forall2_impl; [exact Hshape|].
    intros x y [->|[n ->]]; done. }
  generalize dependent (folders_of (snd (assign_from_end tree))).
  generalize (folders_of tree). intros F F' HF. revert st0.
  induction Hshape as [|x y l l' Hxy _ IH]; intros st0; [done|].
  cbn [merge_loop].
  assert (Hstep : merge_item read_pdf convert_img outline_raises
                             F' pretty_labels page_size dpi st0 y
                  = merge_item read_pdf convert_img outline_raises
                               F pretty_labels page_size dpi st0 x).
  { assert (Hy : merge_item read_pdf convert_img outline_raises
                            F' pretty_labels page_size dpi st0 y
                 = merge_item read_pdf convert_img outline_raises
                              F' pretty_labels page_size dpi st0 x)
      by (destruct Hxy as [->|[n ->]]; done).
    rewrite Hy. unfold merge_item.
    destruct (_insert_into_pdf _ _ _ _ _ _) as [[w tmp]|];
      cbn -[_add_outline]; [|done].
    destruct (type x); try done. specialize (HF (PurePath.parent (path x))).
    destruct (F' !! _) as [f'|], (F !! _) as [f|]; cbn in HF; try done.
    injection HF as HF. cbn -[_add_outline]. by rewrite HF. }
  rewrite Hstep. clear Hstep.
  destruct (merge_item _ _ _ _ _ _ _ _ _) as [[st1 x']|]; cbn; [|done].
  by rewrite IH.
Qed.

End MergeProperties.

Lemma assign_folder_page_indices_fills_backwards_witness :
  Sample2.numbered !! 1
  = Some (mkItem folder ["r"; "s"] None ∅ None false None (Some 9))
  /\ _assign_folder_page_indices Sample2.numbered !! 1
     = Some (mkItem folder ["r"; "s"] None ∅ None false None (Some 5)).
Proof.
  assert (H1 : Sample2.numbered !! 1
               = Some (mkItem folder ["r"; "s"] None ∅ None false None
                              (Some 9))) by reflexivity.
  split; [exact H1|].
  exact (assign_folder_page_indices_fills_backwards
           Sample2.numbered 1 _ H1).
Defined.

Lemma merge_keeps_entries_witness :
  merge Sample.read_pdf Sample.convert_img Sample.outline_raises
        Sample.tree [] false None 150
  = Some (Sample2.merged_state, Sample2.merged_tree)
  /\ Forall2 (fun x y =>
                type y = type x /\ path y = path x /\ title y = title x
                /\ labels y = labels x /\ label y = label x
                /\ only_images y = only_images x
                /\ pages y = match type x with
                             | folder => pages x
                             | pdf => Some (default 0 (Sample.read_pdf (path x)))
                             | img => Some 1
                             end
                /\ is_Some (page y))
             Sample.tree Sample2.merged_tree.
Proof.
  assert (H1 : merge Sample.read_pdf Sample.convert_img Sample.outline_raises
                     Sample.tree [] false None 150
               = Some (Sample2.merged_state, Sample2.merged_tree))
    by (by vm_compute).
  split; [exact H1|].
  exact (merge_keeps_entries
           Sample.read_pdf Sample.convert_img Sample.outline_raises
           Sample.tree [] false None 150 _ _ H1).
Defined.

Lemma merge_returns_temporary_files_witness :
  merge Sample.read_pdf Sample.convert_img Sample.outline_raises
        Sample.tree [] false None 150
  = Some (Sample2.merged_state, Sample2.merged_tree)
  /\ tempfiles Sample2.merged_state
     = omap (temp_of Sample.convert_img None 150) Sample.tree.
Proof.
  assert (H1 : merge Sample.read_pdf Sample.convert_img Sample.outline_raises
                     Sample.tree [] false None 150
               = Some (Sample2.merged_state, Sample2.merged_tree))
    by (by vm_compute).
  split; [exact H1|].
  exact (merge_returns_temporary_files
           Sample.read_pdf Sample.convert_img Sample.outline_raises
           Sample.tree [] false None 150 _ _ H1).
Defined.

Lemma start_pages_point_at_the_pages_witness :
  Forall (fun x => type x = folder -> pages x = None) Sample.tree
  /\ Forall (fun x => type x = img ->
                      exists tmp, Sample.convert_img (path x) None 150
                                  = Some (tmp, 1)) Sample.tree
  /\ merge Sample.read_pdf Sample.convert_img Sample.outline_raises
           Sample.tree [] false None 150
     = Some (Sample2.merged_state, Sample2.merged_tree)
  /\ List.length (w_pages (writer Sample2.merged_state))
     = page_index Sample2.merged_state
  /\ forall y pg k,
       y ∈ Sample2.merged_tree -> page y = Some pg -> k < get_pages y ->
       w_pages (writer Sample2.merged_state) !! (pg + k) = Some (path y, k).
Proof.
  assert (H1 : Forall (fun x => type x = folder -> pages x = None)
                      Sample.tree) by (by repeat constructor).
  assert (H2 : Forall (fun x => type x = img ->
                                exists tmp,
                                  Sample.convert_img (path x) None 150
                                  = Some (tmp, 1)) Sample.tree)
    by (repeat constructor; intros _; by eexists).
  assert (H3 : merge Sample.read_pdf Sample.convert_img Sample.outline_raises
                     Sample.tree [] false None 150
               = Some (Sample2.merged_state, Sample2.merged_tree))
    by (by vm_compute).
  split; [exact H1|]. split; [exact H2|]. split; [exact H3|].
  exact (start_pages_point_at_the_pages
           Sample.read_pdf Sample.convert_img Sample.outline_raises
           Sample.tree [] false None 150 _ _ H1 H2 H3).
Defined.

Lemma outline_is_well_formed_witness :
  merge Sample.read_pdf Sample.convert_img Sample.outline_raises
        Sample.tree [] false None 150
  = Some (Sample2.merged_state, Sample2.merged_tree)
  /\ (forall i o n, w_outline (writer Sample2.merged_state) !! i = Some o ->
                    o_parent o = Some n -> n < i)
  /\ (forall i j o o', i <= j ->
                       w_outline (writer Sample2.merged_state) !! i = Some o ->
                       w_outline (writer Sample2.merged_state) !! j = Some o' ->
                       o_page_number o <= o_page_number o')
  /\ (forall i o, w_outline (writer Sample2.merged_state) !! i = Some o ->
                  o_page_number o <= page_index Sample2.merged_state).
Proof.
  assert (H1 : merge Sample.read_pdf Sample.convert_img Sample.outline_raises
                     Sample.tree [] false None 150
               = Some (Sample2.merged_state, Sample2.merged_tree))
    by (by vm_compute).
  split; [exact H1|].
  exact (outline_is_well_formed
           Sample.read_pdf Sample.convert_img Sample.outline_raises
           Sample.tree [] false None 150 _ _ H1).
Defined.

Lemma outline_mirrors_folders_witness :
  (forall w t pg parent, Sample.outline_raises w t pg parent = false)
  /\ merge Sample.read_pdf Sample.convert_img Sample.outline_raises
           Sample.tree [] false None 150
     = Some (Sample2.merged_state, Sample2.merged_tree)
  /\ w_outline (writer Sample2.merged_state)
     = outline_from false []
         (List.filter (bookmarked (folders_of Sample2.merged_tree))
                      Sample2.merged_tree).
Proof.
  assert (H1 : forall w t pg parent,
            Sample.outline_raises w t pg parent = false) by done.
  assert (H2 : merge Sample.read_pdf Sample.convert_img Sample.outline_raises
                     Sample.tree [] false None 150
               = Some (Sample2.merged_state, Sample2.merged_tree))
    by (by vm_compute).
  split; [exact H1|]. split; [exact H2|].
  exact (outline_mirrors_folders
           Sample.read_pdf Sample.convert_img Sample.outline_raises
           Sample.tree [] false None 150 _ _ H1 H2).
Defined.

(** * Further properties of a whole run *)

Section Run.

Context {Pattern : Type}.
Variable re_search : Pattern -> string -> bool.
Variable hash : string -> Z.
Variables includes excludes : list Pattern.

(** X22. On a snapshot without repeated names, with a reader that opens
    every PDF, a converter that converts every image and a writer that
    accepts every outline item, a run can only fail in the selection,
    when the root is not a directory: whenever [select_paths] returns,
    the description of what it selected and the assembly return too. *)
Theorem run_returns_when_selection_does
        (read_pdf : Path -> option nat)
        (convert_img : Path -> option string -> nat -> option (Path * nat))
        (outline_raises : PdfWriter -> string -> nat -> option nat -> bool)
        fs root pretty_labels page_size dpi :
  FS.wf fs ->
  (forall p, is_Some (read_pdf p)) ->
  (forall p, is_Some (convert_img p page_size dpi)) ->
  (forall w t pg parent, outline_raises w t pg parent = false) ->
  is_Some (select_paths re_search hash includes excludes fs root) ->
  is_Some (compile re_search hash read_pdf convert_img outline_raises
                   fs root includes excludes pretty_labels page_size dpi).
Proof.
  intros Hwf Hrd Hcv Hok Hsel.
  destruct (FS.lookup fs root) as [[t|es]|] eqn:Hroot.
  - unfold compile. unfold select_paths in *. rewrite Hroot in *.
    destruct (_ || _); [|by destruct Hsel]. cbn. eauto.
  - destruct (pipeline_tree re_search hash includes excludes fs Hwf root es
                Hroot) as (files & tree & Hf & Ht & Hpar & _).
    unfold compile. rewrite Hf. cbn. rewrite Ht. cbn.
    apply merge_total; [done| |done].
    apply Forall_forall. intros x _. split; intros _; [apply Hrd|apply Hcv].
  - unfold compile. unfold select_paths in *. rewrite Hroot in *.
    destruct (_ || _); [|by destruct Hsel]. cbn. eauto.
Qed.

(** X23. Filters prune whole subtrees: when a path is selected, every
    folder on the way from the root to it, the root included, is
    selected too and passes [_match_filters] with its own path relative
    to the root. A file below a folder that an include pattern does not
    match, or an exclude pattern matches, is never selected. *)
Theorem ancestors_of_selected_paths_pass_filters fs root sel k k' :
  select_paths re_search hash includes excludes fs root = Some sel ->
  root ++ k ∈ sel ->
  k' `prefix_of` k ->
  root ++ k' ∈ sel
  /\ _match_filters re_search k' includes excludes = true.
Proof.
  unfold select_paths. intros Hsel Hk [r ->].
  destruct (FS.lookup fs root) as [[t|es]|] eqn:Hroot.
  - destruct (_ || _); [|done]. injection Hsel as <-.
    by apply elem_of_nil in Hk.
  - apply (inj Some) in Hsel. subst sel.
    assert (Hin : root ++ k'
                  ∈ walk re_search hash includes excludes
                         (FS.height (Dir es)) root [] es).
    { induction r as [|c r IH] using rev_ind.
      - by rewrite app_nil_r in Hk.
      - apply IH.
        apply walk_parent in Hk as [Hk|Hk].
        + exfalso. apply (f_equal List.length) in Hk.
          rewrite !length_app in Hk. cbn in Hk. lia.
        + replace (root ++ k' ++ r ++ [c])
            with (PurePath.child (root ++ k' ++ r) c) in Hk
            by (unfold PurePath.child; by rewrite <- !app_assoc).
          by rewrite parent_child in Hk. }
    split; [done|].
    apply walk_passes_filters in Hin as (k2 & E & Hf & _).
    apply app_inv_head in E. by subst k2.
  - destruct (_ || _); [|done]. injection Hsel as <-.
    by apply elem_of_nil in Hk.
Qed.

End Run.

(** X24. Without an order file the children of a folder are visited in
    the order of their lowercased names: no child comes before one whose
    lowercased name is smaller. *)
Theorem default_order_is_by_lowercased_name
        (hash : string -> Z) es i j x y :
  FS.entry ".order" es = None ->
  ordered_children hash es !! i = Some x ->
  ordered_children hash es !! j = Some y ->
  i < j ->
  String.ltb (Str.lower (fst y)) (Str.lower (fst x)) = false.
Proof.
  unfold ordered_children. intros -> Hi Hj Hij.
  pose proof (sort_by_sorted (fun e : string * node => Str.lower (fst e))
                String.ltb string_ltb_asym string_ltb_negtrans es) as Hs.
  exact (StronglySorted_lookup _ _ i j x y Hs Hij Hi Hj).
Qed.

Lemma run_returns_when_selection_does_witness :
  FS.wf Sample.library
  /\ (forall p, is_Some (Sample.read_pdf p))
  /\ (forall p, is_Some (Sample.convert_img p (Some "a4") 300))
  /\ (forall w t pg parent, Sample.outline_raises w t pg parent = false)
  /\ is_Some (select_paths Sample.re_search (Sample.hash_const 0) [] ["sub"]
                           Sample.library [])
  /\ is_Some (compile Sample.re_search (Sample.hash_const 0)
                      Sample.read_pdf Sample.convert_img
                      Sample.outline_raises
                      Sample.library [] [] ["sub"] true (Some "a4") 300).
Proof.
  assert (H1 : FS.wf Sample.library) by (cbn; repeat split; compute_done).
  assert (H2 : forall p, is_Some (Sample.read_pdf p)) by (intros p; by eexists).
  assert (H3 : forall p, is_Some (Sample.convert_img p (Some "a4") 300))
    by (intros p; by eexists).
  assert (H4 : forall w t pg parent,
            Sample.outline_raises w t pg parent = false) by done.
  assert (H5 : is_Some (select_paths Sample.re_search (Sample.hash_const 0)
                                     [] ["sub"] Sample.library []))
    by (vm_compute; eauto).
  split; [exact H1|]. split; [exact H2|]. split; [exact H3|].
  split; [exact H4|]. split; [exact H5|].
  exact (run_returns_when_selection_does
           Sample.re_search (Sample.hash_const 0) [] ["sub"]
           Sample.read_pdf Sample.convert_img Sample.outline_raises
           Sample.library [] true (Some "a4") 300 H1 H2 H3 H4 H5).
Defined.

Lemma ancestors_of_selected_paths_pass_filters_witness :
  select_paths Sample.re_search (Sample.hash_const 0) [] ["k.pdf"]
               Sample.library []
  = Some [[]; ["a"]; ["a"; "sub"]; ["a"; "sub"; "j.pdf"]; ["b"];
          ["b"; "m.png"]; ["b"; "n.pdf"]; ["z.pdf"]]
  /\ [] ++ ["a"; "sub"; "j.pdf"]
     ∈ [[]; ["a"]; ["a"; "sub"]; ["a"; "sub"; "j.pdf"]; ["b"];
        ["b"; "m.png"]; ["b"; "n.pdf"]; ["z.pdf"]]
  /\ ["a"; "sub"] `prefix_of` ["a"; "sub"; "j.pdf"]
  /\ [] ++ ["a"; "sub"]
     ∈ [[]; ["a"]; ["a"; "sub"]; ["a"; "sub"; "j.pdf"]; ["b"];
        ["b"; "m.png"]; ["b"; "n.pdf"]; ["z.pdf"]]
  /\ _match_filters Sample.re_search ["a"; "sub"] [] ["k.pdf"] = true.
Proof.
  assert (H1 : select_paths Sample.re_search (Sample.hash_const 0)
                            [] ["k.pdf"] Sample.library []
               = Some [[]; ["a"]; ["a"; "sub"]; ["a"; "sub"; "j.pdf"]; ["b"];
                       ["b"; "m.png"]; ["b"; "n.pdf"]; ["z.pdf"]])
    by (by vm_compute).
  assert (H2 : [] ++ ["a"; "sub"; "j.pdf"]
               ∈ [[]; ["a"]; ["a"; "sub"]; ["a"; "sub"; "j.pdf"]; ["b"];
                  ["b"; "m.png"]; ["b"; "n.pdf"]; ["z.pdf"]])
    by compute_done.
  assert (H3 : ["a"; "sub"] `prefix_of` ["a"; "sub"; "j.pdf"])
    by (by exists ["j.pdf"]).
  split; [exact H1|]. split; [exact H2|]. split; [exact H3|].
  exact (ancestors_of_selected_paths_pass_filters
           Sample.re_search (Sample.hash_const 0) [] ["k.pdf"]
           Sample.library [] _ _ _ H1 H2 H3).
Defined.

Lemma default_order_is_by_lowercased_name_witness :
  FS.entry ".order" Sample.shelf = None
  /\ ordered_children (Sample.hash_const 0) Sample.shelf !! 1
     = Some ("Beta.PNG", File None)
  /\ ordered_children (Sample.hash_const 0) Sample.shelf !! 3
     = Some ("Zeta.pdf", File None)
  /\ String.ltb (Str.lower "Zeta.pdf") (Str.lower "Beta.PNG") = false.
Proof.
  assert (H1 : FS.entry ".order" Sample.shelf = None) by reflexivity.
  assert (H2 : ordered_children (Sample.hash_const 0) Sample.shelf !! 1
               = Some ("Beta.PNG", File None)) by (by vm_compute).
  assert (H3 : ordered_children (Sample.hash_const 0) Sample.shelf !! 3
               = Some ("Zeta.pdf", File None)) by (by vm_compute).
  split; [exact H1|]. split; [exact H2|]. split; [exact H3|].
  exact (default_order_is_by_lowercased_name
           (Sample.hash_const 0) Sample.shelf 1 3 _ _ H1 H2 H3 ltac:(lia)).
Defined.

(** * Further properties of names and marker files *)

Lemma string_app_cons c (s t : string) :
  (String c s ++ t)%string = String c (s ++ t)%string.
Proof. reflexivity. Qed.

Lemma string_app_nil_r (s : string) : (s ++ "")%string = s.
Proof.
  induction s as [|c s IH]; [done|]. by rewrite string_app_cons, IH.
Qed.

Lemma string_app_assoc (s t u : string) :
  (s ++ (t ++ u))%string = ((s ++ t) ++ u)%string.
Proof.
  induction s as [|c s IH]; [done|]. by rewrite !string_app_cons, IH.
Qed.

Lemma string_rev_app_spec s : forall t,
  String.rev_app s t = (String.rev s ++ t)%string.
Proof.
  unfold String.rev. induction s as [|c s IH]; intros t; [done|].
  cbn [String.rev_app]. rewrite (IH (String c "")), IH.
  by rewrite <- string_app_assoc.
Qed.

Lemma string_rev_cons c s :
  String.rev (String c s) = (String.rev s ++ String c "")%string.
Proof. unfold String.rev at 1. cbn [String.rev_app]. apply string_rev_app_spec. Qed.

Lemma string_rev_app s t :
  String.rev (s ++ t) = (String.rev t ++ String.rev s)%string.
Proof.
  induction s as [|c s IH].
  - by rewrite string_app_nil_r.
  - by rewrite string_app_cons, !string_rev_cons, IH, string_app_assoc.
Qed.

Lemma string_rev_involutive s : String.rev (String.rev s) = s.
Proof.
  induction s as [|c s IH]; [done|].
  by rewrite string_rev_cons, string_rev_app, IH.
Qed.

Lemma lstrip_split s :
  exists ws, s = (ws ++ Str.lstrip s)%string.
Proof.
  induction s as [|c s [ws IH]]; [by exists ""|]. cbn [Str.lstrip].
  destruct (Str.is_space c).
  - exists (String c ws). by rewrite string_app_cons, <- IH.
  - by exists "".
Qed.

Lemma lstrip_head s c r :
  Str.lstrip s = String c r -> Str.is_space c = false.
Proof.
  induction s as [|d s IH]; cbn; [done|].
  destruct (Str.is_space d) eqn:E; [done|]. by intros [= <- _].
Qed.

Lemma lstrip_idem s : Str.lstrip (Str.lstrip s) = Str.lstrip s.
Proof.
  destruct (Str.lstrip s) as [|c r] eqn:E; [done|].
  cbn. by rewrite (lstrip_head s c r E).
Qed.

(** Stripping twice is stripping once. *)
Lemma strip_idem s : Str.strip (Str.strip s) = Str.strip s.
Proof.
  unfold Str.strip.
  set (a := Str.lstrip s). set (b := Str.lstrip (String.rev a)).
  assert (Hb : Str.lstrip (String.rev b) = String.rev b).
  { destruct (String.rev b) as [|c r'] eqn:Er; [done|].
    destruct (lstrip_split (String.rev a)) as [ws Hws]. fold b in Hws.
    apply (f_equal String.rev) in Hws.
    rewrite string_rev_involutive, string_rev_app, Er in Hws.
    rewrite string_app_cons in Hws.
    cbn. by rewrite (lstrip_head s c _ Hws). }
  rewrite Hb, string_rev_involutive. unfold b. by rewrite lstrip_idem.
Qed.

(** X25. The lines [_load_dotfile_lines] hands to the walker are never
    empty and carry no white space at either end: stripping one of them
    again changes nothing. Blank lines and indentation in an order file
    are thus of no account. *)
Theorem load_dotfile_lines_are_stripped f :
  Forall (fun l => l <> "" /\ Str.strip l = l) (_load_dotfile_lines f).
Proof.
  unfold _load_dotfile_lines. destruct (FS.read_text f) as [t|]; [|constructor].
  apply Forall_forall. intros l Hl.
  apply list_elem_of_In, filter_In in Hl as [Hl Hne].
  apply in_map_iff in Hl as (x & <- & _). split.
  - intros E. rewrite E in Hne. done.
  - apply strip_idem.
Qed.

Lemma lower_ascii_dot c :
  (nat_of_ascii (Str.lower_ascii c) =? 46)%nat = (nat_of_ascii c =? 46)%nat.
Proof.
  unfold Str.lower_ascii.
  destruct ((65 <=? nat_of_ascii c)%nat && (nat_of_ascii c <=? 90)%nat)
    eqn:E; [|done].
  apply andb_prop in E as [E1 E2].
  apply Nat.leb_le in E1. apply Nat.leb_le in E2.
  rewrite nat_ascii_embedding by lia.
  transitivity false; [|symmetry]; apply Nat.eqb_neq; lia.
Qed.

Lemma lower_ascii_idem c :
  Str.lower_ascii (Str.lower_ascii c) = Str.lower_ascii c.
Proof.
  destruct ((65 <=? nat_of_ascii c)%nat && (nat_of_ascii c <=? 90)%nat)
    eqn:E.
  - assert (Hc : Str.lower_ascii c = ascii_of_nat (nat_of_ascii c + 32))
      by (unfold Str.lower_ascii; by rewrite E).
    rewrite Hc. apply andb_prop in E as [E1 E2].
    apply Nat.leb_le in E1. apply Nat.leb_le in E2.
    unfold Str.lower_ascii. rewrite nat_ascii_embedding by lia.
    replace (nat_of_ascii c + 32 <=? 90)%nat with false
      by (symmetry; apply Nat.leb_gt; lia).
    by rewrite andb_false_r.
  - assert (Hc : Str.lower_ascii c = c)
      by (unfold Str.lower_ascii; by rewrite E).
    by rewrite !Hc.
Qed.

Lemma lower_idem s : Str.lower (Str.lower s) = Str.lower s.
Proof.
  induction s as [|c s IH]; cbn; [done|]. by rewrite lower_ascii_idem, IH.
Qed.

Lemma length_lower s : String.length (Str.lower s) = String.length s.
Proof. induction s as [|c s IH]; cbn; [done|]. by rewrite IH. Qed.

Lemma rfind_dot_from_lower s : forall i,
  Str.rfind_dot_from i (Str.lower s) = Str.rfind_dot_from i s.
Proof.
  induction s as [|c s IH]; intros i; cbn; [done|].
  by rewrite IH, lower_ascii_dot.
Qed.

Lemma substring_lower s : forall i m,
  String.substring i m (Str.lower s) = Str.lower (String.substring i m s).
Proof.
  induction s as [|c s IH]; intros i m; cbn.
  - by destruct i, m.
  - destruct i as [|i]; [destruct m as [|m]; cbn; [done|by rewrite IH]|].
    apply IH.
Qed.

Lemma suffix_lower p n :
  PurePath.suffix (p ++ [Str.lower n]) = Str.lower (PurePath.suffix (p ++ [n])).
Proof.
  unfold PurePath.suffix, PurePath.name. rewrite !last_last.
  unfold Str.rfind_dot. rewrite rfind_dot_from_lower, length_lower.
  destruct (Str.rfind_dot_from 0 n) as [i|]; [|done].
  destruct (_ && _); [|done]. apply substring_lower.
Qed.

(** X26. The type of a file is read off its extension without regard to
    case: a name and the same name in lower case are both PDFs, both
    images of the same kind, or neither, wherever they lie. *)
Theorem file_type_ignores_case p n :
  _is_pdf (p ++ [Str.lower n]) = _is_pdf (p ++ [n])
  /\ _is_img (p ++ [Str.lower n]) = _is_img (p ++ [n]).
Proof.
  unfold _is_pdf, _is_img. by rewrite suffix_lower, lower_idem.
Qed.

(** * The outline of a whole run *)

Lemma flat_map_split {A B} (f : A -> list B) l : forall l1 q l2,
  flat_map f l = l1 ++ q :: l2 ->
  exists la e lb p1 p2,
    l = la ++ e :: lb /\ f e = p1 ++ q :: p2 /\ l1 = flat_map f la ++ p1.
Proof.
  induction l as [|a l IH]; intros l1 q l2 H; cbn in H.
  { by destruct l1. }
  apply app_eq_app in H as [m [[H1 H2]|[H1 H2]]].
  - destruct m as [|q' m].
    + rewrite app_nil_r in H1. cbn in H2. symmetry in H2.
      apply (IH [] q l2) in H2 as (la & e & lb & p1 & p2 & -> & He & Hl1).
      exists (a :: la), e, lb, p1, p2. split; [done|]. split; [done|].
      cbn. by rewrite <- app_assoc, <- Hl1, app_nil_r.
    + cbn in H2. injection H2 as -> _.
      exists [], a, l, l1, m. by repeat split.
  - apply IH in H2 as (la & e & lb & p1 & p2 & -> & He & ->).
    exists (a :: la), e, lb, p1, p2. split; [done|]. split; [done|].
    cbn. by rewrite H1, <- app_assoc.
Qed.

Lemma filter_lookup_split {A} (P : A -> bool) l : forall i x,
  List.filter P l !! i = Some x ->
  exists t1 t2,
    l = t1 ++ x :: t2 /\ P x = true
    /\ take i (List.filter P l) = List.filter P t1.
Proof.
  induction l as [|a l IH]; intros i x; cbn [List.filter].
  { by rewrite lookup_nil. }
  destruct (P a) eqn:Ea.
  - destruct i as [|i]; cbn.
    + intros [= ->]. exists [], l. by repeat split.
    + intros (t1 & t2 & -> & Hx & Ht)%IH.
      exists (a :: t1), t2. split; [done|]. split; [done|].
      cbn. by rewrite Ea, Ht.
  - intros (t1 & t2 & -> & Hx & Ht)%IH.
    exists (a :: t1), t2. split; [done|]. split; [done|].
    cbn. by rewrite Ea.
Qed.

Lemma outline_from_lookup pretty_labels bs : forall earlier i x,
  bs !! i = Some x ->
  outline_from pretty_labels earlier bs !! i
  = Some (mkOutline (outline_label pretty_labels x) (default 0 (page x))
            (last_folder 0 (PurePath.parent (path x))
                         (earlier ++ take i bs))).
Proof.
  induction bs as [|b bs IH]; intros earlier i x; [by rewrite lookup_nil|].
  destruct i as [|i]; cbn.
  - intros [= ->]. by rewrite app_nil_r.
  - intros Hi. rewrite (IH _ _ _ Hi). by rewrite <- app_assoc.
Qed.

Lemma last_folder_Some p l : forall i f,
  f ∈ l -> type f = folder -> path f = p ->
  is_Some (last_folder i p l).
Proof.
  induction l as [|a l IH]; intros i f; [by intros ?%elem_of_nil|].
  intros [->|Hin]%elem_of_cons Hty Hp; cbn [last_folder].
  - destruct (last_folder (S i) p l); [eauto|].
    rewrite bool_decide_eq_true_2 by done. eauto.
  - destruct (IH (S i) f Hin Hty Hp) as [n ->]. eauto.
Qed.

Lemma last_folder_spec p l : forall i n,
  last_folder i p l = Some n ->
  i <= n
  /\ exists f, l !! (n - i) = Some f /\ type f = folder /\ path f = p.
Proof.
  induction l as [|a l IH]; intros i n; cbn [last_folder]; [done|].
  destruct (last_folder (S i) p l) as [m|] eqn:E.
  - intros [= <-]. apply IH in E as (Hle & f & Hf & Hty & Hp).
    split; [lia|]. exists f. split; [|done].
    replace (m - i) with (S (m - S i)) by lia. done.
  - case_bool_decide as Ha; [|done]. intros [= <-].
    split; [lia|]. exists a. rewrite Nat.sub_diag. by destruct Ha.
Qed.

Lemma lookup_snoc_dir fs p c n :
  FS.lookup fs (p ++ [c]) = Some n -> is_dir_at fs p = true.
Proof.
  rewrite lookup_app. unfold is_dir_at.
  destruct (FS.lookup fs p) as [[t|es]|]; cbn; done.
Qed.

Section RunOutline.

Context {Pattern : Type}.
Variable re_search : Pattern -> string -> bool.
Variable hash : string -> Z.
Variables includes excludes : list Pattern.
Variable read_pdf : Path -> option nat.
Variable convert_img : Path -> option string -> nat -> option (Path * nat).
Variable outline_raises : PdfWriter -> string -> nat -> option nat -> bool.

(** In what [walk] selects, a path other than the folder itself comes
    after its parent. *)
Lemma walk_parents_before fuel : forall cur rel es l1 q l2,
  walk re_search hash includes excludes fuel cur rel es = l1 ++ q :: l2 ->
  q = cur \/ PurePath.parent q ∈ l1.
Proof.
  induction fuel as [|fuel IH]; intros cur rel es l1 q l2; cbn [walk].
  { by destruct l1. }
  destruct (_should_ignore cur es); [by destruct l1|].
  destruct (negb _); [by destruct l1|].
  destruct l1 as [|c l1]; cbn; [intros [= <- _]; by left|].
  intros [= <- H]. right.
  apply flat_map_split in H as (la & e & lb & p1 & p2 & _ & He & ->).
  unfold visit in He.
  destruct (negb (visited cur e)); [by destruct p1|].
  destruct (snd e) as [t|es'].
  - destruct (_match_filters _ _ _ _); [|by destruct p1].
    destruct p1 as [|c' p1]; [|by destruct p1].
    cbn in He. injection He as <- _. rewrite parent_child. left.
  - apply IH in He as [->|Hin].
    + rewrite parent_child. left.
    + right. apply elem_of_app. by right.
Qed.

Hypothesis accepts : forall w t pg parent, outline_raises w t pg parent = false.

(** A run with a writer that accepts every request: what was selected,
    the entries it leaves, and its outline. *)
Lemma run_facts fs root pretty_labels page_size dpi st tree' :
  FS.wf fs ->
  compile re_search hash read_pdf convert_img outline_raises
          fs root includes excludes pretty_labels page_size dpi
  = Some (st, tree') ->
  exists files,
    select_paths re_search hash includes excludes fs root = Some files
    /\ Forall (describable fs files) files
    /\ map key_of tree' = map (fun p => (kind_at fs p, p)) files
    /\ w_outline (writer st)
       = outline_from pretty_labels []
           (List.filter (bookmarked (folders_of tree')) tree').
Proof.
  intros Hwf. unfold compile.
  destruct (select_paths _ _ _ _ _ _) as [files|] eqn:Hsel; cbn; [|done].
  destruct (build_tree_description fs files) as [tree|] eqn:Htree; cbn;
    [|done].
  intros Hm. exists files. split; [done|].
  assert (Hall : Forall (describable fs files) files).
  { unfold select_paths in Hsel.
    destruct (FS.lookup fs root) as [[t|es]|] eqn:Hroot.
    - destruct (_ || _); [|done]. injection Hsel as <-. constructor.
    - apply (inj Some) in Hsel. subst files. by apply walk_describable.
    - destruct (_ || _); [|done]. injection Hsel as <-. constructor. }
  split; [done|]. split.
  - pose proof (merge_result _ _ _ _ _ _ _ _ _ _ Hm) as [-> _].
    rewrite number_from_keys, map_map.
    rewrite (map_ext _ key_of (key_of_count_pages read_pdf)).
    apply build_tree_description_is_local_keys; [done|exact Hall].
  - unfold merge in Hm.
    destruct (_update_files_page_count read_pdf tree) as [tree1|];
      cbn in Hm; [|done].
    pose proof (merge_loop_pages _ _ _ _ _ _ _ _ _ _ _ Hm) as [Htree' _].
    cbn [page_index] in Htree'.
    apply (merge_loop_accepting _ _ _ _ _ _ _ accepts _ _ _ _ []) in Hm;
      [|done..].
    rewrite Hm. cbn [writer w_outline app]. f_equal.
    apply filter_ext. intros x. apply bookmarked_marks.
    apply folders_of_marks. rewrite Htree'. apply number_from_marks.
Qed.

(** X27. In a whole run on a snapshot without repeated names, with a
    writer that accepts every request, the outline follows the folders:
    the item of every bookmarked entry other than the root's hangs under
    an item made before it, and that item is the one of the folder entry
    for the directory that holds the entry. *)
Theorem run_outline_follows_the_folders
        fs root pretty_labels page_size dpi st tree' :
  FS.wf fs ->
  compile re_search hash read_pdf convert_img outline_raises
          fs root includes excludes pretty_labels page_size dpi
  = Some (st, tree') ->
  forall i x,
    List.filter (bookmarked (folders_of tree')) tree' !! i = Some x ->
    path x <> root ->
    exists o n f,
      w_outline (writer st) !! i = Some o
      /\ o_parent o = Some n /\ n < i
      /\ List.filter (bookmarked (folders_of tree')) tree' !! n = Some f
      /\ type f = folder
      /\ path f = PurePath.parent (path x).
Proof.
  intros Hwf Hrun i x Hi Hroot.
  destruct (run_facts _ _ _ _ _ _ _ Hwf Hrun)
    as (files & Hsel & Hall & Hkeys & ->).
  rewrite (outline_from_lookup _ _ [] i x Hi). cbn [app].
  destruct (filter_lookup_split _ _ _ _ Hi) as (t1 & t2 & Ht & _ & Htake).
  rewrite Ht, map_app in Hkeys. cbn [map] in Hkeys. symmetry in Hkeys.
  apply fmap_app_inv in Hkeys as (f1 & f2' & Hf1 & Hf2 & Hfiles).
  symmetry in Hf2.
  apply fmap_cons_inv in Hf2 as (q & f2 & Hq & _ & ->).
  unfold key_of in Hq. injection Hq as _ Hq.
  assert (Hpar : PurePath.parent q ∈ f1 /\ q <> []).
  { unfold select_paths in Hsel.
    destruct (FS.lookup fs root) as [[t|es]|] eqn:Hr.
    - destruct (_ || _); [|done]. injection Hsel as Hsel.
      rewrite <- Hsel in Hfiles. by destruct f1.
    - apply (inj Some) in Hsel. rewrite Hfiles in Hsel.
      pose proof Hsel as Hw.
      apply walk_parents_before in Hw as [Hw|Hw]; [congruence|].
      split; [done|]. intros ->. apply Hroot. rewrite Hq.
      assert (Hin : [] ∈ walk re_search hash includes excludes
                             (FS.height (Dir es)) root [] es).
      { rewrite Hsel. apply elem_of_app. right. left. }
      apply walk_prefix in Hin as [k Hk]. symmetry in Hk.
      by apply app_eq_nil in Hk as [-> _].
    - destruct (_ || _); [|done]. injection Hsel as Hsel.
      rewrite <- Hsel in Hfiles. by destruct f1. }
  destruct Hpar as [Hpar Hne].
  assert (Hdir : is_dir_at fs (PurePath.parent q) = true).
  { rewrite Forall_forall in Hall.
    assert (Hqin : q ∈ files).
    { rewrite Hfiles. apply elem_of_app. right. left. }
    assert (Hlook : is_Some (FS.lookup fs q)).
    { destruct (Hall q Hqin) as [[es ->]|((t & ->) & _)]; eauto. }
    destruct Hlook as [n Hn].
    rewrite (app_removelast_last "" Hne) in Hn.
    by apply lookup_snoc_dir in Hn. }
  assert (Hf : exists f, f ∈ t1 /\ type f = folder
                         /\ path f = PurePath.parent (path x)).
  { assert (Hk : (kind_at fs (PurePath.parent q), PurePath.parent q)
                 ∈ map key_of t1).
    { rewrite Hf1.
      apply (list_elem_of_fmap_2 (fun p => (kind_at fs p, p))), Hpar. }
    apply list_elem_of_fmap in Hk as (f & Hk & Hin).
    exists f. split; [done|]. unfold key_of in Hk. injection Hk as Hty Hp.
    unfold kind_at in Hty. rewrite Hdir in Hty. by rewrite Hq. }
  destruct Hf as (f & Hin & Hty & Hp).
  assert (Hbf : f ∈ List.filter (bookmarked (folders_of tree')) t1).
  { apply list_elem_of_In, filter_In. split; [by apply list_elem_of_In|].
    unfold bookmarked. by rewrite Hty. }
  rewrite Htake.
  destruct (last_folder_Some _ _ 0 f Hbf Hty Hp) as [n Hn].
  pose proof (last_folder_spec _ _ _ _ Hn) as (_ & f' & Hf' & Hty' & Hp').
  rewrite Nat.sub_0_r in Hf'.
  assert (Hlt : n < i).
  { apply lookup_lt_Some in Hf'. rewrite <- Htake in Hf'.
    rewrite length_take in Hf'. lia. }
  eexists _, n, f'. split; [reflexivity|]. cbn [o_parent].
  split; [done|]. split; [done|]. split; [|done].
  rewrite <- Htake in Hf'. by rewrite lookup_take_lt in Hf'.
Qed.

End RunOutline.

Lemma run_outline_follows_the_folders_witness :
  (forall w t pg parent, Sample.outline_raises w t pg parent = false)
  /\ FS.wf Sample.library
  /\ compile Sample.re_search (Sample.hash_const 0) Sample.read_pdf
             Sample.convert_img Sample.outline_raises
             Sample.library [] [] [] false None 150
     = Some (Sample2.run_state, Sample2.run_tree)
  /\ forall i x,
       List.filter (bookmarked (folders_of Sample2.run_tree))
                   Sample2.run_tree !! i = Some x ->
       path x <> [] ->
       exists o n f,
         w_outline (writer Sample2.run_state) !! i = Some o
         /\ o_parent o = Some n /\ n < i
         /\ List.filter (bookmarked (folders_of Sample2.run_tree))
                        Sample2.run_tree !! n = Some f
         /\ type f = folder
         /\ path f = PurePath.parent (path x).
Proof.
  assert (H1 : forall w t pg parent,
            Sample.outline_raises w t pg parent = false) by done.
  assert (H2 : FS.wf Sample.library) by (cbn; repeat split; compute_done).
  assert (H3 : compile Sample.re_search (Sample.hash_const 0) Sample.read_pdf
                       Sample.convert_img Sample.outline_raises
                       Sample.library [] [] [] false None 150
               = Some (Sample2.run_state, Sample2.run_tree))
    by (by vm_compute).
  split; [exact H1|]. split; [exact H2|]. split; [exact H3|].
  exact (run_outline_follows_the_folders
           Sample.re_search (Sample.hash_const 0) [] []
           Sample.read_pdf Sample.convert_img Sample.outline_raises H1
           Sample.library [] false None 150 _ _ H2 H3).
Defined.

(** * Pretty labels *)

Lemma is_space_upper c : Str.is_space (Str.upper_ascii c) = Str.is_space c.
Proof. destruct c as [[] [] [] [] [] [] [] []]; reflexivity. Qed.

Lemma is_space_lower c : Str.is_space (Str.lower_ascii c) = Str.is_space c.
Proof. destruct c as [[] [] [] [] [] [] [] []]; reflexivity. Qed.

Lemma upper_ascii_idem c :
  Str.upper_ascii (Str.upper_ascii c) = Str.upper_ascii c.
Proof. destruct c as [[] [] [] [] [] [] [] []]; reflexivity. Qed.

Lemma underscore_upper c :
  Ascii.eqb (Str.upper_ascii c) "_" = Ascii.eqb c "_".
Proof. destruct c as [[] [] [] [] [] [] [] []]; reflexivity. Qed.

Lemma underscore_lower c :
  Ascii.eqb (Str.lower_ascii c) "_" = Ascii.eqb c "_".
Proof. destruct c as [[] [] [] [] [] [] [] []]; reflexivity. Qed.

Lemma underscore_code c :
  (nat_of_ascii c =? 95)%nat = Ascii.eqb c "_".
Proof. destruct c as [[] [] [] [] [] [] [] []]; reflexivity. Qed.

Lemma chars_app (s t : string) :
  list_ascii_of_string (s ++ t)
  = list_ascii_of_string s ++ list_ascii_of_string t.
Proof.
  induction s as [|c s IH]; [done|]. rewrite string_app_cons. cbn.
  by rewrite IH.
Qed.

Lemma chars_rev c s :
  c ∈ list_ascii_of_string (String.rev s) <-> c ∈ list_ascii_of_string s.
Proof.
  induction s as [|d s IH]; [done|].
  rewrite string_rev_cons, chars_app. cbn.
  rewrite elem_of_app, !elem_of_cons, IH, elem_of_nil. tauto.
Qed.

Lemma chars_lstrip c s :
  c ∈ list_ascii_of_string (Str.lstrip s) -> c ∈ list_ascii_of_string s.
Proof.
  induction s as [|d s IH]; cbn; [done|].
  destruct (Str.is_space d); [|done]. intros H. right. by apply IH.
Qed.

Lemma chars_strip c s :
  c ∈ list_ascii_of_string (Str.strip s) -> c ∈ list_ascii_of_string s.
Proof.
  unfold Str.strip. intros H.
  apply (proj1 (chars_rev _ _)), chars_lstrip in H.
  apply (proj1 (chars_rev _ _)) in H. by apply chars_lstrip.
Qed.

Lemma chars_replace_underscores s :
  "_"%char ∉ list_ascii_of_string (Str.replace_underscores s).
Proof.
  induction s as [|c s IH]; cbn; [apply not_elem_of_nil|].
  intros [H|H]%elem_of_cons; [|done].
  rewrite underscore_code in H.
  destruct (Ascii.eqb c "_") eqn:E; [done|].
  subst c. by rewrite Ascii.eqb_refl in E.
Qed.

Lemma replace_underscores_id s :
  "_"%char ∉ list_ascii_of_string s -> Str.replace_underscores s = s.
Proof.
  induction s as [|c s IH]; cbn; [done|]. intros H.
  rewrite IH by (intros Hin; apply H; by right).
  rewrite underscore_code.
  destruct (Ascii.eqb c "_") eqn:E; [|done].
  apply Ascii.eqb_eq in E as ->. exfalso. apply H. left.
Qed.

Lemma chars_lower_underscore s :
  "_"%char ∈ list_ascii_of_string (Str.lower s) ->
  "_"%char ∈ list_ascii_of_string s.
Proof.
  induction s as [|c s IH]; cbn; [done|].
  intros [H|H]%elem_of_cons; apply elem_of_cons; [left|right; by apply IH].
  symmetry in H. apply Ascii.eqb_eq in H. rewrite underscore_lower in H.
  by apply Ascii.eqb_eq in H.
Qed.

Lemma chars_capitalize_underscore s :
  "_"%char ∈ list_ascii_of_string (Str.capitalize s) ->
  "_"%char ∈ list_ascii_of_string s.
Proof.
  destruct s as [|c s]; cbn; [done|].
  intros [H|H]%elem_of_cons; apply elem_of_cons;
    [left|right; by apply chars_lower_underscore].
  symmetry in H. apply Ascii.eqb_eq in H. rewrite underscore_upper in H.
  by apply Ascii.eqb_eq in H.
Qed.

Lemma lower_app (s t : string) :
  Str.lower (s ++ t) = (Str.lower s ++ Str.lower t)%string.
Proof.
  induction s as [|c s IH]; [done|].
  rewrite string_app_cons. cbn [Str.lower]. by rewrite IH, string_app_cons.
Qed.

Lemma lower_rev s : String.rev (Str.lower s) = Str.lower (String.rev s).
Proof.
  induction s as [|c s IH]; [done|]. cbn [Str.lower].
  by rewrite !string_rev_cons, IH, lower_app.
Qed.

(** What [str.strip] returns has no white space in front, read from
    either end. *)
Lemma lstrip_strip s : Str.lstrip (Str.strip s) = Str.strip s.
Proof.
  unfold Str.strip.
  set (a := Str.lstrip s). set (b := Str.lstrip (String.rev a)).
  destruct (String.rev b) as [|c r'] eqn:Er; [done|].
  destruct (lstrip_split (String.rev a)) as [ws Hws]. fold b in Hws.
  apply (f_equal String.rev) in Hws.
  rewrite string_rev_involutive, string_rev_app, Er in Hws.
  rewrite string_app_cons in Hws.
  cbn. by rewrite (lstrip_head s c _ Hws).
Qed.

Lemma lstrip_rev_strip s :
  Str.lstrip (String.rev (Str.strip s)) = String.rev (Str.strip s).
Proof.
  unfold Str.strip. rewrite string_rev_involutive. apply lstrip_idem.
Qed.

Lemma strip_fixed s :
  Str.lstrip s = s -> Str.lstrip (String.rev s) = String.rev s ->
  Str.strip s = s.
Proof.
  intros H1 H2. unfold Str.strip.
  by rewrite H1, H2, string_rev_involutive.
Qed.

Lemma capitalize_idem s :
  Str.capitalize (Str.capitalize s) = Str.capitalize s.
Proof.
  destruct s as [|c s]; [done|]. cbn.
  by rewrite upper_ascii_idem, lower_idem.
Qed.

Lemma strip_capitalize_strip s :
  Str.strip (Str.capitalize (Str.strip s)) = Str.capitalize (Str.strip s).
Proof.
  pose proof (lstrip_strip s) as H1.
  pose proof (lstrip_rev_strip s) as H2.
  destruct (Str.strip s) as [|c t] eqn:Et; [done|].
  pose proof (lstrip_head _ _ _ H1) as Hc.
  apply strip_fixed.
  - cbn [Str.capitalize Str.lstrip]. by rewrite is_space_upper, Hc.
  - cbn [Str.capitalize]. rewrite string_rev_cons, lower_rev.
    rewrite string_rev_cons in H2.
    destruct (String.rev t) as [|d w]; cbn [Str.lower].
    + change ("" ++ ?x)%string with x. cbn [Str.lstrip].
      by rewrite is_space_upper, Hc.
    + rewrite string_app_cons in H2 |- *.
      pose proof (lstrip_head _ _ _ H2) as Hd.
      cbn [Str.lstrip]. by rewrite is_space_lower, Hd.
Qed.

(** X28. A prettified ASCII label is tidy: it holds no underscore, it
    has no white space at either end, and prettifying it again changes
    nothing. *)
Theorem prettify_label_is_tidy l :
  Str.is_ascii l ->
  ("_"%char ∉ list_ascii_of_string (_prettify_label l))
  /\ Str.strip (_prettify_label l) = _prettify_label l
  /\ _prettify_label (_prettify_label l) = _prettify_label l.
Proof.
  intros _.
  assert (H1 : "_"%char ∉ list_ascii_of_string (_prettify_label l)).
  { unfold _prettify_label.
    intros H. apply chars_capitalize_underscore, chars_strip in H.
    by apply chars_replace_underscores in H. }
  assert (H2 : Str.strip (_prettify_label l) = _prettify_label l)
    by apply strip_capitalize_strip.
  split; [done|]. split; [done|].
  unfold _prettify_label at 1.
  rewrite (replace_underscores_id _ H1), H2.
  unfold _prettify_label. apply capitalize_idem.
Qed.

Lemma prettify_label_is_tidy_witness :
  Str.is_ascii " annual_REPORT_2024_"
  /\ _prettify_label " annual_REPORT_2024_" = "Annual report 2024"
  /\ ("_"%char
      ∉ list_ascii_of_string (_prettify_label " annual_REPORT_2024_"))
  /\ Str.strip (_prettify_label " annual_REPORT_2024_")
     = _prettify_label " annual_REPORT_2024_"
  /\ _prettify_label (_prettify_label " annual_REPORT_2024_")
     = _prettify_label " annual_REPORT_2024_".
Proof.
  assert (H1 : Str.is_ascii " annual_REPORT_2024_")
    by (unfold Str.is_ascii; cbn; repeat constructor).
  split; [exact H1|]. split; [by vm_compute|].
  exact (prettify_label_is_tidy " annual_REPORT_2024_" H1).
Defined.
